(** * Revisions: word-level diff, edit classification and offset tables

    A shallow embedding of the core of the [revisions] package
    ([diff.py], [edits_html.py], [aligned_text.py], [utils.py],
    [get_single_output.py]) together with the properties of its
    specification.

    Conventions of the embedding.
    - A Python text is a [list ascii] (abbreviated [str]); literals are
      written with [list_ascii_of_string].
    - The symbol strings that [diff_wordsToChars] builds with [chr] are
      lists of code points ([nat]); [chr] fails above [0x10FFFF] as
      Python's does.
    - Exceptions are values of the [result] type; loops that the source
      writes with [while] take a fuel argument, and every entry point
      supplies enough of it (proved below).
    - Dictionaries are stdpp [gmap]s.
    - The external collaborators (the spaCy tokenizer and sentence
      segmenter, [dmp.diff_main], the template renderer, the MASSAlign
      aligners) are Section variables; what a proof needs of them is a
      hypothesis of that proof.
    - The file system is a map from files to contents together with the
      log of the effects performed, in program order.  A path names a
      file through [realpath]; what [open] and [os.makedirs] raise and
      which directories exist is given by the [os_env] of the run. *)

From Stdlib Require Import ZArith Ascii String List Lia Bool.
From stdpp Require Import base option list gmap strings sorting.

Open Scope Z_scope.
Open Scope nat_scope.

Abbreviation str := (list ascii).

(** * Embedding of the source *)

(** ** Exceptions *)

Inductive exn : Type :=
| IndexError
| ValueError
| AssertionError
| UnboundLocalError
| FileNotFoundError
| TypeError
| KeyError
| NameError
| PermissionError.

Inductive result (A : Type) : Type :=
| Ok (a : A)
| Raise (e : exn)
| OutOfFuel.

Arguments Ok {A} a.
Arguments Raise {A} e.
Arguments OutOfFuel {A}.

#[global] Instance result_ret : MRet result := fun A a => Ok a.
#[global] Instance result_bind : MBind result := fun A B f m =>
  match m with
  | Ok a => f a
  | Raise e => Raise e
  | OutOfFuel => OutOfFuel
  end.

Definition of_option {A} (e : exn) (o : option A) : result A :=
  match o with
  | Some a => Ok a
  | None => Raise e
  end.

(** ** Python string primitives *)

Module Py.

Definition lit (s : string) : str := list_ascii_of_string s.

Definition space : ascii := " "%char.
Definition newline : ascii := "010"%char.

(** [str.isspace] on the 8-bit range: TAB, LF, VT, FF, CR, FS, GS, RS,
    US, SPACE, NEL and NBSP. *)
Definition isspace (c : ascii) : bool :=
  let n := nat_of_ascii c in
  ((9 <=? n) && (n <=? 13)) || ((28 <=? n) && (n <=? 32))
  || (n =? 133) || (n =? 160).

Fixpoint lstrip (s : str) : str :=
  match s with
  | [] => []
  | c :: r => if isspace c then lstrip r else s
  end.

Definition rstrip (s : str) : str := rev (lstrip (rev s)).

(** [s.strip()] *)
Definition strip (s : str) : str := rstrip (lstrip s).

(** [s.split(c)] for a one-character separator. *)
Fixpoint split (c : ascii) (s : str) : list str :=
  match s with
  | [] => [[]]
  | x :: r =>
      if Ascii.eqb x c then [] :: split c r
      else match split c r with
           | [] => [[x]]
           | h :: t => (x :: h) :: t
           end
  end.

(** [sep.join(ws)] *)
Fixpoint join (sep : str) (ws : list str) : str :=
  match ws with
  | [] => []
  | [w] => w
  | w :: rest => w ++ sep ++ join sep rest
  end.

(** [s.endswith(c)] for a one-character suffix. *)
Definition endswith (c : ascii) (s : str) : bool :=
  match last s with
  | Some x => Ascii.eqb x c
  | None => false
  end.

Fixpoint index_of (c : ascii) (s : str) : option nat :=
  match s with
  | [] => None
  | x :: r => if Ascii.eqb x c then Some 0 else S <$> index_of c r
  end.

(** [s.find(c, start)]: [None] stands for Python's [-1]. *)
Definition find (c : ascii) (s : str) (start : nat) : option nat :=
  (fun k => start + k) <$> index_of c (drop start s).

(** [s[a:b]] for non-negative indices. *)
Definition slice_nat {A} (l : list A) (a b : nat) : list A :=
  take (b - a) (drop a l).

Definition clamp (len i : Z) : Z :=
  if (i <? 0)%Z then Z.max 0 (i + len) else Z.min i len.

(** [l[b:e]] for arbitrary integers: negative indices count from the
    end, and both are clamped to the length. *)
Definition slice {A} (l : list A) (b e : Z) : list A :=
  let len := Z.of_nat (length l) in
  let b' := clamp len b in
  let e' := clamp len e in
  take (Z.to_nat (e' - b')) (drop (Z.to_nat b') l).

Fixpoint starts_with (p s : str) : bool :=
  match p, s with
  | [], _ => true
  | _ :: _, [] => false
  | a :: p', b :: s' => Ascii.eqb a b && starts_with p' s'
  end.

(** [s.count(p)] for a two-character pattern [p = [a; b]]: occurrences
    are counted from the left without overlap. *)
Fixpoint count2 (a b : ascii) (s : str) : nat :=
  match s with
  | x :: ((y :: r) as t) =>
      if Ascii.eqb x a && Ascii.eqb y b then S (count2 a b r)
      else count2 a b t
  | _ => 0
  end.

(** [chr(n)]: raises [ValueError] outside [0 .. 0x10FFFF]. *)
Definition chr (n : nat) : result nat :=
  if (N.of_nat n <=? 1114111)%N then Ok n else Raise ValueError.

End Py.

(** ** Symbol codec and word-level diff ([diff.py]) *)

(** A spaCy token, as far as the code looks at it: [w.text], [w.idx]. *)
Record word : Type := { w_text : str; w_idx : nat }.

(** The closure variables [lineArray] and [lineHash] of
    [diff_wordsToChars]. *)
Record registry : Type := {
  lineArray : list str;   (* lineArray[4] == "Hello " *)
  lineHash : gmap str nat (* lineHash["Hello "] == 4 *)
}.

(** diff-match-patch's operation codes. *)
Inductive op : Type := DIFF_DELETE | DIFF_EQUAL | DIFF_INSERT.

Definition op_code (o : op) : Z :=
  match o with
  | DIFF_DELETE => -1
  | DIFF_EQUAL => 0
  | DIFF_INSERT => 1
  end.

#[global] Instance op_eq_dec : EqDecision op.
Proof. solve_decision. Defined.

Fixpoint traverse {A B} (f : A -> result B) (l : list A) : result (list B) :=
  match l with
  | [] => Ok []
  | a :: r => b ← f a; bs ← traverse f r; Ok (b :: bs)
  end.

(** [for a in l: ...] and [for i, a in enumerate(l): ...] over a loop
    body that may raise. *)
Fixpoint for_each {A B} (f : B -> A -> result B) (l : list A) (b : B) : result B :=
  match l with
  | [] => Ok b
  | a :: r => b' ← f b a; for_each f r b'
  end.

Fixpoint for_enumerate {A B} (f : B -> nat -> A -> result B) (i : nat) (l : list A) (b : B)
  : result B :=
  match l with
  | [] => Ok b
  | a :: r => b' ← f b i a; for_enumerate f (S i) r b'
  end.

(** [l[i] = x] on a Python list: out of range raises. *)
Definition list_assign {A} (l : list A) (i : nat) (x : A) : result (list A) :=
  if decide (i < length l) then Ok (<[i := x]> l) else Raise IndexError.

Module Diff.
Section WithTokenizer.

(** [nlp(line)]: the external tokenizer. *)
Variable nlp : str -> list word.

(** [[(w.text, (w.idx, w.idx + len(w.text))) for w in nlp(line)]] *)
Definition word_tuples (line : str) : list (str * (Z * Z)) :=
  map (fun w => (w_text w,
                 (Z.of_nat (w_idx w),
                  Z.of_nat (w_idx w + length (w_text w)))))
      (nlp line).

(** One iteration of [for i, line in enumerate(text.split("\n"))]:
    [offset_list] is rebound to the spans of this line's tuples,
    [words] is extended by their texts. *)
Definition tokenize_step (acc : list str * list (Z * Z)) (line : str)
  : list str * list (Z * Z) :=
  let '(words, offset_list) := acc in
  match Py.strip line with
  | [] => acc
  | _ :: _ =>
      match word_tuples line with
      | [] => acc
      | (_ :: _) as wt => (words ++ map fst wt, map snd wt)
      end
  end.

Definition tokenize_lines (text : str) : list str * list (Z * Z) :=
  fold_left tokenize_step (Py.split Py.newline text) ([], []).

(** The [while lineEnd < len(text) - 1] loop.  At the loop head
    [lineStart = lineEnd + 1] always holds (initially [0 = -1 + 1]),
    so the condition reads [lineStart < len(text)] and only
    [lineStart] is carried. *)
Fixpoint munge_loop (fuel : nat) (maxLines : N) (text : str)
    (lineStart : nat) (reg : registry) (chars : list nat)
  : result (list nat * registry) :=
  if decide (lineStart < length text) then
    match fuel with
    | 0 => OutOfFuel
    | S fuel' =>
        let lineEnd :=
          match Py.find Py.space text lineStart with
          | Some k => k
          | None => length text - 1
          end in
        let line := Py.slice_nat text lineStart (lineEnd + 1) in
        match lineHash reg !! line with
        | Some n =>
            c ← Py.chr n;
            munge_loop fuel' maxLines text (lineEnd + 1) reg (chars ++ [c])
        | None =>
            let '(line, lineEnd) :=
              if (N.of_nat (length (lineArray reg)) =? maxLines)%N
              then (drop lineStart text, length text)
              else (line, lineEnd) in
            let lineArray' := lineArray reg ++ [line] in
            let reg' :=
              {| lineArray := lineArray';
                 lineHash := <[line := length lineArray' - 1]> (lineHash reg) |} in
            c ← Py.chr (length lineArray' - 1);
            munge_loop fuel' maxLines text (lineEnd + 1) reg' (chars ++ [c])
        end
    end
  else Ok (chars, reg).

(** The text that is actually encoded: the tokens joined on single
    spaces, a ["\n"] token when the input ends with a newline, and a
    trailing space. *)
Definition munge_words (text : str) : list str :=
  let words := fst (tokenize_lines text) in
  if Py.endswith Py.newline text then words ++ [[Py.newline]] else words.

Definition munge_text (text : str) : str :=
  Py.join [Py.space] (munge_words text) ++ [Py.space].

Definition diff_linesToCharsMunge (maxLines : N) (text : str) (reg : registry)
  : result (list nat * list (Z * Z) * registry) :=
  let offset_list := snd (tokenize_lines text) in
  let text' := munge_text text in
  '(chars, reg') ← munge_loop (length text') maxLines text' 0 reg [];
  Ok (chars, offset_list, reg').

Definition diff_wordsToChars (text1 text2 : str)
  : result (list nat * list nat * list str * (list (Z * Z) * list (Z * Z))) :=
  let reg0 := {| lineArray := [[]]; lineHash := ∅ |} in
  '(chars1, offsets1, reg1) ← diff_linesToCharsMunge 666666 text1 reg0;
  '(chars2, offsets2, reg2) ← diff_linesToCharsMunge 1114111 text2 reg1;
  Ok (chars1, chars2, lineArray reg2, (offsets1, offsets2)).

(** [dmp.diff_main]: the external diff over symbol strings. *)
Variable diff_main : list nat -> list nat -> list (op * list nat).

(** Modelled from the spec: [diff_charsToLines] belongs to
    diff-match-patch and is not part of the repository; it decodes
    every symbol run back to literal text by table lookup,
    [lineArray[ord(char)]] for each symbol, joined without separator. *)
Definition diff_charsToLines (diffs : list (op * list nat)) (lineArray : list str)
  : result (list (op * str)) :=
  traverse (fun '(o, cs) =>
              text ← traverse (fun c => of_option IndexError (lineArray !! c)) cs;
              Ok (o, concat text))
           diffs.

(** [diff_wordMode(text1, text2, return_offsets=True)] *)
Definition diff_wordMode (text1 text2 : str)
  : result (list (op * str) * list (op * list nat)
            * (list (Z * Z) * list (Z * Z))) :=
  '(lineText1, lineText2, lineArray, offsets) ← diff_wordsToChars text1 text2;
  let diff := diff_main lineText1 lineText2 in
  let char_diff := diff in
  diff' ← diff_charsToLines diff lineArray;
  Ok (diff', char_diff, offsets).

End WithTokenizer.
End Diff.

(** ** Edit classification and offset reconciliation ([edits_html.py]) *)

Inductive edit_kind : Type := same | deletion | insertion | substitution.

#[global] Instance edit_kind_eq_dec : EqDecision edit_kind.
Proof. solve_decision. Defined.

(** An edit record.  Spans are pairs; the two-element lists that the
    unaligned-paragraph path writes serialize to the same JSON arrays
    and are modelled as pairs too. *)
Record edit_dict : Type := {
  edit_type : edit_kind;
  offset1 : Z * Z;
  offset2 : Z * Z;
  text1 : str;
  text2 : str
}.

(** An entry of [file1_sentences] / [file2_sentences]: the dummy
    [{"text": "", "offset": (-1, -1)}] or a sentence record. *)
Inductive sentence_dict : Type :=
| dummy_dict
| SentenceDict (text : str) (paragraph_index sentence_index : nat) (offset : Z * Z).

Record alignment : Type := {
  match_ : list Z;
  edits : list edit_dict
}.

Record edits_json : Type := {
  file1_sentences : list sentence_dict;
  file2_sentences : list sentence_dict;
  alignments : gmap Z alignment
}.

(** The local variables of [handle_diff] that its loop updates,
    together with [self.num_edits]. *)
Record loop_state : Type := {
  html1 : list str;
  html2 : list str;
  edit_dicts : list edit_dict;
  offsets1 : list (Z * Z);
  offsets2 : list (Z * Z);
  num_edits : nat
}.

Module Edits.

Definition sentinel : Z * Z := (-1, -1)%Z.

(** The inner function [deque] of [handle_diff]. *)
Definition deque (offset_list : list (Z * Z)) (diff_string : str) (num_tokens : nat)
  : (Z * Z) * list (Z * Z) :=
  let diff_offsets := take num_tokens offset_list in
  let edit_offset :=
    match diff_offsets with
    | [] => sentinel
    | first :: _ =>
        let begin := fst first in
        let end_ := snd (List.last diff_offsets first) in
        let num_double_quotes :=
          Py.count2 "'" "'" diff_string + Py.count2 "`" "`" diff_string in
        (begin, (end_ - Z.of_nat num_double_quotes)%Z)
    end in
  (edit_offset, drop num_tokens offset_list).

Section WithSelf.

(** [self.format_edit]: renders an external template. *)
Variable format_edit : str -> edit_kind -> str.
(** [self.content1], [self.content2]. *)
Variables content1 content2 : str.

(** [self.content[begin:end] if begin >= 0 else ""] *)
Definition text_at (content : str) (edit_offset : Z * Z) : str :=
  let '(begin, end_) := edit_offset in
  if (0 <=? begin)%Z then Py.slice content begin end_ else [].

Definition append_edit (st : loop_state) (kind : edit_kind)
    (edit_offset1 edit_offset2 : Z * Z) : list edit_dict :=
  edit_dicts st ++ [{| edit_type := kind;
                       offset1 := edit_offset1;
                       offset2 := edit_offset2;
                       text1 := text_at content1 edit_offset1;
                       text2 := text_at content2 edit_offset2 |}].

(** [if len(diff_string) > 1: html.append(self.format_edit(...))] *)
Definition append_html (html : list str) (diff_string shown : str) (kind : edit_kind)
  : list str :=
  if decide (1 < length diff_string) then html ++ [format_edit shown kind] else html.

(** The branch [if is_substitution:]: both offset lists are consumed,
    and both calls of [deque] receive [diff_string], the text of the
    deleted run. *)
Definition emit_substitution (st : loop_state) (diff_string subbed_string : str)
    (num_tokens next_tokens : nat) : loop_state :=
  let html1' := append_html (html1 st) diff_string diff_string substitution in
  let html2' := append_html (html2 st) diff_string subbed_string substitution in
  let '(edit_offset1, offsets1') := deque (offsets1 st) diff_string num_tokens in
  let '(edit_offset2, offsets2') := deque (offsets2 st) diff_string next_tokens in
  {| html1 := html1'; html2 := html2';
     edit_dicts := append_edit st substitution edit_offset1 edit_offset2;
     offsets1 := offsets1'; offsets2 := offsets2';
     num_edits := num_edits st + 1 |}.

(** The branch [else:  # Deletion]. *)
Definition emit_deletion (st : loop_state) (diff_string : str) (num_tokens : nat)
  : loop_state :=
  let html1' := append_html (html1 st) diff_string diff_string deletion in
  let '(edit_offset1, offsets1') := deque (offsets1 st) diff_string num_tokens in
  let edit_offset2 := sentinel in
  {| html1 := html1'; html2 := html2 st;
     edit_dicts := append_edit st deletion edit_offset1 edit_offset2;
     offsets1 := offsets1'; offsets2 := offsets2 st;
     num_edits := num_edits st + 1 |}.

(** The branch [elif diff_type == 1:  # Insertion]. *)
Definition emit_insertion (st : loop_state) (diff_string : str) (num_tokens : nat)
  : loop_state :=
  let html2' := append_html (html2 st) diff_string diff_string insertion in
  let '(edit_offset2, offsets2') := deque (offsets2 st) diff_string num_tokens in
  let edit_offset1 := sentinel in
  {| html1 := html1 st; html2 := html2';
     edit_dicts := append_edit st insertion edit_offset1 edit_offset2;
     offsets1 := offsets1 st; offsets2 := offsets2';
     num_edits := num_edits st + 1 |}.

(** The branch [elif diff_type == 0:]. *)
Definition emit_same (st : loop_state) (diff_string : str) (num_tokens : nat)
  : loop_state :=
  let '(edit_offset1, offsets1') := deque (offsets1 st) diff_string num_tokens in
  let '(edit_offset2, offsets2') := deque (offsets2 st) diff_string num_tokens in
  {| html1 := html1 st ++ [diff_string]; html2 := html2 st ++ [diff_string];
     edit_dicts := append_edit st same edit_offset1 edit_offset2;
     offsets1 := offsets1'; offsets2 := offsets2';
     num_edits := num_edits st |}.

(** The loop [while i <= last_index] of [handle_diff]. *)
Fixpoint handle_loop (fuel : nat) (diff : list (op * str)) (num_tokens_list : list nat)
    (i : nat) (st : loop_state) : result loop_state :=
  let last_index := (Z.of_nat (length diff) - 1)%Z in
  if decide (Z.of_nat i <= last_index)%Z then
    match fuel with
    | 0 => OutOfFuel
    | S fuel' =>
        '(diff_type, diff_string) ← of_option IndexError (diff !! i);
        let diff_string := Py.strip diff_string in
        num_tokens ← of_option IndexError (num_tokens_list !! i);
        match diff_type with
        | DIFF_DELETE =>
            (* is_substitution = (i < last_index) and (diff[i + 1][0] == 1) *)
            next ← (if decide (Z.of_nat i < last_index)%Z
                    then r ← of_option IndexError (diff !! (i + 1)); Ok (Some r)
                    else Ok None);
            match next with
            | Some (DIFF_INSERT, next_string) =>
                let subbed_string := Py.strip next_string in
                next_tokens ← of_option IndexError (num_tokens_list !! (i + 1));
                handle_loop fuel' diff num_tokens_list (i + 2)
                  (emit_substitution st diff_string subbed_string num_tokens next_tokens)
            | _ =>
                handle_loop fuel' diff num_tokens_list (i + 1)
                  (emit_deletion st diff_string num_tokens)
            end
        | DIFF_INSERT =>
            handle_loop fuel' diff num_tokens_list (i + 1)
              (emit_insertion st diff_string num_tokens)
        | DIFF_EQUAL =>
            handle_loop fuel' diff num_tokens_list (i + 1)
              (emit_same st diff_string num_tokens)
        end
    end
  else Ok st.

(** [[len(list(s)) for s in list(zip( *char_diff))[1]]]: indexing the
    transposed list fails when [char_diff] is empty. *)
Definition num_tokens_of (char_diff : list (op * list nat)) : result (list nat) :=
  match char_diff with
  | [] => Raise IndexError
  | _ :: _ => Ok (map (fun r => length r.2) char_diff)
  end.

(** [handle_diff(diff, char_diff, offsets1, offsets2, s1_indices,
    s2_indices)]; the last two arguments are not used by the body.  The
    result carries the updated [self.num_edits]. *)
Definition handle_diff (diff : list (op * str)) (char_diff : list (op * list nat))
    (offsets1 offsets2 : list (Z * Z)) (self_num_edits : nat)
  : result (str * str * list edit_dict * nat) :=
  num_tokens_list ← num_tokens_of char_diff;
  st ← handle_loop (length diff) diff num_tokens_list 0
         {| html1 := []; html2 := []; edit_dicts := [];
            offsets1 := offsets1; offsets2 := offsets2; num_edits := self_num_edits |};
  Ok (Py.join [Py.space] (html1 st), Py.join [Py.space] (html2 st),
      edit_dicts st, num_edits st).

(** [get_token_offsets(token_offsets, sent_offset, par_index)] *)
Definition get_token_offsets (token_offsets : list (Z * Z)) (sent_offset : Z)
  : list (Z * Z) :=
  map (fun '(begin, end_) => ((begin + sent_offset)%Z, (end_ + sent_offset)%Z))
      token_offsets.

(** The lookahead loop read as a recursion over the runs, each run
    paired with its token count. *)
Fixpoint classify (runs : list (op * str * nat)) (st : loop_state) : loop_state :=
  match runs with
  | [] => st
  | (DIFF_DELETE, s, n) :: rest =>
      match rest with
      | (DIFF_INSERT, s', n') :: rest' =>
          classify rest' (emit_substitution st (Py.strip s) (Py.strip s') n n')
      | _ => classify rest (emit_deletion st (Py.strip s) n)
      end
  | (DIFF_INSERT, s, n) :: rest => classify rest (emit_insertion st (Py.strip s) n)
  | (DIFF_EQUAL, s, n) :: rest => classify rest (emit_same st (Py.strip s) n)
  end.

(** [self.sentence_offsets1], [self.sentence_offsets2]: the global
    Sentence Offset Tables of the two documents. *)
Variables sentence_offsets1 sentence_offsets2 : list (Z * Z).

(** The [while i < par_index] loop of [get_sent_indices]: the number of
    table slots taken by the paragraphs before [par_index]. *)
Fixpoint sentence_offset_before (paragraphs : list (list str)) (par_index : nat)
  : result nat :=
  match par_index with
  | 0 => Ok 0
  | S i =>
      sentence_offset ← sentence_offset_before paragraphs i;
      p ← of_option IndexError (paragraphs !! i);
      first ← of_option IndexError (p !! 0);
      match first with
      | [] => Ok (sentence_offset + 1)
      | _ :: _ => Ok (sentence_offset + length p)
      end
  end.

Definition get_sent_indices (par_index : nat) (paragraphs : list (list str))
    (sentence_list : list nat) : result (list nat) :=
  sentence_offset ← sentence_offset_before paragraphs par_index;
  Ok (map (fun j => j + sentence_offset) sentence_list).

(** The body of [for local_sent_index in local_sentence_indices] in
    [add_unaligned_paragraphs]: the sentence entry and the alignment
    entry with its single edit record. *)
Definition unaligned_sentence (kind : edit_kind) (paragraph_index : nat)
    (paragraph_sentence_list : list str) (global_sent_indices : list nat)
    (js : edits_json) (local_sent_index : nat) : result edits_json :=
  global_sent_index ← of_option IndexError (global_sent_indices !! local_sent_index);
  let '(offset_list, s1_index, s2_indices) :=
    match kind with
    | deletion => (sentence_offsets1, Z.of_nat global_sent_index, [(-1)%Z])
    | _ => (sentence_offsets2, (-1)%Z, [Z.of_nat global_sent_index])
    end in
  sentence_text ← of_option IndexError (paragraph_sentence_list !! local_sent_index);
  offset ← of_option IndexError (offset_list !! global_sent_index);
  let entry := SentenceDict sentence_text paragraph_index global_sent_index offset in
  js' ← match kind with
        | deletion =>
            l ← list_assign (file1_sentences js) global_sent_index entry;
            Ok {| file1_sentences := l; file2_sentences := file2_sentences js;
                  alignments := alignments js |}
        | _ =>
            l ← list_assign (file2_sentences js) global_sent_index entry;
            Ok {| file1_sentences := file1_sentences js; file2_sentences := l;
                  alignments := alignments js |}
        end;
  let record :=
    {| edit_type := kind;
       offset1 := match kind with insertion => sentinel | _ => offset end;
       offset2 := match kind with deletion => sentinel | _ => offset end;
       text1 := match kind with insertion => [] | _ => sentence_text end;
       text2 := match kind with deletion => [] | _ => sentence_text end |} in
  Ok {| file1_sentences := file1_sentences js';
        file2_sentences := file2_sentences js';
        alignments := <[s1_index := {| match_ := s2_indices; edits := [record] |}]>
                        (alignments js') |}.

(** The body of [for paragraph_index, paragraph_sentence_list in
    enumerate(paragraphs)]; the state is [text_html],
    [self.edits_json_dict] and [self.num_edits]. *)
Definition unaligned_paragraph (kind : edit_kind) (seen_pars : gset nat)
    (paragraphs : list (list str)) (acc : list str * edits_json * nat)
    (paragraph_index : nat) (paragraph_sentence_list : list str)
  : result (list str * edits_json * nat) :=
  let '(text_html, js, n) := acc in
  let par_text := Py.join [Py.space] paragraph_sentence_list in
  is_unaligned ←
    (if decide (paragraph_index ∈ seen_pars) then Ok false
     else html ← of_option IndexError (text_html !! paragraph_index);
          Ok (match html with [] => true | _ :: _ => false end));
  if is_unaligned : bool then
    let local_sentence_indices := seq 0 (length paragraph_sentence_list) in
    global_sent_indices ← get_sent_indices paragraph_index paragraphs local_sentence_indices;
    _ ← match kind with
        | deletion | insertion => Ok tt
        | _ => Raise AssertionError
        end;
    js' ← for_each (unaligned_sentence kind paragraph_index paragraph_sentence_list
                      global_sent_indices) local_sentence_indices js;
    let paragraph_html := format_edit par_text kind in
    text_html' ← list_assign text_html paragraph_index paragraph_html;
    Ok (text_html', js', n + 1)
  else Ok acc.

Definition add_unaligned_paragraphs (kind : edit_kind) (seen_pars : gset nat)
    (text_html : list str) (paragraphs : list (list str))
    (js : edits_json) (self_num_edits : nat)
  : result (list str * edits_json * nat) :=
  for_enumerate (unaligned_paragraph kind seen_pars paragraphs) 0 paragraphs
    (text_html, js, self_num_edits).

(** The loop of [locate_paragraph]; [i] is the index that [enumerate]
    gives and [end_] the last value of [end] (initially [-1]). *)
Fixpoint locate_loop (paragraph_list : list nat) (i : nat) (end_ : Z)
    (sentence_index : nat) (paragraphs : list (list str)) : result (nat * str) :=
  match paragraph_list with
  | [] => Raise IndexError (* "Sentence index {} out of range" *)
  | par_index :: rest =>
      p ← of_option IndexError (paragraphs !! par_index);
      let begin := match i with 0 => 0%Z | S _ => (end_ + 1)%Z end in
      let end' := match i with
                  | 0 => (Z.of_nat (length p) - 1)%Z (* Last index *)
                  | S _ => (begin + Z.of_nat (length p) - 1)%Z
                  end in
      if decide (begin <= Z.of_nat sentence_index /\ Z.of_nat sentence_index <= end')%Z then
        let sent_index_in_par := Z.to_nat (Z.of_nat sentence_index - begin) in
        sent ← of_option IndexError (p !! sent_index_in_par);
        Ok (par_index, sent)
      else locate_loop rest (S i) end' sentence_index paragraphs
  end.

(** [locate_paragraph(paragraph_list, sentence_index, paragraphs)]:
    given a sentence index, determine which paragraph it belongs to. *)
Definition locate_paragraph (paragraph_list : list nat) (sentence_index : nat)
    (paragraphs : list (list str)) : result (nat * str) :=
  locate_loop paragraph_list 0 (-1)%Z sentence_index paragraphs.

(** [checkConsecutive(l)]:
    [sorted(l) == list(range(min(l), max(l) + 1))]; [min] of an empty
    list raises. *)
Definition checkConsecutive (l : list nat) : result bool :=
  match l with
  | [] => Raise ValueError
  | x :: r =>
      let lo := foldr Nat.min x r in
      let hi := foldr Nat.max x r in
      Ok (bool_decide (merge_sort Nat.le l = seq lo (hi + 1 - lo)))
  end.

(** The argument [edits_json_key]: ["file1_sentences"] or
    ["file2_sentences"]. *)
Inductive sentences_key : Type := file1_sentences_key | file2_sentences_key.

(** [self.edits_json_dict[edits_json_key][sent_index] = entry] *)
Definition set_sentence (key : sentences_key) (js : edits_json) (sent_index : nat)
    (entry : sentence_dict) : result edits_json :=
  match key with
  | file1_sentences_key =>
      l ← list_assign (file1_sentences js) sent_index entry;
      Ok {| file1_sentences := l; file2_sentences := file2_sentences js;
            alignments := alignments js |}
  | file2_sentences_key =>
      l ← list_assign (file2_sentences js) sent_index entry;
      Ok {| file1_sentences := file1_sentences js; file2_sentences := l;
            alignments := alignments js |}
  end.

(** The body of [for i, sentence in enumerate(paragraph)] in
    [add_unaligned_sentences]; the state is [paragraph_html],
    [self.edits_json_dict] and [self.num_edits]. *)
Definition unaligned_sentence_step (kind : edit_kind) (par_index : nat)
    (edits_json_key : sentences_key) (global_offsets : list (Z * Z))
    (sent_indices : list nat) (acc : gmap nat str * edits_json * nat)
    (i : nat) (sentence : str) : result (gmap nat str * edits_json * nat) :=
  let '(paragraph_html, js, n) := acc in
  match paragraph_html !! i with
  | Some _ => Ok acc
  | None =>
      let paragraph_html' := <[i := format_edit sentence kind]> paragraph_html in
      sent_index ← of_option IndexError (sent_indices !! i);
      let alignments1 :=
        match kind with
        | deletion =>
            <[Z.of_nat sent_index := {| match_ := []; edits := [] |}]> (alignments js)
        | _ => alignments js
        end in
      let alignments2 :=
        match kind with
        | insertion =>
            let entry := default {| match_ := []; edits := [] |} (alignments1 !! (-1)%Z) in
            <[(-1)%Z := {| match_ := match_ entry ++ [Z.of_nat sent_index];
                            edits := edits entry |}]> alignments1
        | _ => alignments1
        end in
      offset ← of_option IndexError (global_offsets !! sent_index);
      js' ← set_sentence edits_json_key
              {| file1_sentences := file1_sentences js;
                 file2_sentences := file2_sentences js;
                 alignments := alignments2 |}
              sent_index (SentenceDict sentence par_index sent_index offset);
      Ok (paragraph_html', js', n + 1)
  end.

(** [add_unaligned_sentences]: returns [sentence_dicts] with the updated
    [paragraph_html], [self.edits_json_dict] and [self.num_edits]. *)
Definition add_unaligned_sentences (kind : edit_kind) (paragraph_html : gmap nat str)
    (paragraphs : list (list str)) (par_index : nat) (edits_json_key : sentences_key)
    (global_offsets : list (Z * Z)) (js : edits_json) (self_num_edits : nat)
  : result (list sentence_dict * gmap nat str * edits_json * nat) :=
  let sentence_dicts := [] in
  paragraph ← of_option IndexError (paragraphs !! par_index);
  sent_indices ← get_sent_indices par_index paragraphs (seq 0 (length paragraph));
  '(paragraph_html', js', n') ←
    for_enumerate (unaligned_sentence_step kind par_index edits_json_key global_offsets
                     sent_indices)
      0 paragraph (paragraph_html, js, self_num_edits);
  Ok (sentence_dicts, paragraph_html', js', n').

(** The body of [for i, sent_index in enumerate(sentence_list)] in
    [get_sentence]; the state is [par_index] (rebound when the sentence
    is looked up through [locate_paragraph]), [self.edits_json_dict],
    [par_indices], [sentence_dicts] and [sentence_parts]. *)
Definition get_sentence_step (paragraph_list : list nat) (paragraphs : list (list str))
    (global_offsets : list (Z * Z)) (edits_json_key : sentences_key) (content : str)
    (sent_indices : list nat)
    (acc : nat * edits_json * gset nat * list sentence_dict * list str)
    (i sent_index : nat)
  : result (nat * edits_json * gset nat * list sentence_dict * list str) :=
  let '(par_index, js, par_indices, sentence_dicts, sentence_parts) := acc in
  '(par_index, sent) ←
    match paragraphs !! par_index ≫= (fun p => p !! sent_index) with
    | Some sent => Ok (par_index, sent)
    | None => (* except IndexError *)
        locate_paragraph paragraph_list sent_index paragraphs
    end;
  sent_index ← of_option IndexError (sent_indices !! i); (* Global sentence index *)
  offset ← of_option IndexError (global_offsets !! sent_index);
  let sent := Py.slice content offset.1 offset.2 in
  let sentence_dict := SentenceDict sent par_index sent_index offset in
  js' ← set_sentence edits_json_key js sent_index sentence_dict;
  Ok (par_index, js', {[par_index]} ∪ par_indices,
      sentence_dicts ++ [sentence_dict], sentence_parts ++ [sent]).

(** [get_sentence]; the result [None] stands for the tuple of five
    [None]s, and the updated [self.edits_json_dict] comes with it. *)
Definition get_sentence (par_index : nat) (paragraph_list sentence_list : list nat)
    (paragraphs : list (list str)) (paragraph_html : gmap nat str)
    (global_offsets : list (Z * Z)) (edits_json_key : sentences_key) (content : str)
    (js : edits_json)
  : result (option (str * list nat * gset nat * list nat * list sentence_dict)
            * edits_json) :=
  let sentence_list :=
    List.filter (fun j => bool_decide (paragraph_html !! j = None)) sentence_list in
  match sentence_list with
  | [] => Ok (None, js)
  | x :: r =>
      consecutive ← checkConsecutive sentence_list;
      let sentence_list :=
        if consecutive : bool then sentence_list
        else (* Then get the full range *)
          let lo := foldr Nat.min x r in
          let hi := foldr Nat.max x r in
          seq lo (hi + 1 - lo) in
      sent_indices ← get_sent_indices par_index paragraphs sentence_list;
      '(_, js', par_indices, sentence_dicts, sentence_parts) ←
        for_enumerate (get_sentence_step paragraph_list paragraphs global_offsets
                         edits_json_key content sent_indices)
          0 sentence_list (par_index, js, ∅, [], []);
      let sentence := Py.join [Py.space] sentence_parts in
      Ok (Some (sentence, sentence_list, par_indices, sent_indices, sentence_dicts), js')
  end.

(** [add_aligned_paragraph(paragraph_dict, found_indices, full_html)];
    [full_html] is [self.html1] or [self.html2], a list of strings, so
    the test [html_index not in full_html] compares an integer with
    strings and always holds. *)
Definition add_aligned_paragraph (paragraph_dict : gmap nat str)
    (found_indices : option (gset nat)) (full_html : list str) : result (list str) :=
  let paragraph_html :=
    Py.join [Py.space]
      (map (fun k => default [] (paragraph_dict !! k))
           (merge_sort Nat.le (map fst (map_to_list paragraph_dict)))) in
  match found_indices with
  | None => Ok full_html
  | Some found =>
      html_index ← match elements found with
                   | [] => Raise ValueError
                   | x :: r => Ok (foldr Nat.min x r)
                   end;
      list_assign full_html html_index paragraph_html
  end.

(** [itertools.zip_longest] with the fill value [None]. *)
Fixpoint zip_longest {A B} (l1 : list A) (l2 : list B) : list (option A * option B) :=
  match l1, l2 with
  | [], [] => []
  | a :: r1, [] => (Some a, None) :: zip_longest r1 []
  | [], b :: r2 => (None, Some b) :: map (fun b => (None, Some b)) r2
  | a :: r1, b :: r2 => (Some a, Some b) :: zip_longest r1 r2
  end.

(** The attributes of an [EditsHtml] object that [get_diff_html]
    updates: [self.html1], [self.html2], [self.edits_json_dict] and
    [self.num_edits]. *)
Record editor : Type := {
  ed_html1 : list str;
  ed_html2 : list str;
  ed_json : edits_json;
  ed_num_edits : nat
}.

(** The [offset] of an entry of [file1_sentences] / [file2_sentences]. *)
Definition dict_offset (d : sentence_dict) : Z * Z :=
  match d with
  | dummy_dict => sentinel
  | SentenceDict _ _ _ offset => offset
  end.

(** [self.p1s], [self.p2s]. *)
Variables p1s p2s : list (list str).
(** The tokenizer and the diff that [diff_wordMode] calls. *)
Variable nlp : str -> list word.
Variable diff_main : list nat -> list nat -> list (op * list nat).
(** [self.format_hover(text, index)], the index being
    ["{aligned_par_id}-{aligned_sent_id}"]. *)
Variable format_hover : str -> nat * nat -> str.
(** [uuid.uuid4()]: the identifier drawn for pair [k] of paragraph
    alignment [i]. *)
Variable uuid4 : nat -> nat -> nat.

(** The body of [for aligned_sent_id, el in
    enumerate(sent_alignments[i])]; the state is [par1_html],
    [par2_html], [found_p1_indices], [found_p2_indices] and the
    object. *)
Definition aligned_sentence_step (aligned_par_id : nat)
    (orig_p1_index orig_p2_index : nat) (p1_list p2_list : list nat)
    (acc : gmap nat str * gmap nat str * option (gset nat) * option (gset nat) * editor)
    (aligned_sent_id : nat) (el : option (list nat * list nat))
  : result (gmap nat str * gmap nat str * option (gset nat) * option (gset nat) * editor) :=
  let '(par1_html, par2_html, found_p1_indices, found_p2_indices, ed) := acc in
  match el with
  | None => Ok acc (* if not el: continue *)
  | Some (s1_list, s2_list) =>
      '(r1, js) ← get_sentence orig_p1_index p1_list s1_list p1s par1_html
                    sentence_offsets1 file1_sentences_key content1 (ed_json ed);
      '(r2, js) ← get_sentence orig_p2_index p2_list s2_list p2s par2_html
                    sentence_offsets2 file2_sentences_key content2 js;
      let found_p1_indices := (fun r => r.1.1.2) <$> r1 in
      let found_p2_indices := (fun r => r.1.1.2) <$> r2 in
      match r1, r2 with
      | Some (s1, s1_list, _, s1_indices, s1_dicts),
        Some (s2, s2_list, _, s2_indices, s2_dicts) =>
          '(diff, char_diff, (offsets1, offsets2)) ← Diff.diff_wordMode nlp diff_main s1 s2;
          d1 ← of_option IndexError (s1_dicts !! 0);
          let token_offsets1 := get_token_offsets offsets1 (dict_offset d1).1 in
          d2 ← of_option IndexError (s2_dicts !! 0);
          let token_offsets2 := get_token_offsets offsets2 (dict_offset d2).1 in
          '(s1_html, s2_html, edit_dicts, n) ←
            handle_diff diff char_diff token_offsets1 token_offsets2 (ed_num_edits ed);
          first1 ← of_option IndexError (s1_list !! 0);
          let par1_html := <[first1 := format_hover s1_html (aligned_par_id, aligned_sent_id)]>
                             par1_html in
          first2 ← of_option IndexError (s2_list !! 0);
          let par2_html := <[first2 := format_hover s2_html (aligned_par_id, aligned_sent_id)]>
                             par2_html in
          (* Add sentence indices that we've accounted for to paragraph dict *)
          let par1_html := fold_left (fun m j => <[j := []]> m) (drop 1 s1_list) par1_html in
          let par2_html := fold_left (fun m j => <[j := []]> m) (drop 1 s2_list) par2_html in
          (* Now add the alignments *)
          let alignments' :=
            fold_left (fun m s1_index =>
                         <[Z.of_nat s1_index := {| match_ := map Z.of_nat s2_indices;
                                                   edits := edit_dicts |}]> m)
                      s1_indices (alignments js) in
          Ok (par1_html, par2_html, found_p1_indices, found_p2_indices,
              {| ed_html1 := ed_html1 ed; ed_html2 := ed_html2 ed;
                 ed_json := {| file1_sentences := file1_sentences js;
                               file2_sentences := file2_sentences js;
                               alignments := alignments' |};
                 ed_num_edits := n |})
      | _, _ => (* if (s1 is None) or (s2 is None): continue *)
          Ok (par1_html, par2_html, found_p1_indices, found_p2_indices,
              {| ed_html1 := ed_html1 ed; ed_html2 := ed_html2 ed;
                 ed_json := js; ed_num_edits := ed_num_edits ed |})
      end
  end.

(** [if found_indices is not None and orig_index in found_indices:
    self.add_unaligned_sentences(...)] *)
Definition add_unaligned_if_found (kind : edit_kind) (paragraph_html : gmap nat str)
    (paragraphs : list (list str)) (orig_index : nat) (found_indices : option (gset nat))
    (edits_json_key : sentences_key) (global_offsets : list (Z * Z))
    (js : edits_json) (self_num_edits : nat)
  : result (gmap nat str * edits_json * nat) :=
  match found_indices with
  | Some found =>
      if decide (orig_index ∈ found) then
        '(_, paragraph_html', js', n') ←
          add_unaligned_sentences kind paragraph_html paragraphs orig_index
            edits_json_key global_offsets js self_num_edits;
        Ok (paragraph_html', js', n')
      else Ok (paragraph_html, js, self_num_edits)
  | None => Ok (paragraph_html, js, self_num_edits)
  end.

(** The body of [for p1_index, p2_index in zip_longest(p1_list,
    p2_list)]; the state is [seen_p1s], [seen_p2s] and the object. *)
Definition aligned_pair_step (sent_alignments : list (list (option (list nat * list nat))))
    (i : nat) (p1_list p2_list : list nat)
    (acc : gset nat * gset nat * editor) (k : nat) (pair : option nat * option nat)
  : result (gset nat * gset nat * editor) :=
  let '(seen_p1s, seen_p2s, ed) := acc in
  match pair with
  | (Some p1_index, Some p2_index) =>
      let orig_p1_index := p1_index in
      let orig_p2_index := p2_index in
      let aligned_par_id := uuid4 i k in
      let seen_p1s := seen_p1s ∪ list_to_set p1_list in
      let seen_p2s := seen_p2s ∪ list_to_set p2_list in
      sents ← of_option IndexError (sent_alignments !! i);
      '(par1_html, par2_html, found_p1_indices, found_p2_indices, ed) ←
        for_enumerate (aligned_sentence_step aligned_par_id orig_p1_index orig_p2_index
                         p1_list p2_list)
          0 sents (∅, ∅, None, None, ed);
      '(par1_html, js, n) ←
        add_unaligned_if_found deletion par1_html p1s orig_p1_index found_p1_indices
          file1_sentences_key sentence_offsets1 (ed_json ed) (ed_num_edits ed);
      '(par2_html, js, n) ←
        add_unaligned_if_found insertion par2_html p2s orig_p2_index found_p2_indices
          file2_sentences_key sentence_offsets2 js n;
      html1' ← add_aligned_paragraph par1_html found_p1_indices (ed_html1 ed);
      html2' ← add_aligned_paragraph par2_html found_p2_indices (ed_html2 ed);
      Ok (seen_p1s, seen_p2s,
          {| ed_html1 := html1'; ed_html2 := html2'; ed_json := js; ed_num_edits := n |})
  | _ => Ok acc (* if (p1_index is None) or (p2_index is None): continue *)
  end.

(** [get_diff_html(par_alignment, sent_alignments)] *)
Definition get_diff_html (par_alignment : list (list nat * list nat))
    (sent_alignments : list (list (option (list nat * list nat)))) (ed : editor)
  : result editor :=
  '(seen_p1s, seen_p2s, ed) ←
    for_enumerate (fun acc i '(p1_list, p2_list) =>
                     (* For each aligned paragraph *)
                     for_enumerate (aligned_pair_step sent_alignments i p1_list p2_list)
                       0 (zip_longest p1_list p2_list) acc)
      0 par_alignment (∅, ∅, ed);
  '(html1', js, n) ← add_unaligned_paragraphs deletion seen_p1s (ed_html1 ed) p1s
                       (ed_json ed) (ed_num_edits ed);
  '(html2', js, n) ← add_unaligned_paragraphs insertion seen_p2s (ed_html2 ed) p2s js n;
  Ok {| ed_html1 := html1'; ed_html2 := html2'; ed_json := js; ed_num_edits := n |}.

End WithSelf.
End Edits.

(** ** Document offsets and loading ([aligned_text.py]) *)

(** The file system, as far as the package touches it: the content of
    the regular files, by the file that a path names, and the log of
    what was done to them and asked of the external aligner, in program
    order. *)
Inductive event : Type :=
| EvAppend (file : str) (data : str)
| EvWrite (file : str)
| EvRead (file : str)
| EvMakedirs (path : str)
| EvTfidf (paths : list str) (stop_words : str)
| EvAlignParagraphs
| EvAlignSentences.

Record world : Type := {
  files : gmap str str;
  trace : list event
}.

Inductive open_mode : Type := ModeRead | ModeAppend | ModeWrite.

(** What a run meets in the operating system besides the content of
    the files.
    - [realpath]: the file that a path names ([os.path.realpath]); two
      paths name the same file when they resolve to the same one.
    - [open_error]: what [open(path, mode)] raises, if anything, for a
      reason other than a file to read that does not exist: a
      directory in the place of the file, a directory that is missing,
      a permission.
    - [isdir]: the directories that exist.
    - [makedirs_error]: what [os.makedirs(path)] raises, if anything.
    - [path_join], [dirname], [stem]: [os.path.join] of two parts,
      [os.path.dirname], and
      [os.path.splitext(os.path.basename(path))[0]]. *)
Record os_env : Type := {
  realpath : str -> str;
  open_error : open_mode -> str -> option exn;
  isdir : str -> bool;
  makedirs_error : str -> option exn;
  path_join : str -> str -> str;
  dirname : str -> str;
  stem : str -> str
}.

(** Computations that read and write the world and may raise; the
    world survives an exception. *)
Definition io (A : Type) : Type := world -> result A * world.

Definition io_ret {A} (a : A) : io A := fun w => (Ok a, w).

Definition io_bind {A B} (m : io A) (f : A -> io B) : io B :=
  fun w =>
    match m w with
    | (Ok a, w') => f a w'
    | (Raise e, w') => (Raise e, w')
    | (OutOfFuel, w') => (OutOfFuel, w')
    end.

Definition io_lift {A} (r : result A) : io A := fun w => (r, w).

Notation "'let*' x ':=' m 'in' k" := (io_bind m (fun x => k))
  (at level 10, x pattern, k at level 200).

Definition log (e : event) : io unit :=
  fun w => (Ok tt, {| files := files w; trace := trace w ++ [e] |}).

(** [open(path, mode)], as far as it can fail without a look at the
    files. *)
Definition open_ (env : os_env) (mode : open_mode) (path : str) : io unit :=
  io_lift (match open_error env mode path with
           | Some e => Raise e
           | None => Ok tt
           end).

(** [with open(path, "a") as f: f.write(data)]: the file is created
    when it does not exist. *)
Definition append_file (env : os_env) (path data : str) : io unit :=
  (let* _ := open_ env ModeAppend path in
   fun w =>
     let file := realpath env path in
     (Ok tt,
      {| files := <[file := default [] (files w !! file) ++ data]> (files w);
         trace := trace w ++ [EvAppend file data] |})).

(** [with open(path) as infile: infile.read()] *)
Definition read_file (env : os_env) (path : str) : io str :=
  (let* _ := open_ env ModeRead path in
   fun w =>
     let file := realpath env path in
     (of_option FileNotFoundError (files w !! file),
      {| files := files w; trace := trace w ++ [EvRead file] |})).

(** [with open(path, "w") as outfile: outfile.write(data)] *)
Definition write_file (env : os_env) (path data : str) : io unit :=
  (let* _ := open_ env ModeWrite path in
   fun w =>
     let file := realpath env path in
     (Ok tt, {| files := <[file := data]> (files w); trace := trace w ++ [EvWrite file] |})).

(** [os.path.exists(path)]: a regular file or a directory. *)
Definition path_exists (env : os_env) (w : world) (path : str) : bool :=
  bool_decide (is_Some (files w !! realpath env path)) || isdir env path.

(** [os.makedirs(path)]: no regular file is changed. *)
Definition makedirs (env : os_env) (path : str) : io unit :=
  match makedirs_error env path with
  | Some e => io_lift (Raise e)
  | None => log (EvMakedirs path)
  end.

(** ** The configuration ([utils.py]) *)

(** A value as [json.load] returns it.  The value of a number is not
    looked at. *)
#[warnings="-register-all"] Inductive json_value : Type :=
| JNull
| JBool (b : bool)
| JNumber
| JString (s : str)
| JArray (items : list json_value)
| JObject (fields : list (str * json_value)).

Module Config.

(** [p in s] for two texts. *)
Fixpoint substring (p s : str) : bool :=
  Py.starts_with p s ||
  match s with
  | [] => false
  | _ :: r => substring p r
  end.

(** The dict of a JSON object: of a repeated key the last entry
    counts. *)
Definition dict_get (fields : list (str * json_value)) (key : str) : option json_value :=
  snd <$> last (List.filter (fun kv => bool_decide (kv.1 = key)) fields).

(** [name in value], for a text [name]. *)
Definition contains (value : json_value) (name : str) : result bool :=
  match value with
  | JObject fields => Ok (bool_decide (is_Some (dict_get fields name)))
  | JArray items =>
      Ok (existsb (fun item => match item with
                               | JString s => bool_decide (s = name)
                               | _ => false
                               end) items)
  | JString s => Ok (substring name s)
  | JNull | JBool _ | JNumber => Raise TypeError
  end.

(** [value[key]], for a text [key]. *)
Definition getitem (value : json_value) (key : str) : result json_value :=
  match value with
  | JObject fields => of_option KeyError (dict_get fields key)
  | _ => Raise TypeError
  end.

Section WithOs.
Variable env : os_env.
(** [json.load] on the text of a file; a text that is not JSON is a
    [ValueError]. *)
Variable json_load : str -> result json_value.

(** [os.path.join(a, b)]: both parts have to be texts. *)
Definition join (a b : json_value) : result str :=
  match a, b with
  | JString a, JString b => Ok (path_join env a b)
  | _, _ => Raise TypeError
  end.

(** [Config.__init__(config_json)]; the result is [self.config].
    [open(None)] is a [TypeError]. *)
Definition __init__ (config_json : option str) : io json_value :=
  match config_json with
  | None => io_lift (Raise TypeError)
  | Some path =>
      let* raw := read_file env path in
      io_lift (json_load raw)
  end.

(** [Config.__getitem__(name)].  The module defines no [DIRS], so for
    a name that is not in the configuration the test [name in DIRS]
    raises [NameError]; [os.makedirs] is never reached. *)
Definition __getitem__ (config : json_value) (name : str) : result str :=
  has ← contains config name;
  if has : bool then
    root ← getitem config (Py.lit "root");
    value ← getitem config name;
    join root value
  else
    root ← getitem config (Py.lit "root");
    _ ← join root (JString name);
    Raise NameError.

End WithOs.
End Config.

(** The attributes of an [AlignedText] object that the package reads. *)
Record aligned_text : Type := {
  file1 : str;
  file2 : str;
  content1 : str;
  p1s : list (list str);
  sentence_offsets1 : gmap nat (list (Z * Z));
  content2 : str;
  p2s : list (list str);
  sentence_offsets2 : gmap nat (list (Z * Z));
  global_offsets1 : list (Z * Z);
  global_offsets2 : list (Z * Z);
  par_alignment : list (list nat * list nat);
  sent_alignments : list (list (list nat * list nat))
}.

Module AlignedText.

(** One iteration of the [for i, paragraph in enumerate(paragraphs)]
    loop of [get_sentence_offsets]; the state is [offsets] and
    [curr_offset]. *)
Definition offsets_step (sentence_offsets : gmap nat (list (Z * Z)))
    (acc : list (Z * Z) * Z) (i : nat) (paragraph : str)
  : result (list (Z * Z) * Z) :=
  let '(offsets, curr_offset) := acc in
  match sentence_offsets !! i with
  | Some offset_list =>
      let offsets' :=
        offsets ++ map (fun '(begin, end_) =>
                          ((begin + curr_offset)%Z, (end_ + curr_offset)%Z))
                       offset_list in
      last_span ← of_option IndexError (last offset_list);
      (* Count the newline *)
      let curr_offset' := (curr_offset + (last_span.2 + 1))%Z in
      match paragraph with
      | _ :: _ =>
          if Py.endswith Py.space paragraph then
            (* Count the trailing spaces *)
            Ok (offsets',
                (curr_offset'
                 + (Z.of_nat (length paragraph)
                    - Z.of_nat (length (Py.strip paragraph))))%Z)
          else Ok (offsets', curr_offset')
      | [] => Ok (offsets', curr_offset')
      end
  | None =>
      (* Empty paragraph *)
      Ok (offsets ++ [Edits.sentinel], (curr_offset + 1)%Z)
  end.

(** The body of [get_sentence_offsets], once [content] and
    [sentence_offsets] have been selected. *)
Definition sentence_offsets_of (content : str)
    (sentence_offsets : gmap nat (list (Z * Z))) : result (list (Z * Z)) :=
  let paragraphs := Py.split Py.newline content in
  '(offsets, _) ← for_enumerate (offsets_step sentence_offsets) 0 paragraphs ([], 0%Z);
  Ok offsets.

(** [get_sentence_offsets(file_num)] on the attributes read so far.
    Any [file_num] other than 1 or 2 leaves [paragraphs] unbound. *)
Definition get_sentence_offsets
    (content1 content2 : str)
    (sentence_offsets1 sentence_offsets2 : gmap nat (list (Z * Z)))
    (file_num : nat) : result (list (Z * Z)) :=
  match file_num with
  | 1 => sentence_offsets_of content1 sentence_offsets1
  | 2 => sentence_offsets_of content2 sentence_offsets2
  | _ => Raise UnboundLocalError
  end.

Section WithCollaborators.

(** The operating system of the run. *)
Variable env : os_env.

(** The sentences of a paragraph as spaCy segments it: for each
    sentence [s] of [nlp(paragraph).sents], its normalized text and
    [(start_index, end_index)]. *)
Variable sent_tuples : str -> list (str * (Z * Z)).

(** One iteration of the loop of [sentence_tokenize]; unpacking
    [zip( *sent_tuples)] fails when there is no sentence. *)
Definition tokenize_step (acc : list (list str) * gmap nat (list (Z * Z)))
    (i : nat) (paragraph : str)
  : result (list (list str) * gmap nat (list (Z * Z))) :=
  let '(paragraphs, offsets) := acc in
  match Py.strip paragraph with
  | _ :: _ =>
      match sent_tuples paragraph with
      | [] => Raise ValueError
      | (_ :: _) as tuples =>
          Ok (paragraphs ++ [map fst tuples], <[i := map snd tuples]> offsets)
      end
  | [] => Ok (paragraphs ++ [[paragraph]], offsets)
  end.

Definition sentence_tokenize (content : str)
  : result (str * list (list str) * gmap nat (list (Z * Z))) :=
  let orig_paragraphs := Py.split Py.newline content in
  '(paragraphs, offsets) ← for_enumerate tokenize_step 0 orig_paragraphs ([], ∅);
  Ok (content, paragraphs, offsets).

(** [unicode_normalize], textacy's [preproc] pipeline, and the
    re-segmentation applied to files whose name starts with ["np"]. *)
Variables unicode_normalize preproc np_resegment : str -> str.

(** [Path(file_path).name]: what follows the last ["/"]. *)
Fixpoint path_name_from (cur : str) (path : str) : str :=
  match path with
  | [] => rev cur
  | c :: rest =>
      if Ascii.eqb c "/" then path_name_from [] rest
      else path_name_from (c :: cur) rest
  end.

Definition path_name (path : str) : str := path_name_from [] path.

Definition read_paragraphs (file_path : str)
  : io (str * list (list str) * gmap nat (list (Z * Z))) :=
  (let* raw := read_file env file_path in
   let content := Py.strip (preproc (unicode_normalize raw)) in
   let content :=
     if Py.starts_with (Py.lit "np") (path_name file_path)
     then np_resegment content else content in
   io_lift (sentence_tokenize content)).

(** The MASSAlign collaborators: the TF-IDF model built from the two
    files and the stop-word list, and the paragraph and sentence
    aligners.  They read the files and never write. *)
Variable tfidf_model : Type.
Variable aligned_pars : Type.
Variable TFIDFModel : gmap str str -> list str -> str -> result tfidf_model.
Variable getParagraphAlignments :
  tfidf_model -> list (list str) -> list (list str) -> Z * Z (* min_par_sim, as a ratio *) ->
  result (list (list nat * list nat) * list aligned_pars).
Variable getSentenceAlignments :
  tfidf_model -> aligned_pars -> Z * Z -> Z * Z ->
  result (list (list nat * list nat)).

Definition align_pars (tfidf : tfidf_model) (p1s p2s : list (list str))
    (min_par_sim : Z * Z)
  : io (list (list nat * list nat) * list aligned_pars) :=
  (let* _ := log EvAlignParagraphs in
   io_lift (getParagraphAlignments tfidf p1s p2s min_par_sim)).

Definition align_sents (tfidf : tfidf_model) (pars : list aligned_pars)
    (min_sent_sim sim_slack : Z * Z)
  : io (list (list (list nat * list nat))) :=
  (let* _ := log EvAlignSentences in
   io_lift (traverse (fun a => getSentenceAlignments tfidf a min_sent_sim sim_slack) pars)).

(** [AlignedText.__init__]; [visualize] is left at its default, and
    [in_app] and [timeout] are only stored. *)
Definition __init__ (file1 file2 stop_words : str)
    (min_par_sim min_sent_sim sim_slack : Z * Z) : io aligned_text :=
  ((* When there are only single paragraphs, this causes a bug in the
      TF-IDF calculation. Solve this by appending a newline to file1. *)
   let* _ := append_file env file1 [Py.newline] in
   let* (content1, p1s, sentence_offsets1) := read_paragraphs file1 in
   let* (content2, p2s, sentence_offsets2) := read_paragraphs file2 in
   let* global_offsets1 := io_lift (get_sentence_offsets content1 content2
                                 sentence_offsets1 sentence_offsets2 1) in
   let* global_offsets2 := io_lift (get_sentence_offsets content1 content2
                                 sentence_offsets1 sentence_offsets2 2) in
   let* _ := log (EvTfidf [file1; file2] stop_words) in
   let* tfidf := (fun w => (TFIDFModel (files w) [file1; file2] stop_words, w)) in
   let* (par_alignment, pars) := align_pars tfidf p1s p2s min_par_sim in
   let* sent_alignments := align_sents tfidf pars min_sent_sim sim_slack in
   io_ret {| file1 := file1; file2 := file2;
             content1 := content1; p1s := p1s; sentence_offsets1 := sentence_offsets1;
             content2 := content2; p2s := p2s; sentence_offsets2 := sentence_offsets2;
             global_offsets1 := global_offsets1; global_offsets2 := global_offsets2;
             par_alignment := par_alignment; sent_alignments := sent_alignments |}).

(** *** [create_html_file] ([get_single_output.py]) *)

Variable json_load : str -> result json_value.

(** [EditsHtml(aligned_text, templates)], the object that
    [EditsObject.__init__] below fills in; building it loads the
    templates and can raise.  [get_html_text(header1, header2)]
    renders the page from the object, and [json.dump] gives the text
    of [edits_json_dict].  None of them writes. *)
Variable EditsHtml : aligned_text -> str -> result Edits.editor.
Variable get_html_text : Edits.editor -> str -> str -> result str.
Variable json_dump : edits_json -> str.
(** The text of the legend, lines 49 to 55. *)
Variable LEGEND : str.
(** [str] of a similarity threshold. *)
Variable float_str : Z * Z -> str.

(** Lines 28 and 29: [if config is None: config = Config(config_json)].
    Of a [config] that the caller passes only [config[name]] is used;
    the result stands for the object by its [config[name]]. *)
Definition the_config (config : option (str -> result str)) (config_json : option str)
  : io (str -> result str) :=
  match config with
  | None =>
      let* loaded := Config.__init__ env json_load config_json in
      io_ret (Config.__getitem__ env loaded)
  | Some given => io_ret given
  end.

(** Lines 44 to 82: what [create_html_file] does with the
    [AlignedText] object. *)
Definition render_and_write (file1 file2 : str)
    (min_par_sim min_sent_sim sim_slack : Z * Z) (header1 header2 : str)
    (output_prefix : option str) (config : str -> result str)
    (in_app : bool) (output_dir : option str) (aligned : aligned_text)
  : io (option str) :=
  (let* templates := io_lift (config (Py.lit "templates")) in
   let* edits_html := io_lift (EditsHtml aligned templates) in
   if decide (Edits.ed_num_edits edits_html = 0) then io_ret None
   else
     let* page := io_lift (get_html_text edits_html header1 header2) in
     let html_text := page ++ LEGEND in
     let* output_dir :=
       (match output_dir, output_prefix with
        | Some dir, _ => io_ret dir
        | None, Some prefix => io_ret (dirname env prefix)
        | None, None => io_lift (Raise TypeError) (* os.path.dirname(None) *)
        end) in
     let* _ :=
       (match output_dir with
        | [] => io_ret tt
        | _ :: _ =>
            fun w =>
              if path_exists env w output_dir then (Ok tt, w)
              else makedirs env output_dir w
        end) in
     let output_prefix :=
       match output_prefix with
       | Some prefix => prefix
       | None =>
           Py.join (Py.lit "-")
             [stem env file1; stem env file2;
              float_str min_par_sim; float_str min_sent_sim; float_str sim_slack]
       end in
     let html_output_path := path_join env output_dir (output_prefix ++ Py.lit ".html") in
     let* _ := write_file env html_output_path html_text in
     let* _ :=
       (if in_app then io_ret tt
        else
          let json_output_path :=
            path_join env output_dir (output_prefix ++ Py.lit ".json") in
          write_file env json_output_path (json_dump (Edits.ed_json edits_html))) in
     io_ret (Some html_text)).

(** [create_html_file(file1, file2, min_par_sim, min_sent_sim,
    sim_slack, header1, header2, output_prefix, config, config_json,
    in_app, output_dir)] *)
Definition create_html_file (file1 file2 : str)
    (min_par_sim min_sent_sim sim_slack : Z * Z) (header1 header2 : str)
    (output_prefix : option str) (config : option (str -> result str))
    (config_json : option str) (in_app : bool) (output_dir : option str)
  : io (option str) :=
  (let* config := the_config config config_json in
   let* both := (fun w => (Ok (path_exists env w file1 && path_exists env w file2), w)) in
   if negb both then io_ret None
   else
     let* stop_words := io_lift (config (Py.lit "stop_words")) in
     let* aligned := __init__ file1 file2 stop_words min_par_sim min_sent_sim sim_slack in
     render_and_write file1 file2 min_par_sim min_sent_sim sim_slack header1 header2
       output_prefix config in_app output_dir aligned).

End WithCollaborators.
End AlignedText.

Module EditsObject.
Section WithTemplates.

Variable format_edit : str -> edit_kind -> str.
Variable format_hover : str -> nat * nat -> str.
Variable uuid4 : nat -> nat -> nat.
Variable nlp : str -> list word.
Variable diff_main : list nat -> list nat -> list (op * list nat).

(** [EditsHtml.__init__(aligned_text, templates_dir)]: the attributes
    are set up from the [AlignedText] object and [get_diff_html] fills
    them in. *)
Definition __init__ (a : aligned_text) : result Edits.editor :=
  let text1 := concat (p1s a) in
  let text2 := concat (p2s a) in
  Edits.get_diff_html format_edit (content1 a) (content2 a)
    (global_offsets1 a) (global_offsets2 a) (p1s a) (p2s a)
    nlp diff_main format_hover uuid4
    (par_alignment a) (map (map Some) (sent_alignments a))
    {| Edits.ed_html1 := replicate (length (p1s a)) []; (* List of HTML formatted paragraphs *)
       Edits.ed_html2 := replicate (length (p2s a)) [];
       Edits.ed_json := {| file1_sentences := replicate (length text1) dummy_dict;
                           file2_sentences := replicate (length text2) dummy_dict;
                           alignments := ∅ |};
       Edits.ed_num_edits := 0 |}.

End WithTemplates.
End EditsObject.

(** A whitespace tokenizer and a prefix/suffix diff, used to run the
    definitions on concrete inputs. *)
Module Sample.

Fixpoint words_from (idx : nat) (cur : str) (s : str) : list word :=
  match s with
  | [] =>
      match cur with
      | [] => []
      | _ => [{| w_text := rev cur; w_idx := idx - length cur |}]
      end
  | c :: r =>
      if Py.isspace c then
        match cur with
        | [] => words_from (S idx) [] r
        | _ => {| w_text := rev cur; w_idx := idx - length cur |}
                 :: words_from (S idx) [] r
        end
      else words_from (S idx) (c :: cur) r
  end.

Definition nlp (line : str) : list word := words_from 0 [] line.

Fixpoint common_prefix (a b : list nat) : list nat * (list nat * list nat) :=
  match a, b with
  | x :: a', y :: b' =>
      if decide (x = y) then
        let '(p, rest) := common_prefix a' b' in (x :: p, rest)
      else ([], (a, b))
  | _, _ => ([], (a, b))
  end.

Definition run (o : op) (cs : list nat) : list (op * list nat) :=
  match cs with
  | [] => []
  | _ => [(o, cs)]
  end.

(** Common prefix, common suffix, and one delete/insert pair for the
    middle. *)
Definition diff_main (a b : list nat) : list (op * list nat) :=
  let '(p, (a1, b1)) := common_prefix a b in
  let '(s, (a2, b2)) := common_prefix (rev a1) (rev b1) in
  run DIFF_EQUAL p ++ run DIFF_DELETE (rev a2) ++ run DIFF_INSERT (rev b2)
    ++ run DIFF_EQUAL (rev s).

(** A segmenter that takes every paragraph as one sentence, from its
    first to its last non-blank character. *)
Definition sent_tuples (paragraph : str) : list (str * (Z * Z)) :=
  match Py.strip paragraph with
  | [] => []
  | (_ :: _) as s =>
      let start := length paragraph - length (Py.lstrip paragraph) in
      [(s, (Z.of_nat start, Z.of_nat (start + length s)))]
  end.

(** Collaborators that align nothing and find no edit. *)
Definition TFIDFModel (fs : gmap str str) (paths : list str) (stop_words : str)
  : result unit := Ok tt.

Definition getParagraphAlignments (tfidf : unit) (p1s p2s : list (list str))
    (min_par_sim : Z * Z) : result (list (list nat * list nat) * list unit) :=
  Ok ([], []).

Definition getSentenceAlignments (tfidf : unit) (a : unit) (min_sent_sim sim_slack : Z * Z)
  : result (list (list nat * list nat)) := Ok [].

Definition no_edits : Edits.editor :=
  {| Edits.ed_html1 := []; Edits.ed_html2 := [];
     Edits.ed_json := {| file1_sentences := []; file2_sentences := []; alignments := ∅ |};
     Edits.ed_num_edits := 0 |}.

Definition EditsHtml (a : aligned_text) (templates : str) : result Edits.editor :=
  Ok no_edits.

Definition get_html_text (ed : Edits.editor) (header1 header2 : str) : result str :=
  Ok (Py.lit "<html>").

Definition json_dump (js : edits_json) : str := Py.lit "{}".

Definition LEGEND : str := Py.lit "<div>".

Definition float_str (x : Z * Z) : str := Py.lit "0.5".

(** An operating system in which a leading [./] is the only way to
    name a file twice, every open succeeds and no directory exists
    yet. *)
Definition env : os_env :=
  {| realpath := fun path =>
       if Py.starts_with (Py.lit "./") path then drop 2 path else path;
     open_error := fun _ _ => None;
     isdir := fun _ => false;
     makedirs_error := fun _ => None;
     path_join := fun a b => match a with [] => b | _ => a ++ Py.lit "/" ++ b end;
     dirname := fun _ => [];
     stem := fun path => path |}.

(** A configuration with all its entries, and a parser that gives it
    for every text but [{}]. *)
Definition settings : json_value :=
  JObject [(Py.lit "root", JString (Py.lit "cfg"));
           (Py.lit "stop_words", JString (Py.lit "stop_words.txt"));
           (Py.lit "templates", JString (Py.lit "templates"))].

Definition json_load (raw : str) : result json_value :=
  if decide (raw = Py.lit "{}") then Ok (JObject []) else Ok settings.

Definition init (file1 file2 : str) : io aligned_text :=
  AlignedText.__init__ env sent_tuples id id id unit unit TFIDFModel getParagraphAlignments
    getSentenceAlignments file1 file2 (Py.lit "stop_words.txt") (3, 10)%Z (4, 10)%Z (5, 100)%Z.

(** A run with the command line's arguments: the configuration file
    and the output directory. *)
Definition command (EditsHtml : aligned_text -> str -> result Edits.editor)
    (file1 file2 config_json output_dir : str) : io (option str) :=
  AlignedText.create_html_file env sent_tuples id id id unit unit TFIDFModel
    getParagraphAlignments getSentenceAlignments json_load EditsHtml get_html_text
    json_dump LEGEND float_str file1 file2 (3, 10)%Z (4, 10)%Z (5, 100)%Z [] []
    None None (Some config_json) false (Some output_dir).

(** Two one-line files, a configuration file and an empty one. *)
Definition world0 : world :=
  {| files := {[ Py.lit "a.txt" := Py.lit "One line."; Py.lit "b.txt" := Py.lit "One line!";
                 Py.lit "config.json" := Py.lit "{...}";
                 Py.lit "empty.json" := Py.lit "{}" ]};
     trace := [] |}.

(** A template renderer that tags the text with the first letter of
    the edit type. *)
Definition format_edit (text : str) (kind : edit_kind) : str :=
  match kind with
  | same => text
  | deletion => Py.lit "-" ++ text
  | insertion => Py.lit "+" ++ text
  | substitution => Py.lit "~" ++ text
  end.

End Sample.

(** * Specification

    The notions in which the properties are stated. *)

Module DiffSpec.

(** Decoding a symbol string by table lookup. *)
Definition decode (la : list str) (cs : list nat) : str :=
  concat (map (fun c => default [] (la !! c)) cs).

Definition in_range (la : list str) (cs : list nat) : Prop :=
  Forall (fun c => c < length la) cs.

(** Every entry of [lineHash] points at its own chunk in [lineArray]. *)
Definition reg_ok (reg : registry) : Prop :=
  forall line n, lineHash reg !! line = Some n -> lineArray reg !! n = Some line.

Definition reg0 : registry := {| lineArray := [[]]; lineHash := ∅ |}.

(** The texts of the runs that belong to one side of a diff, in
    order: every run except those tagged [skip]. *)
Fixpoint side_text {A} (skip : op) (d : list (op * list A)) : list A :=
  match d with
  | [] => []
  | (o, s) :: r =>
      if decide (o = skip) then side_text skip r else s ++ side_text skip r
  end.

(** Equal and deleteFromText1 runs. *)
Definition text1_of {A} (d : list (op * list A)) : list A := side_text DIFF_INSERT d.
(** Equal and insertFromText2 runs. *)
Definition text2_of {A} (d : list (op * list A)) : list A := side_text DIFF_DELETE d.

(** What the code relies on from [dmp.diff_main]: its output is an
    edit script from the first symbol string to the second. *)
Definition diff_main_contract (dm : list nat -> list nat -> list (op * list nat)) : Prop :=
  forall a b, text1_of (dm a b) = a /\ text2_of (dm a b) = b.

Section WithTokenizer.
Variable nlp : str -> list word.

(** [if line.strip():] *)
Definition nonblank (line : str) : bool :=
  match Py.strip line with
  | [] => false
  | _ :: _ => true
  end.

(** The lines that pass both tests of the tokenizing loop. *)
Definition has_tokens (line : str) : bool :=
  nonblank line && match Diff.word_tuples nlp line with [] => false | _ :: _ => true end.

Definition token_lines (text : str) : list str :=
  List.filter has_tokens (Py.split Py.newline text).

Definition line_offsets (line : str) : list (Z * Z) := map snd (Diff.word_tuples nlp line).
Definition line_words (line : str) : list str := map fst (Diff.word_tuples nlp line).

(** The boundary chunk that stands for a text without tokens. *)
Definition boundary_chunk (text : str) : str :=
  if Py.endswith Py.newline text then [Py.newline; Py.space] else [Py.space].

(** The lines that pass [if line.strip():]. *)
Definition nonblank_lines (text : str) : list str :=
  List.filter nonblank (Py.split Py.newline text).

(** The tokens of a text, as the tokenizer returns them: the token
    texts of its lines that are not blank, line after line, and a
    final newline as a token of its own. *)
Definition tokens (text : str) : list str :=
  concat (map (fun line => map w_text (nlp line)) (nonblank_lines text))
  ++ (if Py.endswith Py.newline text then [[Py.newline]] else []).

End WithTokenizer.

(** Boundary-marker normalization: the tokens joined by one boundary
    marker (a space), with the trailing boundary. *)
Definition normal_form (tokens : list str) : str :=
  Py.join [Py.space] tokens ++ [Py.space].

(** The characters of a text that are not white space, in order. *)
Definition visible (s : str) : str := List.filter (fun c => negb (Py.isspace c)) s.

(** What the code relies on from the tokenizer: it loses no character
    of a line and invents none; only white space may go or come. *)
Definition tokenizer_faithful (nlp : str -> list word) : Prop :=
  forall line, visible (concat (map w_text (nlp line))) = visible line.

(** Two run tags that [diff_cleanupMerge], the last step of
    [dmp.diff_main], never leaves next to each other: the same tag
    twice, or an insertion directly before a deletion (between two
    equalities the deletion comes first). *)
Definition unmerged (o1 o2 : op) : bool :=
  match o1, o2 with
  | DIFF_DELETE, DIFF_DELETE | DIFF_EQUAL, DIFF_EQUAL | DIFF_INSERT, DIFF_INSERT
  | DIFF_INSERT, DIFF_DELETE => true
  | _, _ => false
  end.

Fixpoint clean_ops (ops : list op) : bool :=
  match ops with
  | o1 :: ((o2 :: _) as rest) => negb (unmerged o1 o2) && clean_ops rest
  | _ => true
  end.

(** What the code can rely on from [dmp.diff_main] besides
    [diff_main_contract]: its output is merged, and no run is empty. *)
Definition diff_main_clean (dm : list nat -> list nat -> list (op * list nat)) : Prop :=
  forall a b, Forall (fun r => r.2 <> []) (dm a b) /\ clean_ops (map fst (dm a b)) = true.

(** The first chunk of a text, up to and including its first space (or
    up to the end when there is none), and what follows it. *)
Fixpoint cut_chunk (s : str) : str * str :=
  match s with
  | [] => ([], [])
  | c :: r =>
      if Ascii.eqb c Py.space then ([c], r)
      else let '(h, t) := cut_chunk r in (c :: h, t)
  end.

Fixpoint chunks_upto (n : nat) (s : str) : list str :=
  match n, s with
  | S n', _ :: _ => let '(h, t) := cut_chunk s in h :: chunks_upto n' t
  | _, _ => []
  end.

(** The chunks of a text: it is cut after every space. *)
Definition chunks (s : str) : list str := chunks_upto (length s) s.

(** [lineHash] and [lineArray] are inverse to each other from index 1
    on: a chunk has one symbol and a symbol one chunk. *)
Definition reg_tight (reg : registry) : Prop :=
  0 < length (lineArray reg) /\
  (forall line n, lineHash reg !! line = Some n ->
                  0 < n /\ lineArray reg !! n = Some line) /\
  (forall n line, 0 < n -> lineArray reg !! n = Some line ->
                  lineHash reg !! line = Some n).

(** Texts short enough for the symbol space: the bail-out at
    [maxLines] is not reached, since a chunk has at least one
    character. *)
Definition fits (len1 len2 : nat) : Prop :=
  (1 + N.of_nat len1 <= 666666)%N /\ (1 + N.of_nat len1 + N.of_nat len2 <= 1114111)%N.

(** The symbol [c] stands for [chunk] in the table [la]. *)
Definition stands_for (la : list str) (c : nat) (chunk : str) : Prop :=
  0 < c /\ la !! c = Some chunk.

Definition no_space (w : str) : Prop := Py.space ∉ w.

#[global] Instance no_space_dec w : Decision (no_space w).
Proof. unfold no_space. apply _. Defined.

End DiffSpec.

Module EditsSpec.

(** Sentinel correctness of one edit record. *)
Definition sentinel_ok (r : edit_dict) : Prop :=
  match edit_type r with
  | deletion => offset2 r = Edits.sentinel /\ text2 r = []
  | insertion => offset1 r = Edits.sentinel /\ text1 r = []
  | same | substitution => True
  end.

(** The classification as the specification words it: walk the runs
    with one run of lookahead; a deleteFromText1 run immediately
    followed by an insertFromText2 run is one substitution and both
    runs are passed; any other run gives deletion, insertion or same on
    its own. *)
Fixpoint spec_classify (ops : list op) : list edit_kind :=
  match ops with
  | [] => []
  | DIFF_DELETE :: rest =>
      match rest with
      | DIFF_INSERT :: rest' => substitution :: spec_classify rest'
      | _ => deletion :: spec_classify rest
      end
  | DIFF_INSERT :: rest => insertion :: spec_classify rest
  | DIFF_EQUAL :: rest => same :: spec_classify rest
  end.

(** No deletion record is directly followed by an insertion record. *)
Definition no_deletion_then_insertion (kinds : list edit_kind) : Prop :=
  forall k, kinds !! k = Some deletion -> kinds !! (k + 1) <> Some insertion.

Definition count_kind (kind : edit_kind) (kinds : list edit_kind) : nat :=
  length (List.filter (fun k => bool_decide (k = kind)) kinds).

(** The number of marker occurrences that [deque] subtracts. *)
Definition quote_markers (s : str) : nat :=
  Py.count2 "'" "'" s + Py.count2 "`" "`" s.

(** The span that covers a window of token offsets: from the begin of
    its first entry to the end of its last, less the quote markers of
    [quoted]; the sentinel when the window is empty. *)
Definition window_span (window : list (Z * Z)) (quoted : str) : Z * Z :=
  match window with
  | [] => Edits.sentinel
  | first :: rest =>
      (first.1, ((List.last rest first).2 - Z.of_nat (quote_markers quoted))%Z)
  end.

(** The two spans of every record, read off the runs and what is left
    of the two offset lists: a run of [n] tokens is given the window of
    the first [n] entries that are left on its side, or as many as
    there are, and leaves the entries after them; a side that the run
    does not touch has the sentinel and keeps its list.  In a
    substitution the quote markers of both spans are those of the
    deleted run. *)
Fixpoint expected_spans (runs : list (op * str * nat)) (left1 left2 : list (Z * Z))
  : list ((Z * Z) * (Z * Z)) :=
  match runs with
  | [] => []
  | (DIFF_DELETE, s, n) :: rest =>
      match rest with
      | (DIFF_INSERT, _, n') :: rest' =>
          (window_span (take n left1) (Py.strip s), window_span (take n' left2) (Py.strip s))
          :: expected_spans rest' (drop n left1) (drop n' left2)
      | _ =>
          (window_span (take n left1) (Py.strip s), Edits.sentinel)
          :: expected_spans rest (drop n left1) left2
      end
  | (DIFF_INSERT, s, n) :: rest =>
      (Edits.sentinel, window_span (take n left2) (Py.strip s))
      :: expected_spans rest left1 (drop n left2)
  | (DIFF_EQUAL, s, n) :: rest =>
      (window_span (take n left1) (Py.strip s), window_span (take n left2) (Py.strip s))
      :: expected_spans rest (drop n left1) (drop n left2)
  end.

(** The two spans of an edit record. *)
Definition spans (r : edit_dict) : (Z * Z) * (Z * Z) := (offset1 r, offset2 r).

(** Every record stored under [alignments] keeps the sentinels. *)
Definition all_records_ok (js : edits_json) : Prop :=
  map_Forall (fun _ a => Forall sentinel_ok (edits a)) (alignments js).

(** The tags of a list of runs paired with their token counts. *)
Definition ops_of (runs : list (op * str * nat)) : list op := map (fun r => r.1.1) runs.

(** The tokens that the runs of one side count together: every run
    except those tagged [skip]. *)
Definition side_count (skip : op) (runs : list (op * str * nat)) : nat :=
  sum_list (map (fun r => if decide (r.1.1 = skip) then 0 else r.2) runs).

(** The records that count as edits. *)
Definition count_edits (kinds : list edit_kind) : nat :=
  length (List.filter (fun k => negb (bool_decide (k = same))) kinds).

(** What a loop state [st'] has consumed from the two offset lists and
    added to the edit counter since an earlier state [st]. *)
Definition advanced (st st' : loop_state) (d1 d2 e : nat) : Prop :=
  offsets1 st' = drop d1 (offsets1 st) /\
  offsets2 st' = drop d2 (offsets2 st) /\
  num_edits st' = num_edits st + e.

(** The two sentence lists of the JSON keep their lengths. *)
Definition same_shape (js js' : edits_json) : Prop :=
  length (file1_sentences js') = length (file1_sentences js) /\
  length (file2_sentences js') = length (file2_sentences js).

(** The [text] of an entry of [file1_sentences] / [file2_sentences]. *)
Definition dict_text (d : sentence_dict) : str :=
  match d with
  | dummy_dict => []
  | SentenceDict text _ _ _ => text
  end.

(** The sentence record that [get_sentence] builds for the global
    index [g]: its text is the slice of [content] at the table's span. *)
Definition sentence_record (global_offsets : list (Z * Z)) (content : str)
    (d : sentence_dict) (g : nat) : Prop :=
  exists par_index offset,
    global_offsets !! g = Some offset /\
    d = SentenceDict (Py.slice content offset.1 offset.2) par_index g offset.

(** What holds of an [EditsHtml] object all through [get_diff_html]:
    every stored record keeps the sentinels, the page has one slot per
    paragraph and the JSON one entry per sentence. *)
Definition well_formed (n1 n2 m1 m2 : nat) (ed : Edits.editor) : Prop :=
  all_records_ok (Edits.ed_json ed) /\
  length (Edits.ed_html1 ed) = n1 /\ length (Edits.ed_html2 ed) = n2 /\
  length (file1_sentences (Edits.ed_json ed)) = m1 /\
  length (file2_sentences (Edits.ed_json ed)) = m2.

(** The offset table and the sentence list that a pass of
    [add_unaligned_paragraphs] reads and writes. *)
Definition side_offsets (sentence_offsets1 sentence_offsets2 : list (Z * Z))
    (kind : edit_kind) : list (Z * Z) :=
  match kind with deletion => sentence_offsets1 | _ => sentence_offsets2 end.

Definition side_sentences (kind : edit_kind) (js : edits_json) : list sentence_dict :=
  match kind with deletion => file1_sentences js | _ => file2_sentences js end.

(** The sentences that [locate_paragraph] searches, in order. *)
Definition listed_sentences (paragraph_list : list nat) (paragraphs : list (list str))
  : list str :=
  concat (map (fun par_index => default [] (paragraphs !! par_index)) paragraph_list).

End EditsSpec.

Module AlignedSpec.

Definition begin_le (x y : Z * Z) : Prop := (x.1 <= y.1)%Z.

Definition is_sentinel (x : Z * Z) : bool := bool_decide (x = Edits.sentinel).

(** The entries of a table that are spans, in table order. *)
Definition real_spans (table : list (Z * Z)) : list (Z * Z) :=
  List.filter (fun x => negb (is_sentinel x)) table.

(** The (-1,-1) slots of a table. *)
Definition sentinel_slots (table : list (Z * Z)) : list (Z * Z) :=
  List.filter is_sentinel table.

(** [not paragraph.strip()] *)
Definition blank (paragraph : str) : bool :=
  match Py.strip paragraph with
  | [] => true
  | _ :: _ => false
  end.

(** Local sentence spans as a segmenter returns them: non-negative,
    non-empty, in text order. *)
Definition spans_ok (l : list (Z * Z)) : Prop :=
  Forall (fun x => (0 <= x.1 < x.2)%Z) l /\ StronglySorted begin_le l.

(** What the running offset guarantees about the table built so far. *)
Definition table_inv (table : list (Z * Z)) (curr_offset : Z) : Prop :=
  (0 <= curr_offset)%Z /\
  StronglySorted begin_le (real_spans table) /\
  Forall (fun x => (0 <= x.1 < x.2)%Z /\ (x.1 < curr_offset)%Z) (real_spans table).

(** Local spans moved to the running offset. *)
Definition shift (curr_offset : Z) (l : list (Z * Z)) : list (Z * Z) :=
  map (fun '(begin, end_) => ((begin + curr_offset)%Z, (end_ + curr_offset)%Z)) l.

Section WithSegmenter.
Variable sent_tuples : str -> list (str * (Z * Z)).

(** The entry of [sentence_offsets] and of [paragraphs] for one
    paragraph. *)
Definition entry (p : str) : option (list (Z * Z)) :=
  if blank p then None else Some (map snd (sent_tuples p)).

Definition sentences_of (p : str) : list str :=
  if blank p then [p] else map fst (sent_tuples p).

End WithSegmenter.

(** Where paragraph [i] starts in the text: every earlier paragraph
    takes its length and one newline. *)
Definition start_of (ps : list str) (i : nat) : nat :=
  sum_list (map (fun p => S (length p)) (take i ps)).

Section Exact.
Variable sent_tuples : str -> list (str * (Z * Z)).

(** The running offset moves over the paragraph by exactly its length
    and the newline: a blank paragraph is empty, and in any other the
    last sentence ends where the paragraph ends, up to the trailing
    spaces that the code counts. *)
Definition exact_width (p : str) : Prop :=
  if blank p then p = []
  else exists y,
      last (map snd (sent_tuples p)) = Some y /\
      (y.2 + (if Py.endswith Py.space p
              then Z.of_nat (length p) - Z.of_nat (length (Py.strip p))
              else 0))%Z = Z.of_nat (length p).

(** The local spans lie inside the paragraph. *)
Definition spans_inside (p : str) : Prop :=
  Forall (fun x => (0 <= x.1 <= x.2)%Z /\ (x.2 <= Z.of_nat (length p))%Z)
         (map snd (sent_tuples p)).

(** The table entries of one paragraph that starts at [curr]. *)
Definition block (curr : Z) (p : str) : list (Z * Z) :=
  match entry sent_tuples p with
  | None => [Edits.sentinel]
  | Some l => shift curr l
  end.

(** The table of a text whose paragraphs start where the text has them. *)
Fixpoint table_from (curr : Z) (ps : list str) : list (Z * Z) :=
  match ps with
  | [] => []
  | p :: rest => block curr p ++ table_from (curr + Z.of_nat (length p) + 1) rest
  end.

End Exact.

(** The segmenter finds a sentence in the paragraph unless it is blank. *)
Definition has_sentences (sent_tuples : str -> list (str * (Z * Z))) (p : str) : Prop :=
  blank p = false -> sent_tuples p <> [].

(** A paragraph that is not blank and in which the segmenter finds
    nothing. *)
Definition no_sentence (sent_tuples : str -> list (str * (Z * Z))) (p : str) : Prop :=
  blank p = false /\ sent_tuples p = [].

(** A paragraph as [get_sent_indices] counts it rightly: it has a
    first sentence, and when that is the empty string it is the only
    one. *)
Definition counted_right (p : list str) : Prop :=
  match p with
  | [] => False
  | [] :: rest => rest = []
  | (_ :: _) :: _ => True
  end.

End AlignedSpec.

Module LoadSpec.

(** Events that leave the disk as it is. *)
Definition read_only (e : event) : Prop :=
  match e with
  | EvAppend _ _ | EvWrite _ | EvMakedirs _ => False
  | EvRead _ | EvTfidf _ _ | EvAlignParagraphs | EvAlignSentences => True
  end.

(** Events that change the content of [file]. *)
Definition writes (file : str) (e : event) : Prop :=
  match e with
  | EvAppend f _ | EvWrite f => f = file
  | _ => False
  end.

(** A computation that changes no file and logs only read-only events,
    whether it returns or raises. *)
Definition preserves_files {A} (m : io A) : Prop :=
  forall w,
    files (m w).2 = files w /\
    exists rest, trace (m w).2 = trace w ++ rest /\ Forall read_only rest.

(** A computation that logs what it does, and changes only files that
    an event of its log writes. *)
Definition tracks {A} (m : io A) : Prop :=
  forall w,
    exists evs, trace (m w).2 = trace w ++ evs /\
                forall file, Forall (fun e => ~ writes file e) evs ->
                             files (m w).2 !! file = files w !! file.

(** The files after [open(file1, "a").write("\n")], for the file that
    [file1] names. *)
Definition with_newline (fs : gmap str str) (file1 : str) : gmap str str :=
  <[file1 := default [] (fs !! file1) ++ [Py.newline]]> fs.

(** The files after the two output writes of [create_html_file]; the
    JSON is not written in the web app. *)
Definition with_outputs (in_app : bool) (out_html out_json html json : str)
    (fs : gmap str str) : gmap str str :=
  if in_app then <[out_html := html]> fs
  else <[out_json := json]> (<[out_html := html]> fs).

(** The value of a key in the object of a configuration file: of a
    repeated key the last one counts. *)
Fixpoint last_entry (fields : list (str * json_value)) (key : str) : option json_value :=
  match fields with
  | [] => None
  | (k, v) :: rest =>
      match last_entry rest key with
      | Some later => Some later
      | None => if decide (k = key) then Some v else None
      end
  end.

(** The path that a loaded configuration has for [name], if it has
    one: the configuration is an object, its entries for [root] and
    for [name] are texts, and the path is the second joined to the
    first. *)
Definition config_entry (env : os_env) (loaded : json_value) (name : str) : option str :=
  match loaded with
  | JObject fields =>
      match last_entry fields (Py.lit "root"), last_entry fields name with
      | Some (JString root), Some (JString value) => Some (path_join env root value)
      | _, _ => None
      end
  | _ => None
  end.

(** What is raised for a configuration that has no path for [name]. *)
Definition config_error (loaded : json_value) (name : str) : exn :=
  match loaded with
  | JObject fields =>
      match last_entry fields (Py.lit "root"), last_entry fields name with
      | None, _ => KeyError
      | Some (JString _), None => NameError
      | Some _, _ => TypeError
      end
  | _ => TypeError
  end.

(** The stop-word list of a run, if it gets one: the entry of the
    object that it was given for [config], or the path that the
    configuration read from [config_json] has for [stop_words]. *)
Definition stop_words_entry (env : os_env) (json_load : str -> result json_value)
    (config : option (str -> result str)) (config_json : option str) (w : world)
  : option str :=
  match config with
  | Some given =>
      match given (Py.lit "stop_words") with
      | Ok stop_words => Some stop_words
      | _ => None
      end
  | None =>
      match config_json with
      | None => None
      | Some path =>
          match open_error env ModeRead path with
          | Some _ => None
          | None =>
              raw ← files w !! realpath env path;
              match json_load raw with
              | Ok loaded => config_entry env loaded (Py.lit "stop_words")
              | _ => None
              end
          end
      end
  end.

(** [path] names a regular file or a directory. *)
Definition exists_at (env : os_env) (w : world) (path : str) : Prop :=
  is_Some (files w !! realpath env path) \/ isdir env path = true.

(** The directory and the two paths of the output files, for a call
    that gives [output_dir] or [output_prefix]. *)
Definition output_dir_of (env : os_env) (output_dir output_prefix : option str) : str :=
  match output_dir, output_prefix with
  | Some dir, _ => dir
  | None, Some prefix => dirname env prefix
  | None, None => []
  end.

Definition output_path (env : os_env) (float_str : Z * Z -> str) (file1 file2 : str)
    (min_par_sim min_sent_sim sim_slack : Z * Z) (output_dir output_prefix : option str)
    (extension : str) : str :=
  path_join env (output_dir_of env output_dir output_prefix)
    (default (Py.join (Py.lit "-")
                [stem env file1; stem env file2;
                 float_str min_par_sim; float_str min_sent_sim; float_str sim_slack])
             output_prefix ++ extension).

End LoadSpec.

(** ** Sample inputs *)

Module Examples.

Definition two_lines : str := Py.lit "one two" ++ [Py.newline] ++ Py.lit "three".

Definition s1 : str := Py.lit "Substitution in the middle".
Definition s2 : str := Py.lit "Substitution in ze middle".

Definition diff : list (op * str) :=
  [(DIFF_EQUAL, Py.lit "Substitution in "); (DIFF_DELETE, Py.lit "the ");
   (DIFF_INSERT, Py.lit "ze "); (DIFF_EQUAL, Py.lit "middle ")].

Definition char_diff : list (op * list nat) :=
  [(DIFF_EQUAL, [1; 2]); (DIFF_DELETE, [3]); (DIFF_INSERT, [5]); (DIFF_EQUAL, [4])].

Definition token_offsets1 : list (Z * Z) := [(0, 12); (13, 15); (16, 19); (20, 26)]%Z.
Definition token_offsets2 : list (Z * Z) := [(0, 12); (13, 15); (16, 18); (19, 25)]%Z.

Definition paragraphs : list (list str) :=
  [[Py.lit "First sentence."; Py.lit "Second."]; [Py.lit "Unaligned par."]].

Definition sentence_offsets : list (Z * Z) := [(0, 15); (16, 23); (24, 38)]%Z.

Definition empty_json : edits_json :=
  {| file1_sentences := replicate 3 dummy_dict;
     file2_sentences := [];
     alignments := ∅ |}.

Definition deleted_paragraph_record : edit_dict :=
  {| edit_type := deletion; offset1 := (24, 38)%Z; offset2 := Edits.sentinel;
     text1 := Py.lit "Unaligned par."; text2 := [] |}.

Definition document : str :=
  Py.lit "First paragraph. " ++ [Py.newline; Py.newline] ++ Py.lit "Third one.".

(** [diff_wordMode(text1, text2, return_offsets=False)] with the sample
    tokenizer and diff, printed as the tests write it. *)
Definition diff_of (text1 text2 : string) : result (list (Z * string)) :=
  '(diff, _, _) ← Diff.diff_wordMode Sample.nlp Sample.diff_main
                     (Py.lit text1) (Py.lit text2);
  Ok (map (fun '(o, s) => (op_code o, string_of_list_ascii s)) diff).

(** A sentence and its revision, each on one line. *)
Definition r1 : str := Py.lit "Deletion in the middle".
Definition r2 : str := Py.lit "Deletion in middle".

(** The token counts of the runs of [diff]. *)
Definition num_tokens_list : list nat := [2; 1; 1; 1].

Definition state0 : loop_state :=
  {| html1 := []; html2 := []; edit_dicts := [];
     offsets1 := token_offsets1; offsets2 := token_offsets2; num_edits := 0 |}.

(** The text of [paragraphs]. *)
Definition content : str :=
  Py.lit "First sentence. Second." ++ [Py.newline] ++ Py.lit "Unaligned par.".

(** The first sentence of the first paragraph already has its HTML. *)
Definition first_done : gmap nat str := {[ 0 := Py.lit "<span>First sentence.</span>" ]}.

Definition format_hover (text : str) (index : nat * nat) : str := Py.lit "<a>" ++ text.

(** A one-sentence document and its revision, aligned paragraph to
    paragraph and sentence to sentence. *)
Definition revision : aligned_text :=
  {| file1 := Py.lit "a.txt"; file2 := Py.lit "b.txt";
     content1 := Py.lit "The cat sat."; p1s := [[Py.lit "The cat sat."]];
     sentence_offsets1 := {[ 0 := [(0, 12)%Z] ]};
     content2 := Py.lit "The dog sat."; p2s := [[Py.lit "The dog sat."]];
     sentence_offsets2 := {[ 0 := [(0, 12)%Z] ]};
     global_offsets1 := [(0, 12)%Z]; global_offsets2 := [(0, 12)%Z];
     par_alignment := [([0], [0])];
     sent_alignments := [[([0], [0])]] |}.

(** Two documents of which no paragraphs are aligned. *)
Definition unrelated : aligned_text :=
  {| file1 := Py.lit "a.txt"; file2 := Py.lit "b.txt";
     content1 := content; p1s := paragraphs;
     sentence_offsets1 := {[ 0 := [(0, 15); (16, 23)]%Z; 1 := [(0, 14)%Z] ]};
     content2 := Py.lit "Other."; p2s := [[Py.lit "Other."]];
     sentence_offsets2 := {[ 0 := [(0, 6)%Z] ]};
     global_offsets1 := sentence_offsets; global_offsets2 := [(0, 6)%Z];
     par_alignment := [];
     sent_alignments := [] |}.

(** A world in which the second file does not exist. *)
Definition lonely_world : world :=
  {| files := {[ Py.lit "a.txt" := Py.lit "One line." ]}; trace := [] |}.

(** An [EditsHtml] that finds one edit. *)
Definition one_edit (a : aligned_text) (templates : str) : result Edits.editor :=
  Ok {| Edits.ed_html1 := []; Edits.ed_html2 := [];
        Edits.ed_json := {| file1_sentences := []; file2_sentences := []; alignments := ∅ |};
        Edits.ed_num_edits := 1 |}.

End Examples.

(** * Properties *)

(** ** Properties of the symbol codec *)

Module DiffFacts.
Import Diff DiffSpec.

Lemma reg0_ok : reg_ok reg0.
Proof. intros line n H. cbn in H. by rewrite lookup_empty in H. Qed.

Lemma decode_app la cs1 cs2 :
  decode la (cs1 ++ cs2) = decode la cs1 ++ decode la cs2.
Proof. unfold decode. by rewrite map_app, concat_app. Qed.

Lemma decode_prefix la la' cs :
  la `prefix_of` la' -> in_range la cs -> decode la' cs = decode la cs.
Proof.
  intros [k ->] Hr. unfold decode. f_equal.
  induction Hr as [|c cs Hc _ IH]; [done|].
  cbn. rewrite IH. f_equal. by rewrite lookup_app_l.
Qed.

Lemma in_range_prefix la la' cs :
  la `prefix_of` la' -> in_range la cs -> in_range la' cs.
Proof.
  intros Hp Hr. eapply Forall_impl; [exact Hr|].
  intros c Hc. apply prefix_length in Hp. cbn in *. lia.
Qed.

Lemma index_of_lt c s j : Py.index_of c s = Some j -> j < length s.
Proof.
  revert j. induction s as [|x s IH]; intros j; cbn; [done|].
  destruct (Ascii.eqb x c).
  - intros [= <-]. lia.
  - destruct (Py.index_of c s) as [k|]; [|done].
    intros [= <-]. specialize (IH k eq_refl). lia.
Qed.

(** The chunk cut at a found space, followed by the rest of the
    text, is the text from [lineStart] on. *)
Lemma find_chunk c text lineStart k :
  Py.find c text lineStart = Some k ->
  lineStart <= k < length text /\
  Py.slice_nat text lineStart (k + 1) ++ drop (k + 1) text = drop lineStart text.
Proof.
  unfold Py.find, Py.slice_nat.
  destruct (Py.index_of c (drop lineStart text)) as [j|] eqn:Hj; [|done].
  intros [= <-]. apply index_of_lt in Hj. rewrite length_drop in Hj.
  split; [lia|].
  replace (lineStart + j + 1 - lineStart) with (j + 1) by lia.
  replace (lineStart + j + 1) with (lineStart + (j + 1)) by lia.
  rewrite <- drop_drop. apply take_drop.
Qed.

Lemma last_chunk (text : str) lineStart :
  lineStart < length text ->
  Py.slice_nat text lineStart (length text - 1 + 1) ++ drop (length text - 1 + 1) text
  = drop lineStart text.
Proof.
  intros Hlt. unfold Py.slice_nat.
  replace (length text - 1 + 1) with (length text) by lia.
  rewrite drop_all, app_nil_r. apply take_ge. rewrite length_drop. lia.
Qed.

Lemma chr_ok n : (N.of_nat n <= 1114111)%N -> Py.chr n = Ok n.
Proof.
  intros H. unfold Py.chr.
  destruct (N.leb_spec (N.of_nat n) 1114111); [done|lia].
Qed.

Lemma reg_ok_insert reg line :
  reg_ok reg ->
  reg_ok {| lineArray := lineArray reg ++ [line];
            lineHash := <[line := length (lineArray reg ++ [line]) - 1]> (lineHash reg) |}.
Proof.
  intros Hok l n. cbn. rewrite length_app. cbn.
  replace (length (lineArray reg) + 1 - 1) with (length (lineArray reg)) by lia.
  destruct (decide (line = l)) as [->|Hne].
  - rewrite lookup_insert_eq. intros [= <-].
    by rewrite lookup_app_r, Nat.sub_diag.
  - rewrite lookup_insert_ne by done. intros H. apply Hok in H.
    rewrite lookup_app_l; [done|]. by eapply lookup_lt_Some.
Qed.

Section Loop.
Variable maxLines : N.
Hypothesis maxLines_chr : (maxLines <= 1114111)%N.
Variable text : str.

(** The loop terminates within [length text - lineStart] iterations,
    never raises, only appends to the registry, and emits symbols
    that decode to the rest of the text. *)
Lemma munge_loop_spec fuel : forall lineStart reg chars,
  length text - lineStart <= fuel ->
  reg_ok reg ->
  (lineStart < length text -> (N.of_nat (length (lineArray reg)) <= maxLines)%N) ->
  (N.of_nat (length (lineArray reg)) <= maxLines + 1)%N ->
  exists new reg',
    munge_loop fuel maxLines text lineStart reg chars = Ok (chars ++ new, reg') /\
    reg_ok reg' /\
    lineArray reg `prefix_of` lineArray reg' /\
    (N.of_nat (length (lineArray reg')) <= maxLines + 1)%N /\
    in_range (lineArray reg') new /\
    decode (lineArray reg') new = drop lineStart text.
Proof.
  induction fuel as [|fuel IH]; intros lineStart reg chars Hfuel Hok Hmax Hmax1.
  - exists [], reg. cbn. destruct (decide (lineStart < length text)); [lia|].
    rewrite app_nil_r, drop_ge by lia. repeat split; try done. constructor.
  - cbn. destruct (decide (lineStart < length text)) as [Hlt|Hge]; cycle 1.
    { exists [], reg. rewrite app_nil_r, drop_ge by lia.
      repeat split; try done. constructor. }
    specialize (Hmax Hlt).
    set (lineEnd := match Py.find Py.space text lineStart with
                    | Some k => k | None => length text - 1 end).
    assert (lineStart <= lineEnd < length text /\
            Py.slice_nat text lineStart (lineEnd + 1) ++ drop (lineEnd + 1) text
            = drop lineStart text) as [Hle Hcut].
    { subst lineEnd. destruct (Py.find Py.space text lineStart) as [k|] eqn:Hf.
      - by apply find_chunk in Hf.
      - split; [lia|]. by apply last_chunk. }
    destruct (lineHash reg !! Py.slice_nat text lineStart (lineEnd + 1))
      as [n|] eqn:Hh.
    + pose proof (Hok _ _ Hh) as Hn.
      pose proof (lookup_lt_Some _ _ _ Hn) as Hnlt.
      rewrite chr_ok by lia. cbn.
      destruct (IH (lineEnd + 1) reg (chars ++ [n])) as (new & reg' & E & Hok' & Hp & Hb & Hr & Hd);
        [lia|done|intros; lia|done|].
      exists (n :: new), reg'. rewrite E, <- app_assoc. cbn.
      repeat split; try done.
      * constructor; [|done]. apply prefix_length in Hp. lia.
      * unfold decode in *. cbn. rewrite Hd.
        destruct Hp as [k ->]. rewrite lookup_app_l by done. rewrite Hn. cbn.
        done.
    + destruct (N.eqb_spec (N.of_nat (length (lineArray reg))) maxLines) as [Heq|Hne].
      * set (line := drop lineStart text).
        rewrite chr_ok by (rewrite length_app; cbn; lia). cbn.
        destruct (IH (length text + 1)
                    {| lineArray := lineArray reg ++ [line];
                       lineHash := <[line := length (lineArray reg ++ [line]) - 1]> (lineHash reg) |}
                    (chars ++ [length (lineArray reg ++ [line]) - 1]))
          as (new & reg' & E & Hok' & Hp & Hb & Hr & Hd);
          [lia|by apply reg_ok_insert|intros; lia|cbn; rewrite length_app; cbn; lia|].
        cbn in Hp.
        exists ((length (lineArray reg ++ [line]) - 1) :: new), reg'.
        rewrite E, <- app_assoc. cbn.
        repeat split; try done.
        -- etrans; [|exact Hp]. by apply prefix_app_r.
        -- constructor; [|done]. apply prefix_length in Hp.
           rewrite length_app in *. cbn in *. lia.
        -- unfold decode in *. cbn. rewrite Hd.
           destruct Hp as [k Hk]. rewrite Hk.
           rewrite length_app. cbn.
           replace (length (lineArray reg) + 1 - 1) with (length (lineArray reg)) by lia.
           rewrite <- app_assoc. rewrite lookup_app_r by lia.
           rewrite Nat.sub_diag. cbn.
           rewrite drop_ge by lia. by rewrite app_nil_r.
      * set (line := Py.slice_nat text lineStart (lineEnd + 1)) in *.
        rewrite chr_ok by (rewrite length_app; cbn; lia). cbn.
        destruct (IH (lineEnd + 1)
                    {| lineArray := lineArray reg ++ [line];
                       lineHash := <[line := length (lineArray reg ++ [line]) - 1]> (lineHash reg) |}
                    (chars ++ [length (lineArray reg ++ [line]) - 1]))
          as (new & reg' & E & Hok' & Hp & Hb & Hr & Hd);
          [lia|by apply reg_ok_insert|cbn; rewrite length_app; cbn; lia
          |cbn; rewrite length_app; cbn; lia|].
        cbn in Hp.
        exists ((length (lineArray reg ++ [line]) - 1) :: new), reg'.
        rewrite E, <- app_assoc. cbn.
        repeat split; try done.
        -- etrans; [|exact Hp]. by apply prefix_app_r.
        -- constructor; [|done]. apply prefix_length in Hp.
           rewrite length_app in *. cbn in *. lia.
        -- unfold decode in *. cbn. rewrite Hd.
           destruct Hp as [k Hk]. rewrite Hk.
           rewrite length_app. cbn.
           replace (length (lineArray reg) + 1 - 1) with (length (lineArray reg)) by lia.
           rewrite <- app_assoc. rewrite lookup_app_r by lia.
           rewrite Nat.sub_diag. cbn. done.
Qed.
End Loop.

Section Codec.
Variable nlp : str -> list word.

Local Abbreviation has_tokens := (has_tokens nlp).
Local Abbreviation token_lines := (token_lines nlp).
Local Abbreviation line_offsets := (line_offsets nlp).
Local Abbreviation line_words := (line_words nlp).

Lemma tokenize_step_spec ws os line :
  tokenize_step nlp (ws, os) line
  = if has_tokens line then (ws ++ line_words line, line_offsets line) else (ws, os).
Proof.
  unfold tokenize_step, has_tokens, nonblank, line_words, line_offsets.
  destruct (Py.strip line); [done|].
  by destruct (word_tuples nlp line).
Qed.

Lemma tokenize_fold lines : forall ws os,
  fold_left (tokenize_step nlp) lines (ws, os)
  = (ws ++ concat (map line_words (List.filter has_tokens lines)),
     match last (List.filter has_tokens lines) with
     | Some l => line_offsets l
     | None => os
     end).
Proof.
  induction lines as [|line lines IH]; intros ws os; cbn [fold_left List.filter].
  - cbn. by rewrite app_nil_r.
  - rewrite tokenize_step_spec. destruct (has_tokens line); [|apply IH].
    rewrite IH. cbn [map concat]. rewrite last_cons, <- app_assoc.
    by destruct (last (List.filter has_tokens lines)).
Qed.

(** [words] collects the tokens of every line; [offset_list] holds
    the spans of the last line that had tokens. *)
Lemma tokenize_lines_spec text :
  tokenize_lines nlp text
  = (concat (map line_words (token_lines text)),
     match last (token_lines text) with
     | Some l => line_offsets l
     | None => []
     end).
Proof. unfold tokenize_lines. by rewrite tokenize_fold. Qed.

Lemma no_words_no_offsets text :
  fst (tokenize_lines nlp text) = [] -> snd (tokenize_lines nlp text) = [].
Proof.
  rewrite tokenize_lines_spec. cbn.
  destruct (token_lines text) as [|l ls] eqn:E; [done|].
  assert (has_tokens l = true) as Hl.
  { assert (In l (token_lines text)) as Hin by (rewrite E; by left).
    unfold token_lines in Hin. by apply filter_In in Hin as [_ ?]. }
  cbn. unfold has_tokens, line_words in *.
  destruct (word_tuples nlp l); [by rewrite andb_false_r in Hl|]. done.
Qed.

Lemma munge_loop_done fuel maxLines text lineStart reg chars :
  length text <= lineStart ->
  munge_loop fuel maxLines text lineStart reg chars = Ok (chars, reg).
Proof.
  intros H. destruct fuel; cbn; destruct (decide (lineStart < length text)); done || lia.
Qed.

Lemma munge_text_no_words text :
  fst (tokenize_lines nlp text) = [] -> munge_text nlp text = boundary_chunk text.
Proof.
  intros H. unfold munge_text, munge_words, boundary_chunk. rewrite H.
  by destruct (Py.endswith Py.newline text).
Qed.

(** A text that is one chunk is encoded by one symbol. *)
Lemma munge_loop_single fuel maxLines text reg chars r reg' :
  text = [Py.space] \/ text = [Py.newline; Py.space] ->
  munge_loop (S fuel) maxLines text 0 reg chars = Ok (r, reg') ->
  exists c, r = chars ++ [c].
Proof.
  intros Ht. cbn [munge_loop].
  destruct (decide (0 < length text)) as [_|Hn]; [|destruct Ht as [-> | ->]; cbn in Hn; lia].
  set (lineEnd := match Py.find Py.space text 0 with
                  | Some k => k | None => length text - 1 end).
  assert (lineEnd + 1 = length text) as Hend by (destruct Ht as [-> | ->]; done).
  destruct (lineHash reg !! Py.slice_nat text 0 (lineEnd + 1)) as [n|].
  - destruct (Py.chr n) as [c| |]; cbn; [|done|done].
    rewrite munge_loop_done by lia. intros [= <- <-]. by exists c.
  - destruct (N.of_nat (length (lineArray reg)) =? maxLines)%N.
    + destruct (Py.chr _) as [c| |]; cbn; [|done|done].
      rewrite munge_loop_done by lia. intros [= <- <-]. by exists c.
    + destruct (Py.chr _) as [c| |]; cbn; [|done|done].
      rewrite munge_loop_done by lia. intros [= <- <-]. by exists c.
Qed.

Lemma munge_no_words maxLines text reg chars offsets reg' :
  fst (tokenize_lines nlp text) = [] ->
  diff_linesToCharsMunge nlp maxLines text reg = Ok (chars, offsets, reg') ->
  length chars = 1 /\ offsets = [].
Proof.
  intros Hw. unfold diff_linesToCharsMunge.
  rewrite (munge_text_no_words _ Hw), (no_words_no_offsets _ Hw).
  destruct (munge_loop _ _ _ _ _ _) as [[r reg'']| |] eqn:E; cbn; [|done|done].
  intros [= <- <- <-]. split; [|done].
  assert (exists fuel, length (boundary_chunk text) = S fuel) as [fuel Hf].
  { unfold boundary_chunk. destruct (Py.endswith _ _); cbn; eauto. }
  rewrite Hf in E. apply munge_loop_single in E as [c ->]; [done|].
  unfold boundary_chunk. destruct (Py.endswith _ _); auto.
Qed.

Lemma munge_spec maxLines text reg :
  (maxLines <= 1114111)%N ->
  reg_ok reg ->
  (N.of_nat (length (lineArray reg)) <= maxLines)%N ->
  exists chars reg',
    diff_linesToCharsMunge nlp maxLines text reg
    = Ok (chars, snd (tokenize_lines nlp text), reg') /\
    reg_ok reg' /\
    lineArray reg `prefix_of` lineArray reg' /\
    (N.of_nat (length (lineArray reg')) <= maxLines + 1)%N /\
    in_range (lineArray reg') chars /\
    decode (lineArray reg') chars = munge_text nlp text /\
    (fst (tokenize_lines nlp text) = [] -> length chars = 1).
Proof.
  intros Hm Hok Hlen.
  destruct (munge_loop_spec maxLines Hm (munge_text nlp text)
              (length (munge_text nlp text)) 0 reg [])
    as (new & reg' & E & Hok' & Hp & Hb & Hr & Hd); [lia|done|done|lia|].
  assert (diff_linesToCharsMunge nlp maxLines text reg
          = Ok (new, snd (tokenize_lines nlp text), reg')) as Hrun.
  { unfold diff_linesToCharsMunge. by rewrite E. }
  exists new, reg'. rewrite Hd. repeat split; try done.
  intros Hw. by destruct (munge_no_words _ _ _ _ _ _ Hw Hrun).
Qed.

(** The codec never raises; both symbol strings decode, through the
    shared table, to the normalized texts. *)
Lemma diff_wordsToChars_spec text1 text2 :
  exists chars1 chars2 la,
    diff_wordsToChars nlp text1 text2
    = Ok (chars1, chars2, la,
          (snd (tokenize_lines nlp text1), snd (tokenize_lines nlp text2))) /\
    in_range la chars1 /\ in_range la chars2 /\
    decode la chars1 = munge_text nlp text1 /\
    decode la chars2 = munge_text nlp text2 /\
    (fst (tokenize_lines nlp text1) = [] -> length chars1 = 1) /\
    (fst (tokenize_lines nlp text2) = [] -> length chars2 = 1).
Proof.
  unfold diff_wordsToChars.
  destruct (munge_spec 666666 text1 {| lineArray := [[]]; lineHash := ∅ |})
    as (c1 & reg1 & E1 & Hok1 & Hp1 & Hb1 & Hr1 & Hd1 & Hl1);
    [lia|exact reg0_ok|cbn; lia|].
  destruct (munge_spec 1114111 text2 reg1)
    as (c2 & reg2 & E2 & Hok2 & Hp2 & Hb2 & Hr2 & Hd2 & Hl2); [lia|done|lia|].
  exists c1, c2, (lineArray reg2). rewrite E1. cbn. rewrite E2. cbn.
  repeat split; try done.
  - by eapply in_range_prefix.
  - rewrite <- Hd1. by apply decode_prefix.
Qed.

Lemma traverse_lookup la cs :
  in_range la cs ->
  traverse (fun c => of_option IndexError (la !! c)) cs
  = Ok (map (fun c => default [] (la !! c)) cs).
Proof.
  induction 1 as [|c cs Hc _ IH]; [done|].
  cbn. destruct (lookup_lt_is_Some_2 la c Hc) as [x Hx].
  rewrite Hx. cbn. by rewrite IH.
Qed.

(** Decoding a diff whose symbols are all in the table succeeds and
    commutes with taking the text of either side. *)
Lemma diff_charsToLines_spec la d :
  Forall (fun r => in_range la r.2) d ->
  exists d',
    diff_charsToLines d la = Ok d' /\
    map fst d' = map fst d /\
    forall skip, side_text skip d' = decode la (side_text skip d).
Proof.
  unfold diff_charsToLines.
  induction 1 as [|[o cs] d Hr _ (d' & E & Hf & Hs)].
  - exists []. by split.
  - cbn in Hr. cbn. rewrite traverse_lookup by done. cbn. rewrite E. cbn.
    eexists. split; [done|]. split; [cbn; by rewrite Hf|].
    intros skip. cbn [side_text]. destruct (decide (o = skip)); [done|].
    rewrite Hs. unfold decode. by rewrite map_app, concat_app.
Qed.

Lemma side_in_range la (d : list (op * list nat)) :
  in_range la (text1_of d) -> in_range la (text2_of d) ->
  Forall (fun r => in_range la r.2) d.
Proof.
  unfold text1_of, text2_of, in_range.
  induction d as [|[o cs] d IH]; [constructor|].
  cbn [side_text]. intros H1 H2.
  destruct o; repeat case_decide; try done; rewrite ?Forall_app in *;
    (constructor; [cbn; tauto | apply IH; tauto]).
Qed.

Variable diff_main : list nat -> list nat -> list (op * list nat).
Hypothesis diff_main_ok : diff_main_contract diff_main.

Lemma diff_wordMode_spec text1 text2 :
  exists diff chars1 chars2 la,
    diff_wordsToChars nlp text1 text2
    = Ok (chars1, chars2, la,
          (snd (tokenize_lines nlp text1), snd (tokenize_lines nlp text2))) /\
    diff_wordMode nlp diff_main text1 text2
    = Ok (diff, diff_main chars1 chars2,
          (snd (tokenize_lines nlp text1), snd (tokenize_lines nlp text2))) /\
    map fst diff = map fst (diff_main chars1 chars2) /\
    (forall skip, side_text skip diff
                  = decode la (side_text skip (diff_main chars1 chars2))) /\
    decode la chars1 = munge_text nlp text1 /\
    decode la chars2 = munge_text nlp text2.
Proof.
  destruct (diff_wordsToChars_spec text1 text2)
    as (c1 & c2 & la & E & Hr1 & Hr2 & Hd1 & Hd2 & _).
  destruct (diff_main_ok c1 c2) as [H1 H2].
  destruct (diff_charsToLines_spec la (diff_main c1 c2)) as (d' & Ed & Hf & Hs).
  { apply side_in_range; by rewrite ?H1, ?H2. }
  exists d', c1, c2, la. unfold diff_wordMode. rewrite E. cbn. rewrite Ed. cbn.
  done.
Qed.

Lemma visible_app a b : visible (a ++ b) = visible a ++ visible b.
Proof. apply List.filter_app. Qed.

Lemma visible_concat ls : visible (concat ls) = concat (map visible ls).
Proof. induction ls as [|l ls IH]; [done|]. cbn. by rewrite visible_app, IH. Qed.

Lemma visible_join ws : visible (Py.join [Py.space] ws) = visible (concat ws).
Proof.
  induction ws as [|w ws IH]; [done|].
  destruct ws as [|w' ws]; [cbn; by rewrite app_nil_r|].
  change (Py.join [Py.space] (w :: w' :: ws))
    with (w ++ [Py.space] ++ Py.join [Py.space] (w' :: ws)).
  change (concat (w :: w' :: ws)) with (w ++ concat (w' :: ws)).
  by rewrite !visible_app, IH.
Qed.

Lemma visible_lstrip s : visible (Py.lstrip s) = visible s.
Proof.
  induction s as [|c s IH]; [done|]. cbn [Py.lstrip].
  destruct (Py.isspace c) eqn:E; [|done]. rewrite IH. unfold visible.
  cbn [List.filter]. by rewrite E.
Qed.

Lemma visible_rev s : visible (rev s) = rev (visible s).
Proof.
  induction s as [|c s IH]; [done|]. cbn [rev]. rewrite visible_app, IH.
  unfold visible. cbn [List.filter].
  destruct (Py.isspace c); cbn [negb rev]; by rewrite ?app_nil_r.
Qed.

Lemma visible_strip s : visible (Py.strip s) = visible s.
Proof.
  unfold Py.strip, Py.rstrip.
  by rewrite visible_rev, visible_lstrip, visible_rev, rev_involutive, visible_lstrip.
Qed.

(** A blank line has no visible character. *)
Lemma visible_blank line : nonblank line = false -> visible line = [].
Proof.
  unfold nonblank. intros H. rewrite <- visible_strip. by destruct (Py.strip line).
Qed.

Lemma visible_cons c s : visible (c :: s) = visible [c] ++ visible s.
Proof. apply (visible_app [c] s). Qed.

Lemma visible_split text :
  concat (map visible (Py.split Py.newline text)) = visible text.
Proof.
  induction text as [|c text IH]; [done|]. cbn [Py.split].
  destruct (Ascii.eqb_spec c Py.newline) as [->|Hne].
  - cbn [map concat]. by rewrite IH.
  - rewrite (visible_cons c text), <- IH.
    destruct (Py.split Py.newline text) as [|h t]; cbn [map concat].
    + by rewrite !app_nil_r.
    + by rewrite (visible_cons c h), app_assoc.
Qed.

Lemma line_words_texts line : line_words line = map w_text (nlp line).
Proof. unfold DiffSpec.line_words, word_tuples. by rewrite map_map. Qed.

Lemma has_tokens_nlp line :
  has_tokens line = nonblank line && match nlp line with [] => false | _ :: _ => true end.
Proof. unfold DiffSpec.has_tokens, word_tuples. by destruct (nlp line). Qed.

(** The words that the tokenizing loop collects are the tokens of the
    text. *)
Lemma munge_words_tokens text : munge_words nlp text = tokens nlp text.
Proof.
  unfold munge_words, tokens. rewrite tokenize_lines_spec. cbn [fst].
  assert (concat (map line_words (token_lines text))
          = concat (map (fun line => map w_text (nlp line)) (nonblank_lines text))) as ->.
  { unfold DiffSpec.token_lines, nonblank_lines.
    induction (Py.split Py.newline text) as [|line lines IH]; [done|].
    cbn [List.filter]. rewrite has_tokens_nlp.
    destruct (nonblank line); cbn [andb]; [|exact IH].
    destruct (nlp line) as [|w ws] eqn:E; cbn [map concat].
    - rewrite E. exact IH.
    - by rewrite IH, line_words_texts. }
  destruct (Py.endswith Py.newline text); [done|by rewrite app_nil_r].
Qed.

(** The text that is encoded is the normal form of the tokens. *)
Lemma munge_text_normal_form text : munge_text nlp text = normal_form (tokens nlp text).
Proof. unfold munge_text, normal_form. by rewrite munge_words_tokens. Qed.

(** The tokenizer is faithful: see [tokenizer_faithful]. *)
Hypothesis nlp_faithful : tokenizer_faithful nlp.

(** The normal form of a text has the visible characters of the text. *)
Lemma visible_normal_form text : visible (normal_form (tokens nlp text)) = visible text.
Proof.
  unfold normal_form, tokens.
  rewrite visible_app, visible_join, concat_app, visible_app, !visible_concat.
  assert (concat (map visible
            (concat (map (fun line => map w_text (nlp line)) (nonblank_lines text))))
          = visible text) as ->.
  { rewrite <- visible_split. unfold nonblank_lines.
    induction (Py.split Py.newline text) as [|line lines IH]; [done|].
    cbn [List.filter map concat]. destruct (nonblank line) eqn:E.
    - cbn [map concat]. rewrite map_app, concat_app, IH. f_equal.
      by rewrite <- visible_concat, nlp_faithful.
    - by rewrite IH, (visible_blank line E). }
  destruct (Py.endswith Py.newline text); cbn; by rewrite !app_nil_r.
Qed.

(** C1 (round trip).  For every pair of texts, [diff_wordMode]
    returns a run sequence; the texts of its equal and
    deleteFromText1 runs, concatenated in order, are the first text
    in boundary-marker normal form, that is the tokens that the
    tokenizer finds in the text, joined on single spaces, with the
    trailing boundary; they have exactly the characters of the first
    text that are not white space, in order.  The texts of its equal
    and insertFromText2 runs are the second text in the same way. *)
Theorem diff_wordMode_round_trip text1 text2 :
  exists diff char_diff offsets,
    diff_wordMode nlp diff_main text1 text2 = Ok (diff, char_diff, offsets) /\
    text1_of diff = normal_form (tokens nlp text1) /\
    text2_of diff = normal_form (tokens nlp text2) /\
    visible (text1_of diff) = visible text1 /\
    visible (text2_of diff) = visible text2.
Proof.
  destruct (diff_wordMode_spec text1 text2)
    as (d & c1 & c2 & la & _ & E & _ & Hs & Hd1 & Hd2).
  destruct (diff_main_ok c1 c2) as [H1 H2].
  exists d, (diff_main c1 c2), (snd (tokenize_lines nlp text1), snd (tokenize_lines nlp text2)).
  split; [done|]. unfold text1_of, text2_of in *.
  rewrite !Hs, H1, H2, Hd1, Hd2, !munge_text_normal_form, !visible_normal_form. done.
Qed.

Lemma munge_text_empty : munge_text nlp [] = [Py.space].
Proof. reflexivity. Qed.

(** C7 (amended).  A text without tokens is encoded, on either side
    of the diff and without error, as exactly one symbol, the one
    of the boundary chunk that stands for the text ([" "], or
    ["\n "] when the text ends with a newline), together with an
    empty offset list. *)
Theorem codec_without_tokens text other :
  fst (tokenize_lines nlp text) = [] ->
  (exists c chars2 la offsets2,
      diff_wordsToChars nlp text other = Ok ([c], chars2, la, ([], offsets2)) /\
      la !! c = Some (boundary_chunk text)) /\
  (exists chars1 c la offsets1,
      diff_wordsToChars nlp other text = Ok (chars1, [c], la, (offsets1, [])) /\
      la !! c = Some (boundary_chunk text)).
Proof.
  intros Hw.
  assert (forall la cs, in_range la cs -> length cs = 1 ->
            decode la cs = boundary_chunk text ->
            exists c, cs = [c] /\ la !! c = Some (boundary_chunk text)) as Hone.
  { intros la [|c [|? ?]] Hr Hl Hd; try done. exists c. split; [done|].
    apply Forall_inv in Hr. destruct (lookup_lt_is_Some_2 la c Hr) as [x Hx].
    unfold decode in Hd. cbn in Hd. rewrite Hx, app_nil_r in Hd. cbn in Hd.
    by rewrite Hx, Hd. }
  split.
  - destruct (diff_wordsToChars_spec text other)
      as (c1 & c2 & la & E & Hr1 & _ & Hd1 & _ & Hl1 & _).
    rewrite (munge_text_no_words _ Hw) in Hd1.
    destruct (Hone la c1 Hr1 (Hl1 Hw) Hd1) as (c & -> & Hc).
    rewrite (no_words_no_offsets _ Hw) in E. by exists c, c2, la, (snd (tokenize_lines nlp other)).
  - destruct (diff_wordsToChars_spec other text)
      as (c1 & c2 & la & E & _ & Hr2 & _ & Hd2 & _ & Hl2).
    rewrite (munge_text_no_words _ Hw) in Hd2.
    destruct (Hone la c2 Hr2 (Hl2 Hw) Hd2) as (c & -> & Hc).
    rewrite (no_words_no_offsets _ Hw) in E. by exists c1, c, la, (snd (tokenize_lines nlp other)).
Qed.

(** The tokenizer returns at least one token on a line that is not
    blank. *)
Hypothesis nlp_nonblank : forall line, Py.strip line <> [] -> nlp line <> [].

Lemma has_tokens_nonblank line : has_tokens line = nonblank line.
Proof.
  unfold has_tokens, nonblank, word_tuples.
  destruct (Py.strip line) eqn:E; [done|].
  destruct (nlp line) eqn:En; [|done].
  exfalso. apply (nlp_nonblank line); [by rewrite E|done].
Qed.

Lemma token_lines_nonblank text : token_lines text = nonblank_lines text.
Proof.
  unfold token_lines, nonblank_lines. apply filter_ext.
  intros line. apply has_tokens_nonblank.
Qed.

Lemma line_words_nonempty line : nonblank line = true -> 0 < length (line_words line).
Proof.
  unfold nonblank, line_words, word_tuples. rewrite !length_map.
  destruct (Py.strip line) eqn:E; [done|]. intros _.
  destruct (nlp line) eqn:En; [|cbn; lia].
  exfalso. apply (nlp_nonblank line); [by rewrite E|done].
Qed.

Lemma last_le_concat (ls : list str) l :
  last ls = Some l ->
  length (line_offsets l) <= length (concat (map line_words ls)).
Proof.
  induction ls as [|x ls IH]; [done|].
  rewrite last_cons. cbn. rewrite length_app.
  destruct (last ls) as [y|] eqn:E.
  - intros [= <-]. specialize (IH eq_refl). lia.
  - intros [= <-]. unfold line_offsets, line_words. rewrite !length_map. lia.
Qed.


End Codec.

End DiffFacts.

Module SampleFacts.
Import DiffSpec DiffFacts.

Lemma common_prefix_spec a : forall b p a1 b1,
  Sample.common_prefix a b = (p, (a1, b1)) -> a = p ++ a1 /\ b = p ++ b1.
Proof.
  induction a as [|x a IH]; intros [|y b] p a1 b1; cbn;
    try (intros [= <- <- <-]; done).
  destruct (decide (x = y)) as [->|]; [|intros [= <- <- <-]; done].
  destruct (Sample.common_prefix a b) as [p' [a' b']] eqn:E.
  intros [= <- <- <-]. destruct (IH _ _ _ _ E) as [-> ->]. done.
Qed.

Lemma side_text_app {A} skip (d1 d2 : list (op * list A)) :
  side_text skip (d1 ++ d2) = side_text skip d1 ++ side_text skip d2.
Proof.
  induction d1 as [|[o s] d1 IH]; [done|].
  cbn. destruct (decide (o = skip)); [done|]. by rewrite IH, app_assoc.
Qed.

Lemma side_text_run skip o cs :
  side_text skip (Sample.run o cs) = if decide (o = skip) then [] else cs.
Proof.
  destruct cs; cbn; destruct (decide (o = skip)); try done.
  by rewrite app_nil_r.
Qed.

Lemma sample_diff_main_contract : diff_main_contract Sample.diff_main.
Proof.
  intros a b. unfold Sample.diff_main, text1_of, text2_of.
  destruct (Sample.common_prefix a b) as [p [a1 b1]] eqn:E1.
  destruct (Sample.common_prefix (rev a1) (rev b1)) as [s [a2 b2]] eqn:E2.
  apply common_prefix_spec in E1 as [-> ->].
  apply common_prefix_spec in E2 as [Ha Hb].
  apply (f_equal (@rev nat)) in Ha, Hb. rewrite rev_involutive, rev_app_distr in Ha, Hb.
  rewrite !side_text_app, !side_text_run. cbn.
  rewrite Ha, Hb. by rewrite ?app_nil_r.
Qed.

Lemma common_prefix_maximal a : forall b p a1 b1,
  Sample.common_prefix a b = (p, (a1, b1)) -> a1 = b1 -> a1 = [].
Proof.
  induction a as [|x a IH]; intros [|y b] p a1 b1; cbn;
    try (intros [= <- <- <-]; done).
  destruct (decide (x = y)) as [->|Hne]; [|by intros [= <- <- <-] [= ? ?]].
  destruct (Sample.common_prefix a b) as [p' [a' b']] eqn:E.
  intros [= <- <- <-]. by apply (IH _ _ _ _ E).
Qed.

Lemma run_nonempty o cs : Forall (fun r : op * list nat => r.2 <> []) (Sample.run o cs).
Proof. destruct cs; cbn; [constructor|]. by repeat constructor. Qed.

Lemma ops_run o cs : map fst (Sample.run o cs) = if decide (cs = []) then [] else [o].
Proof. by destruct cs. Qed.

(** The sample diff returns merged runs, as [dmp.diff_main] does. *)
Lemma sample_diff_main_clean : diff_main_clean Sample.diff_main.
Proof.
  intros a b. unfold Sample.diff_main.
  destruct (Sample.common_prefix a b) as [p [a1 b1]] eqn:E1.
  destruct (Sample.common_prefix (rev a1) (rev b1)) as [s [a2 b2]] eqn:E2.
  split.
  { repeat (apply Forall_app; split); apply run_nonempty. }
  rewrite !map_app, !ops_run.
  destruct (decide (rev a2 = [])) as [Ha2|]; destruct (decide (rev b2 = [])) as [Hb2|];
    destruct (decide (p = [])); destruct (decide (rev s = [])) as [|Hs];
    try (vm_compute; reflexivity).
  all: exfalso; apply Hs.
  all: apply (f_equal (@rev nat)) in Ha2, Hb2; rewrite rev_involutive in Ha2, Hb2;
    cbn in Ha2, Hb2; subst a2 b2.
  all: apply common_prefix_spec in E2 as [Ha Hb]; rewrite app_nil_r in Ha, Hb.
  all: assert (a1 = b1) as Heq
         by (apply (f_equal (@rev nat)) in Ha, Hb; rewrite rev_involutive in Ha, Hb;
             congruence).
  all: pose proof (common_prefix_maximal _ _ _ _ _ E1 Heq) as Hnil; subst a1 b1;
    cbn in Ha; by subst s.
Qed.

Lemma sample_words_visible s : forall idx cur,
  visible (concat (map w_text (Sample.words_from idx cur s))) = visible (rev cur ++ s).
Proof.
  induction s as [|c s IH]; intros idx cur; cbn [Sample.words_from].
  - destruct cur; [done|]. cbn [map concat w_text]. by rewrite app_nil_r.
  - destruct (Py.isspace c) eqn:E.
    + assert (visible (c :: s) = visible s) as Hc
        by (unfold visible; cbn [List.filter]; by rewrite E).
      destruct cur as [|x cur].
      * rewrite IH. cbn [rev app]. by rewrite Hc.
      * cbn [map concat w_text]. rewrite !visible_app, IH. cbn [rev app]. by rewrite Hc.
    + rewrite IH. cbn [rev]. by rewrite <- app_assoc.
Qed.

(** The sample tokenizer loses no visible character. *)
Lemma sample_nlp_faithful : tokenizer_faithful Sample.nlp.
Proof. intros line. unfold Sample.nlp. by rewrite sample_words_visible. Qed.

End SampleFacts.

(** The cases of [tests/test_find_diffs.py]. *)
Module Tests.
Import Examples.

Example test_deletes_end :
  diff_of "This should show something being deleted" "This should show something being"
  = Ok [(0, "This should show something being "); (-1, "deleted ")]%Z%string.
Proof. vm_compute. reflexivity. Qed.

Example test_deletes_middle :
  diff_of "Deletion in the middle" "Deletion in middle"
  = Ok [(0, "Deletion in "); (-1, "the "); (0, "middle ")]%Z%string.
Proof. vm_compute. reflexivity. Qed.

Example test_inserts_middle :
  diff_of "Insertion in the middle" "Insertion here in the middle"
  = Ok [(0, "Insertion "); (1, "here "); (0, "in the middle ")]%Z%string.
Proof. vm_compute. reflexivity. Qed.

Example test_substitutes_middle :
  diff_of "Substitution in the middle" "Substitution in ze middle"
  = Ok [(0, "Substitution in "); (-1, "the "); (1, "ze "); (0, "middle ")]%Z%string.
Proof. vm_compute. reflexivity. Qed.

Example test_inserts_end :
  diff_of "Insertion at the end" "Insertion at the end here"
  = Ok [(0, "Insertion at the end "); (1, "here ")]%Z%string.
Proof. vm_compute. reflexivity. Qed.

Example test_substitutes_end :
  diff_of "Now here we have a substitution" "Now here we have a substitute"
  = Ok [(0, "Now here we have a "); (-1, "substitution "); (1, "substitute ")]%Z%string.
Proof. vm_compute. reflexivity. Qed.

Example test_substitutes_end_disjoint :
  diff_of "Now this is another sub" "Now this is another lam"
  = Ok [(0, "Now this is another "); (-1, "sub "); (1, "lam ")]%Z%string.
Proof. vm_compute. reflexivity. Qed.

Example test_substitutes_middle_disjoint :
  diff_of "Substitution in the middle" "Substitution in a middle"
  = Ok [(0, "Substitution in "); (-1, "the "); (1, "a "); (0, "middle ")]%Z%string.
Proof. vm_compute. reflexivity. Qed.

End Tests.

(** Witness of the round trip on a concrete pair of sentences. *)
Lemma diff_wordMode_round_trip_witness :
  exists diff char_diff offsets,
    Diff.diff_wordMode Sample.nlp Sample.diff_main
      (Py.lit "Deletion in the middle") (Py.lit "Deletion in middle")
    = Ok (diff, char_diff, offsets) /\
    DiffSpec.text1_of diff
    = DiffSpec.normal_form (DiffSpec.tokens Sample.nlp (Py.lit "Deletion in the middle")) /\
    DiffSpec.text2_of diff
    = DiffSpec.normal_form (DiffSpec.tokens Sample.nlp (Py.lit "Deletion in middle")) /\
    DiffSpec.visible (DiffSpec.text1_of diff)
    = DiffSpec.visible (Py.lit "Deletion in the middle") /\
    DiffSpec.visible (DiffSpec.text2_of diff)
    = DiffSpec.visible (Py.lit "Deletion in middle").
Proof.
  apply (DiffFacts.diff_wordMode_round_trip Sample.nlp Sample.diff_main
           SampleFacts.sample_diff_main_contract SampleFacts.sample_nlp_faithful).
Defined.

Module SampleTokenizer.

Lemma words_from_nil s : forall idx cur,
  Sample.words_from idx cur s = [] -> cur = [] /\ Py.lstrip s = [].
Proof.
  induction s as [|c s IH]; intros idx cur; cbn.
  - by destruct cur.
  - destruct (Py.isspace c).
    + destruct cur; [|done]. intros H. by apply IH in H.
    + intros H. by apply IH in H as [? _].
Qed.

Lemma sample_nlp_nonblank line : Py.strip line <> [] -> Sample.nlp line <> [].
Proof.
  intros Hs Hn. apply Hs. unfold Sample.nlp in Hn.
  apply words_from_nil in Hn as [_ Hl]. unfold Py.strip. by rewrite Hl.
Qed.

End SampleTokenizer.

(** C7 as the specification states it fails on the empty string: its
    symbol string is not empty. *)
Lemma empty_text_symbol_string :
  ~ (exists chars2 la offsets,
        Diff.diff_wordsToChars Sample.nlp [] [] = Ok ([], chars2, la, offsets)).
Proof. intros (c2 & la & o & H). vm_compute in H. discriminate. Qed.

Lemma codec_without_tokens_witness :
  fst (Diff.tokenize_lines Sample.nlp (Py.lit "  ")) = [] /\
  (exists c chars2 la offsets2,
      Diff.diff_wordsToChars Sample.nlp (Py.lit "  ") (Py.lit "two words")
      = Ok ([c], chars2, la, ([], offsets2)) /\
      la !! c = Some (DiffSpec.boundary_chunk (Py.lit "  "))) /\
  (exists chars1 c la offsets1,
      Diff.diff_wordsToChars Sample.nlp (Py.lit "two words") (Py.lit "  ")
      = Ok (chars1, [c], la, (offsets1, [])) /\
      la !! c = Some (DiffSpec.boundary_chunk (Py.lit "  "))).
Proof.
  split; [reflexivity|].
  apply (DiffFacts.codec_without_tokens Sample.nlp (Py.lit "  ") (Py.lit "two words")).
  reflexivity.
Defined.



(** On the two-line text the returned offsets are those of ["three"]
    alone, although three tokens are encoded. *)
Example two_lines_offsets :
  Diff.diff_wordsToChars Sample.nlp Examples.two_lines Examples.two_lines
  = Ok ([1; 2; 3], [1; 2; 3],
        [[]; Py.lit "one "; Py.lit "two "; Py.lit "three "],
        ([(0, 5)], [(0, 5)])%Z).
Proof. vm_compute. reflexivity. Qed.

Module EditsFacts.
Import Edits EditsSpec.

Lemma spec_classify_head ops :
  head (spec_classify ops) = Some insertion -> head ops = Some DIFF_INSERT.
Proof. destruct ops as [|[] [|[] ?]]; cbn; congruence. Qed.

Lemma count_kind_cons kind x l :
  count_kind kind (x :: l) = (if decide (x = kind) then 1 else 0) + count_kind kind l.
Proof. unfold count_kind. cbn. by case_bool_decide; destruct (decide (x = kind)). Qed.

Lemma spec_classify_deletion rest :
  head rest <> Some DIFF_INSERT ->
  spec_classify (DIFF_DELETE :: rest) = deletion :: spec_classify rest.
Proof. by destruct rest as [|[] ?]. Qed.

Lemma spec_classify_props n : forall ops,
  length ops <= n ->
  no_deletion_then_insertion (spec_classify ops) /\
  length (spec_classify ops) + count_kind substitution (spec_classify ops) = length ops.
Proof.
  induction n as [|n IH]; intros ops Hn.
  { destruct ops; [|cbn in Hn; lia]. split; [by intros k|done]. }
  destruct ops as [|o rest]; [split; [by intros k|done]|].
  cbn in Hn.
  assert (forall kind, kind <> deletion ->
            no_deletion_then_insertion (kind :: spec_classify rest)) as Hother.
  { intros kind Hk [|k]; cbn; [congruence|]. apply IH. lia. }
  assert (head rest <> Some DIFF_INSERT ->
          no_deletion_then_insertion (deletion :: spec_classify rest)) as Hdel.
  { intros Hh [|k]; cbn.
    - intros _ Hi. apply Hh, spec_classify_head.
      by destruct (spec_classify rest) as [|? ?]; cbn in *; [|injection Hi as ->].
    - apply IH. lia. }
  destruct (IH rest ltac:(lia)) as [_ Hlen].
  destruct (decide (o = DIFF_DELETE /\ head rest = Some DIFF_INSERT)) as [[-> Hh]|Hnot].
  - destruct rest as [|o' rest']; [done|]. cbn in Hh. injection Hh as ->.
    cbn [spec_classify]. destruct (IH rest' ltac:(cbn in Hn; lia)) as [Hno Hlen'].
    split.
    + intros [|k]; cbn; [congruence|]. apply Hno.
    + rewrite count_kind_cons. case_decide; [|done]. cbn in *. lia.
  - destruct o.
    + assert (head rest <> Some DIFF_INSERT) as Hh by tauto.
      rewrite (spec_classify_deletion _ Hh). split; [by apply Hdel|].
      rewrite count_kind_cons. case_decide; [done|]. cbn in *. lia.
    + cbn [spec_classify]. split; [by apply Hother|]. rewrite count_kind_cons. case_decide; [done|]. cbn in *. lia.
    + cbn [spec_classify]. split; [by apply Hother|]. rewrite count_kind_cons. case_decide; [done|]. cbn in *. lia.
Qed.

Section Facts.
Variable format_edit : str -> edit_kind -> str.
Variables content1 content2 : str.

Local Abbreviation emit_substitution := (emit_substitution format_edit content1 content2).
Local Abbreviation emit_deletion := (emit_deletion format_edit content1 content2).
Local Abbreviation emit_insertion := (emit_insertion format_edit content1 content2).
Local Abbreviation emit_same := (emit_same content1 content2).
Local Abbreviation classify := (classify format_edit content1 content2).
Local Abbreviation handle_loop := (handle_loop format_edit content1 content2).
Local Abbreviation handle_diff := (handle_diff format_edit content1 content2).

(** Each branch appends exactly one record, of its own kind. *)
Lemma emit_substitution_edits st s s' n n' :
  exists r, edit_dicts (emit_substitution st s s' n n') = edit_dicts st ++ [r] /\
            edit_type r = substitution.
Proof.
  unfold Edits.emit_substitution, append_edit.
  destruct (deque (offsets1 st) s n), (deque (offsets2 st) s n'). cbn. eauto.
Qed.

Lemma emit_deletion_edits st s n :
  exists r, edit_dicts (emit_deletion st s n) = edit_dicts st ++ [r] /\
            edit_type r = deletion /\ offset2 r = sentinel /\ text2 r = [].
Proof.
  unfold Edits.emit_deletion, append_edit.
  destruct (deque (offsets1 st) s n). cbn. eauto.
Qed.

Lemma emit_insertion_edits st s n :
  exists r, edit_dicts (emit_insertion st s n) = edit_dicts st ++ [r] /\
            edit_type r = insertion /\ offset1 r = sentinel /\ text1 r = [].
Proof.
  unfold Edits.emit_insertion, append_edit.
  destruct (deque (offsets2 st) s n). cbn. eauto.
Qed.

Lemma emit_same_edits st s n :
  exists r, edit_dicts (emit_same st s n) = edit_dicts st ++ [r] /\
            edit_type r = same.
Proof.
  unfold Edits.emit_same, append_edit.
  destruct (deque (offsets1 st) s n), (deque (offsets2 st) s n). cbn. eauto.
Qed.

(** The records that the recursion over the runs appends follow the
    specification's classification and keep the sentinels. *)
Lemma classify_edits n : forall runs st,
  length runs <= n ->
  exists new,
    edit_dicts (classify runs st) = edit_dicts st ++ new /\
    map edit_type new = spec_classify (ops_of runs) /\
    Forall sentinel_ok new.
Proof.
  induction n as [|n IH]; intros runs st Hn.
  { destruct runs; [|cbn in Hn; lia]. exists []. by rewrite app_nil_r. }
  destruct runs as [|[[o s] k] rest]; [exists []; by rewrite app_nil_r|].
  cbn in Hn.
  assert (forall st' r kind,
            edit_dicts st' = edit_dicts st ++ [r] -> edit_type r = kind -> sentinel_ok r ->
            forall runs', length runs' <= n ->
            exists new, edit_dicts (classify runs' st') = edit_dicts st ++ new /\
                        map edit_type new = kind :: spec_classify (ops_of runs') /\
                        Forall sentinel_ok new) as Hstep.
  { intros st' r kind Hr Hk Hs runs' Hl.
    destruct (IH runs' st' Hl) as (new & E & Hm & Hf).
    exists (r :: new). rewrite E, Hr, <- app_assoc. cbn. rewrite Hm, Hk.
    repeat split; try done. by constructor. }
  destruct o.
  - destruct (emit_deletion_edits st (Py.strip s) k) as (r & Hr & Hk & Ho & Ht).
    assert (sentinel_ok r) as Hs by (unfold sentinel_ok; by rewrite Hk).
    destruct rest as [|[[o' s'] k'] rest'].
    + exact (Hstep _ r deletion Hr Hk Hs [] ltac:(cbn; lia)).
    + destruct o'.
      * exact (Hstep _ r deletion Hr Hk Hs ((DIFF_DELETE, s', k') :: rest') ltac:(cbn in *; lia)).
      * exact (Hstep _ r deletion Hr Hk Hs ((DIFF_EQUAL, s', k') :: rest') ltac:(cbn in *; lia)).
      * destruct (emit_substitution_edits st (Py.strip s) (Py.strip s') k k') as (r' & Hr' & Hk').
        assert (sentinel_ok r') as Hs' by (unfold sentinel_ok; by rewrite Hk').
        exact (Hstep _ r' substitution Hr' Hk' Hs' rest' ltac:(cbn in *; lia)).
  - destruct (emit_same_edits st (Py.strip s) k) as (r & Hr & Hk).
    assert (sentinel_ok r) as Hs by (unfold sentinel_ok; by rewrite Hk).
    exact (Hstep _ r same Hr Hk Hs rest ltac:(lia)).
  - destruct (emit_insertion_edits st (Py.strip s) k) as (r & Hr & Hk & Ho & Ht).
    assert (sentinel_ok r) as Hs by (unfold sentinel_ok; by rewrite Hk).
    exact (Hstep _ r insertion Hr Hk Hs rest ltac:(lia)).
Qed.

Lemma zip_lookup (diff : list (op * str)) (ntl : list nat) i r k :
  diff !! i = Some r -> ntl !! i = Some k -> zip diff ntl !! i = Some (r, k).
Proof. intros Hr Hk. apply lookup_zip_with_Some. eauto. Qed.

(** With one token count per run, the index loop never raises, ends
    within its fuel, and computes the recursion over the runs. *)
Lemma handle_loop_classify diff ntl :
  length ntl = length diff ->
  forall fuel i st,
    length diff - i <= fuel ->
    handle_loop fuel diff ntl i st = Ok (classify (drop i (zip diff ntl)) st).
Proof.
  intros Hlen.
  assert (forall i, length diff <= i -> drop i (zip diff ntl) = []) as Hend.
  { intros i Hi. apply drop_ge. rewrite length_zip. lia. }
  induction fuel as [|fuel IH]; intros i st Hf.
  { cbn. destruct (decide _); [lia|]. by rewrite Hend by lia. }
  cbn [Edits.handle_loop].
  destruct (decide (Z.of_nat i <= Z.of_nat (length diff) - 1)%Z) as [Hle|Hgt];
    [|by rewrite Hend by lia].
  destruct (lookup_lt_is_Some_2 diff i) as [[o s] Hd]; [lia|].
  destruct (lookup_lt_is_Some_2 ntl i) as [k Hk]; [lia|].
  rewrite Hd, Hk. cbn [of_option mbind result_bind].
  rewrite (drop_S _ _ _ (zip_lookup _ _ _ _ _ Hd Hk)).
  replace (i + 1) with (S i) by lia. replace (i + 2) with (S (S i)) by lia.
  destruct o.
  - destruct (decide (Z.of_nat i < Z.of_nat (length diff) - 1)%Z) as [Hlt|Hlast].
    + destruct (lookup_lt_is_Some_2 diff (S i)) as [[o' s'] Hd']; [lia|].
      destruct (lookup_lt_is_Some_2 ntl (S i)) as [k' Hk']; [lia|].
      rewrite Hd'. cbn [of_option mbind result_bind].
      rewrite (drop_S _ _ _ (zip_lookup _ _ _ _ _ Hd' Hk')).
      destruct o'; cbn [Edits.classify]; rewrite ?Hk'; cbn [of_option mbind result_bind].
      * rewrite IH by lia. by rewrite (drop_S _ _ _ (zip_lookup _ _ _ _ _ Hd' Hk')).
      * rewrite IH by lia. by rewrite (drop_S _ _ _ (zip_lookup _ _ _ _ _ Hd' Hk')).
      * by rewrite IH by lia.
    + cbn [mbind result_bind]. rewrite IH by lia. by rewrite Hend by lia.
  - cbn [Edits.classify]. by rewrite IH by lia.
  - cbn [Edits.classify]. by rewrite IH by lia.
Qed.

(** Whatever the token counts, a run of the loop that returns has only
    appended records that keep the sentinels. *)
Lemma handle_loop_sentinel diff ntl fuel : forall i st st',
  handle_loop fuel diff ntl i st = Ok st' ->
  Forall sentinel_ok (edit_dicts st) -> Forall sentinel_ok (edit_dicts st').
Proof.
  induction fuel as [|fuel IH]; intros i st st'; cbn [Edits.handle_loop];
    destruct (decide _); try done; try (by intros [= <-]).
  destruct (diff !! i) as [[o s]|]; cbn [of_option mbind result_bind]; [|done].
  destruct (ntl !! i) as [k|]; cbn [of_option mbind result_bind]; [|done].
  assert (forall st1 r, edit_dicts st1 = edit_dicts st ++ [r] -> sentinel_ok r ->
            forall j, handle_loop fuel diff ntl j st1 = Ok st' ->
            Forall sentinel_ok (edit_dicts st) -> Forall sentinel_ok (edit_dicts st')) as Hstep.
  { intros st1 r Hr Hs j Hrun Hall. apply (IH _ _ _ Hrun).
    rewrite Hr. apply Forall_app. split; [done|by constructor]. }
  assert (forall j, handle_loop fuel diff ntl j (emit_deletion st (Py.strip s) k) = Ok st' ->
            Forall sentinel_ok (edit_dicts st) -> Forall sentinel_ok (edit_dicts st')) as Hdel.
  { destruct (emit_deletion_edits st (Py.strip s) k) as (r & Hr & Hk & Ho & Ht).
    apply (Hstep _ r Hr). unfold sentinel_ok. by rewrite Hk. }
  destruct o.
  - destruct (decide _); cbn [mbind result_bind]; [|apply Hdel].
    destruct (diff !! (i + 1)) as [[o' s']|]; cbn [of_option mbind result_bind]; [|done].
    destruct o'; try apply Hdel.
    destruct (ntl !! (i + 1)) as [k'|]; cbn [of_option mbind result_bind]; [|done].
    destruct (emit_substitution_edits st (Py.strip s) (Py.strip s') k k') as (r & Hr & Hk).
    apply (Hstep _ r Hr). unfold sentinel_ok. by rewrite Hk.
  - destruct (emit_same_edits st (Py.strip s) k) as (r & Hr & Hk).
    apply (Hstep _ r Hr). unfold sentinel_ok. by rewrite Hk.
  - destruct (emit_insertion_edits st (Py.strip s) k) as (r & Hr & Hk & Ho & Ht).
    apply (Hstep _ r Hr). unfold sentinel_ok. by rewrite Hk.
Qed.

Lemma handle_diff_sentinel diff char_diff offsets1 offsets2 n html1 html2 eds n' :
  handle_diff diff char_diff offsets1 offsets2 n = Ok (html1, html2, eds, n') ->
  Forall sentinel_ok eds.
Proof.
  unfold Edits.handle_diff.
  destruct (num_tokens_of char_diff) as [ntl| |]; cbn [mbind result_bind]; [|done|done].
  destruct (Edits.handle_loop _ _ _ _ _ _ _ _) as [st| |] eqn:E;
    cbn [mbind result_bind]; [|done|done].
  intros [= _ _ <- _]. apply (handle_loop_sentinel _ _ _ _ _ _ E). constructor.
Qed.

(** [handle_diff] on a diff and its symbol-level copy. *)
Lemma handle_diff_classify diff char_diff offsets1 offsets2 n :
  length char_diff = length diff -> diff <> [] ->
  exists st,
    st = classify (zip diff (map (fun r => length r.2) char_diff))
           {| html1 := []; html2 := []; edit_dicts := [];
              offsets1 := offsets1; offsets2 := offsets2; num_edits := n |} /\
    handle_diff diff char_diff offsets1 offsets2 n
    = Ok (Py.join [Py.space] (html1 st), Py.join [Py.space] (html2 st),
          edit_dicts st, num_edits st).
Proof.
  intros Hlen Hne. eexists. split; [reflexivity|].
  unfold Edits.handle_diff, num_tokens_of.
  destruct char_diff as [|c cs]; [by destruct diff|].
  cbn [mbind result_bind].
  rewrite handle_loop_classify; [done| |lia].
  by rewrite length_map.
Qed.

Lemma ops_of_zip (diff : list (op * str)) (ntl : list nat) :
  length ntl = length diff -> ops_of (zip diff ntl) = map fst diff.
Proof.
  revert ntl. induction diff as [|[o s] diff IH]; intros [|k ntl]; cbn; try done.
  intros [= Hl]. by rewrite <- (IH ntl Hl).
Qed.

(** C2 (substitution merge).  On a run sequence and its symbol-level
    copy, [handle_diff] returns records whose kinds are the
    specification's classification of the runs: a deleteFromText1 run
    directly followed by an insertFromText2 run gives one substitution
    record that takes both runs (records and substitutions together
    account for every run), and no deletion record is directly followed
    by an insertion record. *)
Theorem substitution_merge diff char_diff offsets1 offsets2 n :
  length char_diff = length diff -> diff <> [] ->
  exists html1 html2 eds n',
    handle_diff diff char_diff offsets1 offsets2 n = Ok (html1, html2, eds, n') /\
    map edit_type eds = spec_classify (map fst diff) /\
    no_deletion_then_insertion (map edit_type eds) /\
    length eds + count_kind substitution (map edit_type eds) = length diff.
Proof.
  intros Hlen Hne.
  destruct (handle_diff_classify diff char_diff offsets1 offsets2 n Hlen Hne)
    as (st & Hst & E).
  set (ntl := map (fun r : op * list nat => length r.2) char_diff) in *.
  assert (length ntl = length diff) as Hntl by (subst ntl; by rewrite length_map).
  destruct (classify_edits (length (zip diff ntl)) (zip diff ntl)
              {| html1 := []; html2 := []; edit_dicts := [];
                 offsets1 := offsets1; offsets2 := offsets2; num_edits := n |})
    as (new & Hnew & Hkinds & _); [done|].
  cbn [edit_dicts app] in Hnew. rewrite <- Hst in Hnew.
  rewrite ops_of_zip in Hkinds by done.
  destruct (spec_classify_props (length (map fst diff)) (map fst diff)) as [Hno Hcount]; [done|].
  exists (Py.join [Py.space] (html1 st)), (Py.join [Py.space] (html2 st)),
    (edit_dicts st), (num_edits st).
  subst new. rewrite Hkinds. repeat split; try done.
  rewrite <- (length_map edit_type (edit_dicts st)), Hkinds, Hcount.
  by rewrite length_map.
Qed.

(** A property of the appended records that follows from an invariant
    of the loop state. *)
Lemma classify_invariant (I : loop_state -> Prop) (P : edit_dict -> Prop) :
  (forall st s s' k k', I st ->
     I (emit_substitution st s s' k k') /\
     exists r, edit_dicts (emit_substitution st s s' k k') = edit_dicts st ++ [r] /\ P r) ->
  (forall st s k, I st ->
     I (emit_deletion st s k) /\
     exists r, edit_dicts (emit_deletion st s k) = edit_dicts st ++ [r] /\ P r) ->
  (forall st s k, I st ->
     I (emit_insertion st s k) /\
     exists r, edit_dicts (emit_insertion st s k) = edit_dicts st ++ [r] /\ P r) ->
  (forall st s k, I st ->
     I (emit_same st s k) /\
     exists r, edit_dicts (emit_same st s k) = edit_dicts st ++ [r] /\ P r) ->
  forall n runs st, length runs <= n -> I st ->
    exists new, edit_dicts (classify runs st) = edit_dicts st ++ new /\ Forall P new.
Proof.
  intros Hsub Hdel Hins Hsame.
  induction n as [|n IH]; intros runs st Hn HI.
  { destruct runs; [|cbn in Hn; lia]. exists []. by rewrite app_nil_r. }
  destruct runs as [|[[o s] k] rest]; [exists []; by rewrite app_nil_r|].
  cbn in Hn.
  assert (forall st', I st' ->
            (exists r, edit_dicts st' = edit_dicts st ++ [r] /\ P r) ->
            forall runs', length runs' <= n ->
            exists new, edit_dicts (classify runs' st') = edit_dicts st ++ new /\
                        Forall P new) as Hstep.
  { intros st' HI' (r & Hr & HP) runs' Hl.
    destruct (IH runs' st' Hl HI') as (new & E & Hf).
    exists (r :: new). rewrite E, Hr, <- app_assoc. split; [done|by constructor]. }
  destruct o.
  - destruct (Hdel st (Py.strip s) k HI) as [HI' Hr].
    destruct rest as [|[[o' s'] k'] rest'].
    + exact (Hstep _ HI' Hr [] ltac:(cbn; lia)).
    + destruct o'.
      * exact (Hstep _ HI' Hr ((DIFF_DELETE, s', k') :: rest') ltac:(cbn in *; lia)).
      * exact (Hstep _ HI' Hr ((DIFF_EQUAL, s', k') :: rest') ltac:(cbn in *; lia)).
      * destruct (Hsub st (Py.strip s) (Py.strip s') k k' HI) as [HI'' Hr'].
        exact (Hstep _ HI'' Hr' rest' ltac:(cbn in *; lia)).
  - destruct (Hsame st (Py.strip s) k HI) as [HI' Hr].
    exact (Hstep _ HI' Hr rest ltac:(lia)).
  - destruct (Hins st (Py.strip s) k HI) as [HI' Hr].
    exact (Hstep _ HI' Hr rest ltac:(lia)).
Qed.

Lemma deque_nil s k : deque [] s k = (sentinel, []).
Proof. unfold deque. by rewrite take_nil, drop_nil. Qed.

Lemma deque_short first rest s k :
  length (first :: rest) < k ->
  deque (first :: rest) s k
  = ((first.1, ((List.last rest first).2 - Z.of_nat (quote_markers s))%Z), []).
Proof.
  intros Hk. unfold deque. rewrite take_ge, drop_ge by lia. cbn [fst].
  do 3 f_equal. by destruct rest.
Qed.

(** Once the offsets of the first text are used up, every record has
    the sentinel as its first span. *)
Lemma classify_exhausted1 runs st :
  offsets1 st = [] ->
  exists new, edit_dicts (classify runs st) = edit_dicts st ++ new /\
              Forall (fun r => offset1 r = sentinel) new.
Proof.
  apply (classify_invariant (fun st => offsets1 st = [])
           (fun r => offset1 r = sentinel)) with (n := length runs); [| | | |done].
  - intros st' s s' k k' H. unfold Edits.emit_substitution, append_edit.
    rewrite H, deque_nil. destruct (deque (offsets2 st') s k'). cbn. eauto.
  - intros st' s k H. unfold Edits.emit_deletion, append_edit.
    rewrite H, deque_nil. cbn. eauto.
  - intros st' s k H. unfold Edits.emit_insertion, append_edit.
    destruct (deque (offsets2 st') s k). cbn. eauto.
  - intros st' s k H. unfold Edits.emit_same, append_edit.
    rewrite H, deque_nil. destruct (deque (offsets2 st') s k). cbn. eauto.
Qed.

Lemma classify_exhausted2 runs st :
  offsets2 st = [] ->
  exists new, edit_dicts (classify runs st) = edit_dicts st ++ new /\
              Forall (fun r => offset2 r = sentinel) new.
Proof.
  apply (classify_invariant (fun st => offsets2 st = [])
           (fun r => offset2 r = sentinel)) with (n := length runs); [| | | |done].
  - intros st' s s' k k' H. unfold Edits.emit_substitution, append_edit.
    rewrite H, deque_nil. destruct (deque (offsets1 st') s k). cbn. eauto.
  - intros st' s k H. unfold Edits.emit_deletion, append_edit.
    destruct (deque (offsets1 st') s k). cbn. eauto.
  - intros st' s k H. unfold Edits.emit_insertion, append_edit.
    rewrite H, deque_nil. cbn. eauto.
  - intros st' s k H. unfold Edits.emit_same, append_edit.
    rewrite H, deque_nil. destruct (deque (offsets1 st') s k). cbn. eauto.
Qed.

Lemma deque_window l s k : deque l s k = (window_span (take k l) s, drop k l).
Proof.
  unfold deque, window_span. destruct (take k l) as [|first rest]; [done|].
  cbn [fst]. do 3 f_equal. by destruct rest.
Qed.

(** Each branch gives its record the spans of the windows that it
    takes, and leaves what comes after the windows. *)
Lemma emit_substitution_spans st s s' k k' :
  exists r, edit_dicts (emit_substitution st s s' k k') = edit_dicts st ++ [r] /\
            spans r = (window_span (take k (offsets1 st)) s,
                       window_span (take k' (offsets2 st)) s) /\
            offsets1 (emit_substitution st s s' k k') = drop k (offsets1 st) /\
            offsets2 (emit_substitution st s s' k k') = drop k' (offsets2 st).
Proof.
  unfold Edits.emit_substitution, append_edit. rewrite !deque_window. cbn. eauto.
Qed.

Lemma emit_deletion_spans st s k :
  exists r, edit_dicts (emit_deletion st s k) = edit_dicts st ++ [r] /\
            spans r = (window_span (take k (offsets1 st)) s, sentinel) /\
            offsets1 (emit_deletion st s k) = drop k (offsets1 st) /\
            offsets2 (emit_deletion st s k) = offsets2 st.
Proof.
  unfold Edits.emit_deletion, append_edit. rewrite !deque_window. cbn. eauto.
Qed.

Lemma emit_insertion_spans st s k :
  exists r, edit_dicts (emit_insertion st s k) = edit_dicts st ++ [r] /\
            spans r = (sentinel, window_span (take k (offsets2 st)) s) /\
            offsets1 (emit_insertion st s k) = offsets1 st /\
            offsets2 (emit_insertion st s k) = drop k (offsets2 st).
Proof.
  unfold Edits.emit_insertion, append_edit. rewrite !deque_window. cbn. eauto.
Qed.

Lemma emit_same_spans st s k :
  exists r, edit_dicts (emit_same st s k) = edit_dicts st ++ [r] /\
            spans r = (window_span (take k (offsets1 st)) s,
                       window_span (take k (offsets2 st)) s) /\
            offsets1 (emit_same st s k) = drop k (offsets1 st) /\
            offsets2 (emit_same st s k) = drop k (offsets2 st).
Proof.
  unfold Edits.emit_same, append_edit. rewrite !deque_window. cbn. eauto.
Qed.

(** The records that the recursion over the runs appends carry the
    spans of the windows that the runs take from the offset lists. *)
Lemma classify_spans n : forall runs st,
  length runs <= n ->
  exists new,
    edit_dicts (classify runs st) = edit_dicts st ++ new /\
    map spans new = expected_spans runs (offsets1 st) (offsets2 st).
Proof.
  induction n as [|n IH]; intros runs st Hn.
  { destruct runs; [|cbn in Hn; lia]. exists []. by rewrite app_nil_r. }
  destruct runs as [|[[o s] k] rest]; [exists []; by rewrite app_nil_r|].
  cbn in Hn.
  assert (forall st' r sp left1 left2,
            edit_dicts st' = edit_dicts st ++ [r] -> spans r = sp ->
            offsets1 st' = left1 -> offsets2 st' = left2 ->
            forall runs', length runs' <= n ->
            exists new, edit_dicts (classify runs' st') = edit_dicts st ++ new /\
                        map spans new = sp :: expected_spans runs' left1 left2)
    as Hstep.
  { intros st' r sp left1 left2 Hr <- <- <- runs' Hl.
    destruct (IH runs' st' Hl) as (new & E & Hm).
    exists (r :: new). rewrite E, Hr, <- app_assoc. cbn. by rewrite Hm. }
  destruct o.
  - destruct (emit_deletion_spans st (Py.strip s) k) as (r & Hr & Hsp & H1 & H2).
    destruct rest as [|[[o' s'] k'] rest'].
    + exact (Hstep _ r _ _ _ Hr Hsp H1 H2 [] ltac:(cbn; lia)).
    + destruct o'.
      * exact (Hstep _ r _ _ _ Hr Hsp H1 H2 ((DIFF_DELETE, s', k') :: rest')
                 ltac:(cbn in *; lia)).
      * exact (Hstep _ r _ _ _ Hr Hsp H1 H2 ((DIFF_EQUAL, s', k') :: rest')
                 ltac:(cbn in *; lia)).
      * destruct (emit_substitution_spans st (Py.strip s) (Py.strip s') k k')
          as (r' & Hr' & Hsp' & H1' & H2').
        exact (Hstep _ r' _ _ _ Hr' Hsp' H1' H2' rest' ltac:(cbn in *; lia)).
  - destruct (emit_same_spans st (Py.strip s) k) as (r & Hr & Hsp & H1 & H2).
    exact (Hstep _ r _ _ _ Hr Hsp H1 H2 rest ltac:(lia)).
  - destruct (emit_insertion_spans st (Py.strip s) k) as (r & Hr & Hsp & H1 & H2).
    exact (Hstep _ r _ _ _ Hr Hsp H1 H2 rest ltac:(lia)).
Qed.

(** C4 (amended).  Offset consumption never raises: on every run
    sequence with its symbol-level copy and on all offset lists,
    however short, [handle_diff] returns a record for every run of the
    classification, and goes on after an underrun.  The span of each
    record on a side is that of the window of entries that its run
    finds left on that side: the sentinel exactly when nothing is
    left (then for every later record too); when at least one entry
    but fewer than the token count remain, the span from the first
    remaining begin to the last remaining end, less the quote markers,
    and nothing is left for the runs after it. *)
Theorem offset_underrun diff char_diff offsets1 offsets2 n :
  length char_diff = length diff -> diff <> [] ->
  exists html1 html2 eds n',
    handle_diff diff char_diff offsets1 offsets2 n = Ok (html1, html2, eds, n') /\
    map edit_type eds = spec_classify (map fst diff) /\
    map spans eds
    = expected_spans (zip diff (map (fun r => length r.2) char_diff)) offsets1 offsets2 /\
    (offsets1 = [] -> Forall (fun r => offset1 r = sentinel) eds) /\
    (offsets2 = [] -> Forall (fun r => offset2 r = sentinel) eds).
Proof.
  intros Hlen Hne.
  destruct (handle_diff_classify diff char_diff offsets1 offsets2 n Hlen Hne)
    as (st & Hst & E).
  set (ntl := map (fun r : op * list nat => length r.2) char_diff) in *.
  set (st0 := {| html1 := []; html2 := []; edit_dicts := [];
                 offsets1 := offsets1; offsets2 := offsets2; num_edits := n |}) in *.
  assert (length ntl = length diff) as Hntl by (subst ntl; by rewrite length_map).
  destruct (classify_edits (length (zip diff ntl)) (zip diff ntl) st0)
    as (new & Hnew & Hkinds & _); [done|].
  cbn [edit_dicts app st0] in Hnew. rewrite <- Hst in Hnew. subst new.
  rewrite ops_of_zip in Hkinds by done.
  exists (Py.join [Py.space] (html1 st)), (Py.join [Py.space] (html2 st)),
    (edit_dicts st), (num_edits st).
  split; [done|]. split; [done|]. split; [|split].
  - destruct (classify_spans (length (zip diff ntl)) (zip diff ntl) st0)
      as (new & Hnew & Hspans); [done|].
    cbn [edit_dicts app st0] in Hnew. rewrite <- Hst in Hnew. by subst new.
  - intros ->. destruct (classify_exhausted1 (zip diff ntl) st0 eq_refl) as (new & E1 & H1).
    cbn [edit_dicts app st0] in E1. by rewrite Hst, E1.
  - intros ->. destruct (classify_exhausted2 (zip diff ntl) st0 eq_refl) as (new & E2 & H2).
    cbn [edit_dicts app st0] in E2. by rewrite Hst, E2.
Qed.

End Facts.

Lemma for_each_invariant {A B} (I : B -> Prop) (f : B -> A -> result B) :
  (forall b a b', f b a = Ok b' -> I b -> I b') ->
  forall l b b', for_each f l b = Ok b' -> I b -> I b'.
Proof.
  intros Hf. induction l as [|a l IH]; intros b b'; cbn.
  - by intros [= <-].
  - destruct (f b a) as [b1| |] eqn:E; cbn; [|done|done].
    intros Hrun Hb. apply (IH _ _ Hrun). by apply (Hf _ _ _ E).
Qed.

Lemma for_enumerate_invariant {A B} (I : B -> Prop) (f : B -> nat -> A -> result B) :
  (forall b i a b', f b i a = Ok b' -> I b -> I b') ->
  forall l i b b', for_enumerate f i l b = Ok b' -> I b -> I b'.
Proof.
  intros Hf. induction l as [|a l IH]; intros i b b'; cbn.
  - by intros [= <-].
  - destruct (f b i a) as [b1| |] eqn:E; cbn; [|done|done].
    intros Hrun Hb. apply (IH _ _ _ Hrun). by apply (Hf _ _ _ _ E).
Qed.

Section Unaligned.
Variable format_edit : str -> edit_kind -> str.
Variables sentence_offsets1 sentence_offsets2 : list (Z * Z).

(** The record that the unaligned-paragraph path writes for a sentence
    keeps the sentinels, and no other alignment entry is touched. *)
Lemma unaligned_sentence_ok kind paragraph_index sentences global_sent_indices js i js' :
  unaligned_sentence sentence_offsets1 sentence_offsets2 kind paragraph_index
    sentences global_sent_indices js i = Ok js' ->
  all_records_ok js -> all_records_ok js'.
Proof.
  unfold unaligned_sentence, all_records_ok.
  destruct (global_sent_indices !! i) as [g|]; cbn [of_option mbind result_bind]; [|done].
  destruct (sentences !! i) as [text|];
    [|by destruct kind].
  destruct kind; cbn [of_option mbind result_bind].
  all: match goal with
       | |- context [of_option IndexError (?l !! ?j)] => destruct (l !! j) as [offset|]
       end; cbn [of_option mbind result_bind]; [|done].
  all: match goal with
       | |- context [list_assign ?l ?j ?e] => destruct (list_assign l j e) as [l'| |]
       end; cbn [mbind result_bind]; [|done|done].
  all: intros [= <-] Hall; cbn [alignments];
    apply map_Forall_insert_2; [|done]; cbn [edits];
    constructor; [|constructor]; by unfold sentinel_ok.
Qed.

Lemma unaligned_paragraph_ok kind seen_pars paragraphs acc i sentences acc' :
  unaligned_paragraph format_edit sentence_offsets1 sentence_offsets2 kind seen_pars
    paragraphs acc i sentences = Ok acc' ->
  all_records_ok acc.1.2 -> all_records_ok acc'.1.2.
Proof.
  destruct acc as [[text_html js] n]. unfold unaligned_paragraph.
  destruct (decide (i ∈ seen_pars)); cbn [mbind result_bind].
  { by intros [= <-]. }
  destruct (text_html !! i) as [html|]; cbn [of_option mbind result_bind]; [|done].
  destruct html; [|by intros [= <-]].
  destruct (get_sent_indices _ _ _) as [gs| |]; cbn [mbind result_bind]; [|done|done].
  destruct kind; cbn [mbind result_bind]; try done.
  all: destruct (for_each _ _ _) as [js1| |] eqn:E; cbn [mbind result_bind]; [|done|done].
  all: destruct (list_assign _ _ _) as [t| |]; cbn [mbind result_bind]; [|done|done].
  all: intros [= <-]; cbn [fst snd]; intros Hall;
    (eapply (for_each_invariant all_records_ok); [|exact E|exact Hall]);
    intros b a b'; apply unaligned_sentence_ok.
Qed.

Lemma add_unaligned_paragraphs_ok kind seen_pars text_html paragraphs js n
    text_html' js' n' :
  add_unaligned_paragraphs format_edit sentence_offsets1 sentence_offsets2 kind seen_pars
    text_html paragraphs js n = Ok (text_html', js', n') ->
  all_records_ok js -> all_records_ok js'.
Proof.
  unfold add_unaligned_paragraphs. intros Hrun Hall.
  eapply (for_enumerate_invariant (fun acc => all_records_ok acc.1.2)) in Hrun;
    [exact Hrun| |exact Hall].
  intros b i a b'. apply unaligned_paragraph_ok.
Qed.

End Unaligned.

(** C3 (sentinel correctness).  In the aligned-sentence path every
    record that [handle_diff] returns, and in the unaligned-paragraph
    path every record stored by [add_unaligned_paragraphs], has
    [offset2 = (-1,-1)] and [text2 = ""] when it is a deletion and
    [offset1 = (-1,-1)] and [text1 = ""] when it is an insertion. *)
Theorem sentinel_correctness :
  (forall format_edit content1 content2 diff char_diff offsets1 offsets2 n
          html1 html2 eds n',
      handle_diff format_edit content1 content2 diff char_diff offsets1 offsets2 n
      = Ok (html1, html2, eds, n') ->
      Forall sentinel_ok eds) /\
  (forall format_edit sentence_offsets1 sentence_offsets2 kind seen_pars text_html
          paragraphs js n text_html' js' n',
      add_unaligned_paragraphs format_edit sentence_offsets1 sentence_offsets2 kind
        seen_pars text_html paragraphs js n = Ok (text_html', js', n') ->
      all_records_ok js -> all_records_ok js').
Proof.
  split.
  - intros. by eapply handle_diff_sentinel.
  - intros. by eapply add_unaligned_paragraphs_ok.
Qed.

End EditsFacts.

(** ** The classifier on concrete inputs *)

Module EditsExamples.
Import Edits EditsSpec Examples.

(** [diff_wordMode] followed by [handle_diff], as [get_diff_html] chains
    them for one pair of aligned sentences. *)
Example substitution_in_the_middle :
  Diff.diff_wordMode Sample.nlp Sample.diff_main s1 s2
  = Ok (diff, char_diff, (token_offsets1, token_offsets2)) /\
  handle_diff Sample.format_edit s1 s2 diff char_diff token_offsets1 token_offsets2 0
  = Ok (Py.lit "Substitution in ~the middle", Py.lit "Substitution in ~ze middle",
        [ {| edit_type := same; offset1 := (0, 15)%Z; offset2 := (0, 15)%Z;
             text1 := Py.lit "Substitution in"; text2 := Py.lit "Substitution in" |};
          {| edit_type := substitution; offset1 := (16, 19)%Z; offset2 := (16, 18)%Z;
             text1 := Py.lit "the"; text2 := Py.lit "ze" |};
          {| edit_type := same; offset1 := (20, 26)%Z; offset2 := (19, 25)%Z;
             text1 := Py.lit "middle"; text2 := Py.lit "middle" |} ],
        1).
Proof. split; vm_compute; reflexivity. Qed.

End EditsExamples.

Lemma substitution_merge_witness :
  length Examples.char_diff = length Examples.diff /\
  Examples.diff <> [] /\
  exists html1 html2 eds n',
    Edits.handle_diff Sample.format_edit Examples.s1 Examples.s2
      Examples.diff Examples.char_diff
      Examples.token_offsets1 Examples.token_offsets2 0
    = Ok (html1, html2, eds, n') /\
    map edit_type eds = EditsSpec.spec_classify (map fst Examples.diff) /\
    EditsSpec.no_deletion_then_insertion (map edit_type eds) /\
    length eds + EditsSpec.count_kind substitution (map edit_type eds)
    = length Examples.diff.
Proof.
  split; [reflexivity|]. split; [discriminate|].
  apply (EditsFacts.substitution_merge Sample.format_edit Examples.s1 Examples.s2
           Examples.diff Examples.char_diff);
    [reflexivity|discriminate].
Defined.

Lemma sentinel_correctness_witness :
  Forall EditsSpec.sentinel_ok
    [ {| edit_type := deletion; offset1 := (0, 2)%Z; offset2 := Edits.sentinel;
         text1 := Py.lit "ab"; text2 := [] |};
      {| edit_type := same; offset1 := (3, 5)%Z; offset2 := (0, 2)%Z;
         text1 := Py.lit "cd"; text2 := Py.lit "cd" |};
      {| edit_type := insertion; offset1 := Edits.sentinel; offset2 := (3, 5)%Z;
         text1 := []; text2 := Py.lit "ef" |} ] /\
  exists text_html' js' n',
    Edits.add_unaligned_paragraphs Sample.format_edit
      Examples.sentence_offsets [] deletion {[0]} [Py.lit "x"; []]
      Examples.paragraphs Examples.empty_json 0
    = Ok (text_html', js', n') /\
    alignments js' !! 2%Z
    = Some {| match_ := [(-1)%Z]; edits := [Examples.deleted_paragraph_record] |} /\
    EditsSpec.all_records_ok js'.
Proof.
  split.
  - apply (proj1 EditsFacts.sentinel_correctness Sample.format_edit
             (Py.lit "ab cd") (Py.lit "cd ef")
             [(DIFF_DELETE, Py.lit "ab "); (DIFF_EQUAL, Py.lit "cd "); (DIFF_INSERT, Py.lit "ef ")]
             [(DIFF_DELETE, [1]); (DIFF_EQUAL, [2]); (DIFF_INSERT, [3])]
             [(0, 2); (3, 5)]%Z [(0, 2); (3, 5)]%Z 0
             (Py.lit "-ab cd") (Py.lit "cd +ef") _ 2).
    vm_compute. reflexivity.
  - eexists _, _, _. split; [vm_compute; reflexivity|]. split; [vm_compute; reflexivity|].
    eapply (proj2 EditsFacts.sentinel_correctness Sample.format_edit
              Examples.sentence_offsets [] deletion {[0]} [Py.lit "x"; []]
              Examples.paragraphs Examples.empty_json 0).
    + vm_compute. reflexivity.
    + apply map_Forall_empty.
Defined.

(** C4 as the specification states it fails: one offset remains for a
    run of two tokens, and the span is built from that offset, not the
    sentinel. *)
Lemma underrun_partial_span :
  exists html1 html2 r n',
    Edits.handle_diff Sample.format_edit (Py.lit "ab cd") []
      [(DIFF_DELETE, Py.lit "ab cd ")] [(DIFF_DELETE, [1; 2])] [(0, 2)%Z] [] 0
    = Ok (html1, html2, [r], n') /\
    length [(0, 2)%Z] < 2 /\
    offset1 r = (0, 2)%Z /\ offset1 r <> Edits.sentinel.
Proof.
  eexists _, _, _, _. split; [vm_compute; reflexivity|].
  split; [cbn; lia|]. split; [reflexivity|]. cbn. discriminate.
Qed.

Lemma offset_underrun_witness :
  length [(DIFF_DELETE, [1; 2]); (DIFF_EQUAL, [3])]
  = length [(DIFF_DELETE, Py.lit "ab cd "); (DIFF_EQUAL, Py.lit "ef ")] /\
  [(DIFF_DELETE, Py.lit "ab cd "); (DIFF_EQUAL, Py.lit "ef ")] <> [] /\
  exists html1 html2 eds n',
    Edits.handle_diff Sample.format_edit (Py.lit "ab cd ef") (Py.lit "ef")
      [(DIFF_DELETE, Py.lit "ab cd "); (DIFF_EQUAL, Py.lit "ef ")]
      [(DIFF_DELETE, [1; 2]); (DIFF_EQUAL, [3])] [(0, 2)%Z] [] 0
    = Ok (html1, html2, eds, n') /\
    map edit_type eds = EditsSpec.spec_classify [DIFF_DELETE; DIFF_EQUAL] /\
    map EditsSpec.spans eds
    = EditsSpec.expected_spans
        (zip [(DIFF_DELETE, Py.lit "ab cd "); (DIFF_EQUAL, Py.lit "ef ")]
             (map (fun r : op * list nat => length r.2)
                  [(DIFF_DELETE, [1; 2]); (DIFF_EQUAL, [3])]))
        [(0, 2)%Z] [] /\
    ([(0, 2)%Z] = [] -> Forall (fun r => offset1 r = Edits.sentinel) eds) /\
    (@nil (Z * Z) = [] -> Forall (fun r => offset2 r = Edits.sentinel) eds).
Proof.
  split; [reflexivity|]. split; [discriminate|].
  apply (EditsFacts.offset_underrun Sample.format_edit (Py.lit "ab cd ef") (Py.lit "ef")
           [(DIFF_DELETE, Py.lit "ab cd "); (DIFF_EQUAL, Py.lit "ef ")]
           [(DIFF_DELETE, [1; 2]); (DIFF_EQUAL, [3])] [(0, 2)%Z] [] 0);
    [reflexivity|discriminate].
Defined.

(** C5 (quote-drift correction) on a substitution: the inserted run
    holds one double-quote marker, the deleted run none, and the end of
    [offset2] is left uncorrected, because [deque] is given the deleted
    run's text for both sides. *)
Theorem quote_drift_substitution :
  Edits.handle_diff Sample.format_edit (Py.lit "he said") (Py.lit "'' said")
    [(DIFF_DELETE, Py.lit "he "); (DIFF_INSERT, Py.lit "'' "); (DIFF_EQUAL, Py.lit "said ")]
    [(DIFF_DELETE, [1]); (DIFF_INSERT, [3]); (DIFF_EQUAL, [2])]
    [(0, 2); (3, 7)]%Z [(0, 2); (3, 7)]%Z 0
  = Ok (Py.lit "~he said", Py.lit "~'' said",
        [ {| edit_type := substitution; offset1 := (0, 2)%Z; offset2 := (0, 2)%Z;
             text1 := Py.lit "he"; text2 := Py.lit "''" |};
          {| edit_type := same; offset1 := (3, 7)%Z; offset2 := (3, 7)%Z;
             text1 := Py.lit "said"; text2 := Py.lit "said" |} ],
        1) /\
  EditsSpec.quote_markers (Py.strip (Py.lit "'' ")) = 1 /\
  EditsSpec.quote_markers (Py.strip (Py.lit "he ")) = 0 /\
  Diff.diff_wordMode Sample.nlp Sample.diff_main (Py.lit "he said") (Py.lit "'' said")
  = Ok ([(DIFF_DELETE, Py.lit "he "); (DIFF_INSERT, Py.lit "'' "); (DIFF_EQUAL, Py.lit "said ")],
        [(DIFF_DELETE, [1]); (DIFF_INSERT, [3]); (DIFF_EQUAL, [2])],
        ([(0, 2); (3, 7)]%Z, [(0, 2); (3, 7)]%Z)).
Proof. repeat split; vm_compute; reflexivity. Qed.

Module AlignedFacts.
Import AlignedText AlignedSpec.

Lemma lstrip_length s : length (Py.lstrip s) <= length s.
Proof. induction s as [|c s IH]; cbn; [done|]. destruct (Py.isspace c); cbn; lia. Qed.

Lemma strip_length s : length (Py.strip s) <= length s.
Proof.
  unfold Py.strip, Py.rstrip. rewrite length_rev.
  etrans; [apply lstrip_length|]. rewrite length_rev. apply lstrip_length.
Qed.

Lemma real_spans_app t1 t2 : real_spans (t1 ++ t2) = real_spans t1 ++ real_spans t2.
Proof. apply List.filter_app. Qed.

Lemma sentinel_slots_app t1 t2 :
  sentinel_slots (t1 ++ t2) = sentinel_slots t1 ++ sentinel_slots t2.
Proof. apply List.filter_app. Qed.

Lemma shift_real c l :
  (0 <= c)%Z -> Forall (fun x => (0 <= x.1 < x.2)%Z) l ->
  real_spans (shift c l) = shift c l /\ sentinel_slots (shift c l) = [].
Proof.
  intros Hc Hl. unfold real_spans, sentinel_slots, shift.
  induction Hl as [|[b e] l Hx _ [IH1 IH2]]; [done|].
  cbn [map List.filter]. cbn in Hx.
  assert (is_sentinel ((b + c)%Z, (e + c)%Z) = false) as ->.
  { apply bool_decide_eq_false_2. unfold Edits.sentinel. intros [= ? ?]. lia. }
  cbn [negb]. by rewrite IH1, IH2.
Qed.

Lemma shift_sorted c l : StronglySorted begin_le l -> StronglySorted begin_le (shift c l).
Proof.
  induction 1 as [|[b e] l _ IH Hall]; [constructor|].
  cbn. constructor; [done|].
  apply Forall_forall. intros [b' e'] Hin.
  apply list_elem_of_In, in_map_iff in Hin as ([b0 e0] & [= <- <-] & Hin).
  rewrite Forall_forall in Hall. rewrite <- list_elem_of_In in Hin. apply Hall in Hin.
  unfold begin_le in *. cbn in *. lia.
Qed.

Lemma sorted_below_last l y :
  StronglySorted begin_le l -> last l = Some y -> Forall (fun x => begin_le x y) l.
Proof.
  intros Hs Hl. apply last_Some in Hl as [l' ->].
  apply Forall_app. split.
  - apply Forall_forall. intros x Hx.
    apply (StronglySorted_app_1_elem_of _ _ _ _ _ Hs); [done|]. by apply list_elem_of_singleton.
  - constructor; [|constructor]. unfold begin_le. lia.
Qed.

(** A paragraph with sentences extends the table by its spans, moved
    to the running offset, and keeps the table sorted. *)
Lemma table_inv_spans table curr l y extra :
  table_inv table curr -> spans_ok l -> last l = Some y -> (0 <= extra)%Z ->
  table_inv (table ++ shift curr l) (curr + (y.2 + 1) + extra)%Z.
Proof.
  intros (Hc & Hs & Hf) [Hl Hsorted] Hlast Hextra.
  destruct (shift_real curr l Hc Hl) as [Hreal _].
  pose proof (sorted_below_last l y Hsorted Hlast) as Hbelow.
  assert (0 <= y.1 < y.2)%Z as Hy.
  { rewrite Forall_forall in Hl. apply Hl. apply last_Some in Hlast as [l' ->].
    apply elem_of_app. right. by apply list_elem_of_singleton. }
  unfold table_inv. rewrite real_spans_app, Hreal.
  split; [lia|]. split.
  - apply StronglySorted_app_2; [|done|by apply shift_sorted].
    intros x1 x2 H1 H2. rewrite Forall_forall in Hf. apply Hf in H1 as [_ H1].
    apply list_elem_of_In, in_map_iff in H2 as ([b e] & <- & Hin).
    rewrite <- list_elem_of_In in Hin.
    rewrite Forall_forall in Hl. apply Hl in Hin. unfold begin_le. cbn in *. lia.
  - apply Forall_app. split.
    + eapply Forall_impl; [exact Hf|]. cbn. intros x [? ?]. lia.
    + apply Forall_forall. intros x Hin.
      apply list_elem_of_In, in_map_iff in Hin as ([b e] & <- & Hin).
      rewrite <- list_elem_of_In in Hin.
      rewrite Forall_forall in Hl, Hbelow.
      pose proof (Hl _ Hin) as H1. pose proof (Hbelow _ Hin) as H2.
      unfold begin_le in H2. cbn in *. lia.
Qed.

Lemma table_inv_sentinel table curr :
  table_inv table curr -> table_inv (table ++ [Edits.sentinel]) (curr + 1)%Z.
Proof.
  intros (Hc & Hs & Hf). unfold table_inv. rewrite real_spans_app. cbn.
  rewrite app_nil_r. split; [lia|]. split; [done|].
  eapply Forall_impl; [exact Hf|]. cbn. intros x [? ?]. lia.
Qed.

Section Tables.
Variable sent_tuples : str -> list (str * (Z * Z)).

Local Abbreviation entry := (entry sent_tuples).
Local Abbreviation sentences_of := (sentences_of sent_tuples).

(** The segmenter finds a sentence in every paragraph that is not
    blank, and returns well-formed spans. *)
Hypothesis sentences_exist : forall p, blank p = false -> sent_tuples p <> [].
Hypothesis sentences_ok : forall p, spans_ok (map snd (sent_tuples p)).

Lemma tokenize_step_blank pars (m : gmap nat (list (Z * Z))) i p :
  blank p = true -> tokenize_step sent_tuples (pars, m) i p = Ok (pars ++ [[p]], m).
Proof. unfold blank, tokenize_step. by destruct (Py.strip p). Qed.

Lemma tokenize_step_sentences pars (m : gmap nat (list (Z * Z))) i p :
  blank p = false ->
  tokenize_step sent_tuples (pars, m) i p
  = Ok (pars ++ [map fst (sent_tuples p)], <[i := map snd (sent_tuples p)]> m).
Proof.
  intros Hb. pose proof (sentences_exist p Hb) as Hex.
  unfold blank, tokenize_step in *. destruct (Py.strip p); [done|].
  by destruct (sent_tuples p).
Qed.

Lemma tokenize_loop ps : forall i pars (m : gmap nat (list (Z * Z))),
  (forall j, i <= j -> m !! j = None) ->
  exists m',
    for_enumerate (tokenize_step sent_tuples) i ps (pars, m)
    = Ok (pars ++ map sentences_of ps, m') /\
    (forall k p, ps !! k = Some p -> m' !! (i + k) = entry p) /\
    (forall j, j < i -> m' !! j = m !! j).
Proof.
  induction ps as [|p ps IH]; intros i pars m Hm.
  { exists m. cbn. rewrite app_nil_r. by repeat split. }
  cbn [for_enumerate map]. unfold entry, sentences_of in *.
  destruct (blank p) eqn:Eb.
  - rewrite tokenize_step_blank by done. cbn [mbind result_bind].
    destruct (IH (S i) (pars ++ [[p]]) m) as (m' & E & Hk & Hj); [intros; apply Hm; lia|].
    exists m'. rewrite E, <- app_assoc. split; [done|]. split.
    + intros [|k] q; cbn.
      * intros [= <-]. rewrite Eb, Nat.add_0_r, Hj by lia. apply Hm. lia.
      * intros Hq. replace (i + S k) with (S i + k) by lia. by apply Hk.
    + intros j Hlt. apply Hj. lia.
  - rewrite tokenize_step_sentences by done. cbn [mbind result_bind].
    destruct (IH (S i) (pars ++ [map fst (sent_tuples p)])
                (<[i := map snd (sent_tuples p)]> m))
      as (m' & E & Hk & Hj).
    { intros j Hle. rewrite lookup_insert_ne by lia. apply Hm. lia. }
    exists m'. rewrite E, <- app_assoc. split; [done|]. split.
    + intros [|k] q; cbn [lookup list_lookup].
      * intros [= <-]. rewrite Eb, Nat.add_0_r, Hj by lia. by rewrite lookup_insert_eq.
      * intros Hq. replace (i + S k) with (S i + k) by lia. by apply Hk.
    + intros j Hlt. rewrite Hj by lia. apply lookup_insert_ne. lia.
Qed.

Lemma offsets_step_blank (so : gmap nat (list (Z * Z))) table curr i p :
  so !! i = None ->
  offsets_step so (table, curr) i p = Ok (table ++ [Edits.sentinel], (curr + 1)%Z).
Proof. intros H. unfold offsets_step. by rewrite H. Qed.

Lemma offsets_step_sentences (so : gmap nat (list (Z * Z))) table curr i p l y :
  so !! i = Some l -> last l = Some y ->
  exists extra, (0 <= extra)%Z /\
    offsets_step so (table, curr) i p
    = Ok (table ++ shift curr l, (curr + (y.2 + 1) + extra)%Z).
Proof.
  intros H Hl. unfold offsets_step. rewrite H, Hl. cbn [of_option mbind result_bind].
  fold (shift curr l). pose proof (strip_length p).
  destruct p; [exists 0%Z; by rewrite Z.add_0_r|].
  destruct (Py.endswith _ _); [eexists; split; [|done]; lia|].
  exists 0%Z; by rewrite Z.add_0_r.
Qed.

Lemma offsets_loop (so : gmap nat (list (Z * Z))) ps : forall i table curr,
  (forall k p, ps !! k = Some p -> so !! (i + k) = entry p) ->
  table_inv table curr ->
  exists table' curr',
    for_enumerate (offsets_step so) i ps (table, curr) = Ok (table', curr') /\
    table_inv table' curr' /\
    length table' = length table + length (concat (map sentences_of ps)) /\
    length (sentinel_slots table')
    = length (sentinel_slots table) + length (List.filter blank ps).
Proof.
  induction ps as [|p ps IH]; intros i table curr Hso Hinv.
  { exists table, curr. cbn. by rewrite !Nat.add_0_r. }
  cbn [for_enumerate].
  pose proof (Hso 0 p eq_refl) as H0. rewrite Nat.add_0_r in H0.
  assert (forall k q, ps !! k = Some q -> so !! (S i + k) = entry q) as Hso'.
  { intros k q Hq. replace (S i + k) with (i + S k) by lia. by apply Hso. }
  unfold entry, sentences_of in *. cbn [map concat List.filter].
  destruct (blank p) eqn:Eb.
  - rewrite offsets_step_blank by done. cbn [mbind result_bind].
    destruct (IH (S i) _ _ Hso' (table_inv_sentinel _ _ Hinv)) as (t' & c' & E & Hi & Hl & Hs).
    exists t', c'. rewrite E. split; [done|]. split; [done|].
    rewrite Hl, Hs, sentinel_slots_app, !length_app.
    change (sentinel_slots [Edits.sentinel]) with [Edits.sentinel]. cbn. lia.
  - pose proof (sentences_exist p Eb) as Hex. pose proof (sentences_ok p) as Hok.
    set (l := map snd (sent_tuples p)) in *.
    destruct (last l) as [y|] eqn:Hlast.
    2: { apply last_None in Hlast. subst l. by destruct (sent_tuples p). }
    destruct (offsets_step_sentences so table curr i p l y H0 Hlast) as (extra & Hextra & ->).
    cbn [mbind result_bind].
    destruct (IH (S i) _ _ Hso' (table_inv_spans _ _ _ _ _ Hinv Hok Hlast Hextra))
      as (t' & c' & E & Hi & Hl & Hs).
    exists t', c'. rewrite E. split; [done|]. split; [done|].
    destruct Hok as [Hwf _]. destruct Hinv as [Hc _].
    destruct (shift_real curr l Hc Hwf) as [_ Hnone].
    rewrite Hl, Hs, sentinel_slots_app, Hnone, !length_app.
    unfold shift, l. rewrite !length_map. cbn. lia.
Qed.

(** C6 (Sentence Offset Table).  For every document text, the table
    that [get_sentence_offsets] builds from the result of
    [sentence_tokenize] has one entry per sentence over all
    paragraphs, a blank paragraph counting as one sentence and taking
    one (-1,-1) slot; its other entries are non-decreasing in [begin]
    in document order, and each has [end > begin]. *)
Theorem sentence_offset_table content other other_offsets :
  exists paragraphs sentence_offsets table,
    sentence_tokenize sent_tuples content = Ok (content, paragraphs, sentence_offsets) /\
    get_sentence_offsets content other sentence_offsets other_offsets 1 = Ok table /\
    get_sentence_offsets other content other_offsets sentence_offsets 2 = Ok table /\
    length table = length (concat paragraphs) /\
    length (sentinel_slots table)
    = length (List.filter blank (Py.split Py.newline content)) /\
    StronglySorted begin_le (real_spans table) /\
    Forall (fun x => (x.1 < x.2)%Z) (real_spans table).
Proof.
  destruct (tokenize_loop (Py.split Py.newline content) 0 [] ∅) as (m & Et & Hm & _).
  { intros. apply lookup_empty. }
  destruct (offsets_loop m (Py.split Py.newline content) 0 [] 0%Z Hm)
    as (table & curr & Eo & (_ & Hsorted & Hall) & Hlen & Hsent).
  { split; [done|]. split; constructor. }
  exists (map sentences_of (Py.split Py.newline content)), m, table.
  unfold sentence_tokenize, get_sentence_offsets, sentence_offsets_of.
  rewrite Et, Eo. cbn. repeat split; try done.
  eapply Forall_impl; [exact Hall|]. cbn. intros x [? ?]. lia.
Qed.

End Tables.
End AlignedFacts.

Module LoadFacts.
Import AlignedText LoadSpec.

Lemma preserves_ret {A} (a : A) : preserves_files (io_ret a).
Proof. intros w. split; [done|]. exists []. by rewrite app_nil_r. Qed.

Lemma preserves_lift {A} (r : result A) : preserves_files (io_lift r).
Proof. intros w. split; [done|]. exists []. by rewrite app_nil_r. Qed.

Lemma preserves_pure {A} (f : world -> result A) : preserves_files (fun w => (f w, w)).
Proof. intros w. split; [done|]. exists []. by rewrite app_nil_r. Qed.

Lemma preserves_log e : read_only e -> preserves_files (log e).
Proof. intros He w. split; [done|]. exists [e]. split; [done|]. by constructor. Qed.

Lemma preserves_bind {A B} (m : io A) (f : A -> io B) :
  preserves_files m -> (forall a, preserves_files (f a)) -> preserves_files (io_bind m f).
Proof.
  intros Hm Hf w. unfold io_bind.
  destruct (Hm w) as (Hfiles & rest & Htrace & Hro).
  destruct (m w) as [[a| |] w1]; cbn in *; [|by eauto|by eauto].
  destruct (Hf a w1) as (Hfiles' & rest' & Htrace' & Hro').
  split; [congruence|]. exists (rest ++ rest').
  rewrite Htrace', Htrace, <- app_assoc. split; [done|]. by apply Forall_app.
Qed.

Lemma preserves_read env path : preserves_files (read_file env path).
Proof.
  unfold read_file. apply preserves_bind; [apply preserves_lift|].
  intros [] w. split; [done|]. eexists [_]. split; [done|]. by constructor.
Qed.

Lemma preserves_tracks {A} (m : io A) : preserves_files m -> tracks m.
Proof.
  intros Hm w. destruct (Hm w) as (Hfiles & rest & Htrace & _).
  exists rest. split; [done|]. intros file _. by rewrite Hfiles.
Qed.

Lemma tracks_ret {A} (a : A) : tracks (io_ret a).
Proof. apply preserves_tracks, preserves_ret. Qed.

Lemma tracks_lift {A} (r : result A) : tracks (io_lift r).
Proof. apply preserves_tracks, preserves_lift. Qed.

Lemma tracks_bind {A B} (m : io A) (f : A -> io B) :
  tracks m -> (forall a, tracks (f a)) -> tracks (io_bind m f).
Proof.
  intros Hm Hf w. unfold io_bind.
  destruct (Hm w) as (evs & Htrace & Hfiles).
  destruct (m w) as [[a| |] w1]; cbn in *; [|by eauto|by eauto].
  destruct (Hf a w1) as (evs' & Htrace' & Hfiles').
  exists (evs ++ evs'). rewrite Htrace', Htrace, <- app_assoc. split; [done|].
  intros file [H1 H2]%Forall_app. rewrite Hfiles' by done. by apply Hfiles.
Qed.

Lemma tracks_write env path data : tracks (write_file env path data).
Proof.
  unfold write_file. apply tracks_bind; [apply tracks_lift|].
  intros [] w. eexists [_]. split; [done|]. cbn.
  intros file [Hw _]%Forall_cons. cbn in Hw. by rewrite lookup_insert_ne.
Qed.

Lemma tracks_makedirs env path : tracks (makedirs env path).
Proof.
  unfold makedirs. destruct (makedirs_error env path); [apply tracks_lift|].
  intros w. eexists [_]. split; [done|]. done.
Qed.

(** A computation that does not return [None]. *)
Lemma some_or_raise_bind {A B} (m : io A) (f : A -> io (option B)) :
  (forall a w, (f a w).1 <> Ok None) -> forall w, (io_bind m f w).1 <> Ok None.
Proof. intros Hf w. unfold io_bind. by destruct (m w) as [[a| |] w1]; [apply Hf| |]. Qed.

Lemma append_then {A} env path data (k : unit -> io A) w :
  open_error env ModeAppend path = None ->
  preserves_files (k tt) ->
  files (io_bind (append_file env path data) k w).2
  = <[realpath env path := default [] (files w !! realpath env path) ++ data]> (files w) /\
  exists rest,
    trace (io_bind (append_file env path data) k w).2
    = trace w ++ EvAppend (realpath env path) data :: rest /\
    Forall read_only rest.
Proof.
  intros Hopen Hk. unfold io_bind, append_file, open_, io_bind, io_lift. rewrite Hopen.
  match goal with
  | |- context [k tt ?w1] => destruct (Hk w1) as (Hf & rest & Ht & Hro)
  end.
  cbn [files trace] in *. split; [done|].
  exists rest. by rewrite Ht, <- app_assoc.
Qed.

Lemma append_denied {A} env path data (k : unit -> io A) w e :
  open_error env ModeAppend path = Some e ->
  io_bind (append_file env path data) k w = (Raise e, w).
Proof. intros Hopen. unfold io_bind, append_file, open_, io_bind, io_lift. by rewrite Hopen. Qed.

Lemma dict_get_last_entry fields key :
  Config.dict_get fields key = last_entry fields key.
Proof.
  unfold Config.dict_get. induction fields as [|[k v] rest IH]; [done|].
  cbn [List.filter last_entry fst]. rewrite <- IH.
  case_bool_decide as Hk; destruct (decide (k = key)); try done.
  - destruct (List.filter _ rest) as [|kv l] eqn:E; [reflexivity|].
    change (last ((k, v) :: kv :: l)) with (last (kv :: l)).
    destruct (last (kv :: l)) as [x|] eqn:El; [reflexivity|].
    apply last_None in El. discriminate.
  - by destruct (last (List.filter _ rest)).
Qed.

(** [config[name]] returns the path that the configuration has for
    [name], and raises when it has none. *)
Lemma getitem_entry env loaded name :
  Config.__getitem__ env loaded name
  = match config_entry env loaded name with
    | Some path => Ok path
    | None => Raise (config_error loaded name)
    end.
Proof.
  unfold Config.__getitem__, config_entry, config_error, Config.contains, Config.getitem.
  destruct loaded as [| | |s|items|fields]; cbn [mbind result_bind]; try done.
  - by destruct (Config.substring name s).
  - by destruct (existsb _ items).
  - rewrite !dict_get_last_entry.
    destruct (last_entry fields name) as [value|] eqn:Ename.
    + rewrite bool_decide_eq_true_2 by done.
      destruct (last_entry fields (Py.lit "root")) as [root|]; [|done].
      cbn [of_option mbind result_bind]. unfold Config.join.
      by destruct root, value.
    + rewrite bool_decide_eq_false_2 by (by intros [? ?]).
      destruct (last_entry fields (Py.lit "root")) as [root|]; [|done].
      cbn [of_option mbind result_bind]. unfold Config.join.
      by destruct root.
Qed.

(** X18.  The lookup [config[name]] of a [Config] object returns only
    for a configuration that is a JSON object whose entries for [root]
    and for [name] are both texts, and then it returns the second
    joined to the first.  For every other configuration it raises:
    [KeyError] for an object without [root], [NameError] for an object
    with a text for [root] and no entry for [name], and [TypeError]
    otherwise.  So a name that is not a key of the configuration is
    never given a path under the root: the test that would lead there
    reads [DIRS], which the module does not define. *)
Theorem config_lookup env loaded name :
  match config_entry env loaded name with
  | Some path => Config.__getitem__ env loaded name = Ok path
  | None => Config.__getitem__ env loaded name = Raise (config_error loaded name)
  end /\
  (forall fields,
      loaded = JObject fields -> last_entry fields name = None ->
      exists e, Config.__getitem__ env loaded name = Raise e /\
                (e = NameError <->
                 exists root, last_entry fields (Py.lit "root") = Some (JString root))).
Proof.
  rewrite getitem_entry. split; [by destruct (config_entry env loaded name)|].
  intros fields -> Hname. unfold config_entry, config_error. rewrite Hname.
  destruct (last_entry fields (Py.lit "root")) as [root|].
  - destruct root; eexists; (split; [reflexivity|]).
    all: split; [try done; by eauto|]; try by intros [? [=]].
  - eexists. split; [reflexivity|]. split; [done|]. by intros [? [=]].
Qed.

Section Load.
Variable env : os_env.
Variable sent_tuples : str -> list (str * (Z * Z)).
Variables unicode_normalize preproc np_resegment : str -> str.
Variable tfidf_model : Type.
Variable aligned_pars : Type.
Variable TFIDFModel : gmap str str -> list str -> str -> result tfidf_model.
Variable getParagraphAlignments :
  tfidf_model -> list (list str) -> list (list str) -> Z * Z ->
  result (list (list nat * list nat) * list aligned_pars).
Variable getSentenceAlignments :
  tfidf_model -> aligned_pars -> Z * Z -> Z * Z -> result (list (list nat * list nat)).
Variable json_load : str -> result json_value.
Variable EditsHtml : aligned_text -> str -> result Edits.editor.
Variable get_html_text : Edits.editor -> str -> str -> result str.
Variable json_dump : edits_json -> str.
Variable LEGEND : str.
Variable float_str : Z * Z -> str.

Local Abbreviation __init__ :=
  (__init__ env sent_tuples unicode_normalize preproc np_resegment tfidf_model aligned_pars
     TFIDFModel getParagraphAlignments getSentenceAlignments).
Local Abbreviation the_config := (the_config env json_load).
Local Abbreviation render_and_write :=
  (render_and_write env EditsHtml get_html_text json_dump LEGEND float_str).
Local Abbreviation create_html_file :=
  (create_html_file env sent_tuples unicode_normalize preproc np_resegment tfidf_model
     aligned_pars TFIDFModel getParagraphAlignments getSentenceAlignments json_load
     EditsHtml get_html_text json_dump LEGEND float_str).

Lemma preserves_read_paragraphs path :
  preserves_files (read_paragraphs env sent_tuples unicode_normalize preproc np_resegment path).
Proof.
  unfold read_paragraphs. apply preserves_bind; [apply preserves_read|].
  intros raw. apply preserves_lift.
Qed.

(** After the append the constructor only reads. *)
Lemma init_reads file1 file2 stop_words min_par_sim min_sent_sim sim_slack :
  exists k : unit -> io aligned_text,
    __init__ file1 file2 stop_words min_par_sim min_sent_sim sim_slack
    = io_bind (append_file env file1 [Py.newline]) k /\
    preserves_files (k tt).
Proof.
  eexists. split; [reflexivity|]. cbn beta.
  apply preserves_bind; [apply preserves_read_paragraphs|]. intros [[c1 p1] so1].
  apply preserves_bind; [apply preserves_read_paragraphs|]. intros [[c2 p2] so2].
  apply preserves_bind; [apply preserves_lift|]. intros g1.
  apply preserves_bind; [apply preserves_lift|]. intros g2.
  apply preserves_bind; [by apply preserves_log|]. intros _.
  apply preserves_bind; [apply preserves_pure|]. intros tfidf.
  apply preserves_bind.
  { unfold align_pars. apply preserves_bind; [by apply preserves_log|].
    intros _. apply preserves_lift. }
  intros [pa pars].
  apply preserves_bind.
  { unfold align_sents. apply preserves_bind; [by apply preserves_log|].
    intros _. apply preserves_lift. }
  intros sa. apply preserves_ret.
Qed.

(** When [file1] opens for appending, then whatever the constructor
    goes on to do, and whether it returns or raises, its first effect
    is the append to [file1], and nothing after it writes. *)
Lemma init_effect file1 file2 stop_words min_par_sim min_sent_sim sim_slack w :
  open_error env ModeAppend file1 = None ->
  files (__init__ file1 file2 stop_words min_par_sim min_sent_sim sim_slack w).2
  = with_newline (files w) (realpath env file1) /\
  exists rest,
    trace (__init__ file1 file2 stop_words min_par_sim min_sent_sim sim_slack w).2
    = trace w ++ EvAppend (realpath env file1) [Py.newline] :: rest /\
    Forall read_only rest.
Proof.
  intros Hopen.
  destruct (init_reads file1 file2 stop_words min_par_sim min_sent_sim sim_slack)
    as (k & -> & Hk).
  by apply append_then.
Qed.

(** When it does not open, the constructor raises and has done
    nothing. *)
Lemma init_denied file1 file2 stop_words min_par_sim min_sent_sim sim_slack w e :
  open_error env ModeAppend file1 = Some e ->
  __init__ file1 file2 stop_words min_par_sim min_sent_sim sim_slack w = (Raise e, w).
Proof.
  intros Hopen.
  destruct (init_reads file1 file2 stop_words min_par_sim min_sent_sim sim_slack)
    as (k & -> & Hk).
  by apply append_denied.
Qed.

(** Getting the configuration changes no file, and its [stop_words]
    entry is the one of the specification. *)
Lemma the_config_preserves config config_json :
  preserves_files (the_config config config_json).
Proof.
  unfold AlignedText.the_config. destruct config as [given|]; [apply preserves_ret|].
  apply preserves_bind; [|intros loaded; apply preserves_ret].
  unfold Config.__init__. destruct config_json as [path|]; [|apply preserves_lift].
  apply preserves_bind; [apply preserves_read|]. intros raw. apply preserves_lift.
Qed.

Lemma the_config_entry config config_json w :
  stop_words_entry env json_load config config_json w
  = match (given ← (the_config config config_json w).1; given (Py.lit "stop_words")) with
    | Ok stop_words => Some stop_words
    | _ => None
    end.
Proof.
  unfold stop_words_entry, AlignedText.the_config.
  destruct config as [given|]; [done|].
  unfold Config.__init__. destruct config_json as [path|]; [|done].
  unfold io_bind, read_file, open_, io_bind, io_lift.
  destruct (open_error env ModeRead path); [done|].
  destruct (files w !! realpath env path) as [raw|]; [|done].
  cbn. destruct (json_load raw) as [loaded| |]; [|done|done].
  cbn. rewrite getitem_entry. by destruct (config_entry _ _ _).
Qed.

(** What [create_html_file] does with the [AlignedText] object changes
    only the files that it logs as written, and changes nothing when
    the outcome is [None]. *)
Lemma render_tracks file1 file2 min_par_sim min_sent_sim sim_slack header1 header2
    output_prefix config in_app output_dir aligned :
  tracks (render_and_write file1 file2 min_par_sim min_sent_sim sim_slack header1 header2
            output_prefix config in_app output_dir aligned).
Proof.
  unfold AlignedText.render_and_write.
  apply tracks_bind; [apply tracks_lift|]. intros templates.
  apply tracks_bind; [apply tracks_lift|]. intros edits_html.
  destruct (decide (Edits.ed_num_edits edits_html = 0)); [apply tracks_ret|].
  apply tracks_bind; [apply tracks_lift|]. intros page. cbn zeta.
  apply tracks_bind.
  { destruct output_dir, output_prefix; first [apply tracks_ret|apply tracks_lift]. }
  intros dir. apply tracks_bind.
  { destruct dir as [|c dir]; [apply tracks_ret|]. intros w.
    destruct (path_exists env w (c :: dir)).
    - apply (tracks_ret tt w).
    - apply tracks_makedirs. }
  intros _. apply tracks_bind; [apply tracks_write|]. intros _.
  apply tracks_bind; [destruct in_app; [apply tracks_ret|apply tracks_write]|].
  intros _. apply tracks_ret.
Qed.

Lemma render_none file1 file2 min_par_sim min_sent_sim sim_slack header1 header2
    output_prefix config in_app output_dir aligned w w' :
  render_and_write file1 file2 min_par_sim min_sent_sim sim_slack header1 header2
    output_prefix config in_app output_dir aligned w = (Ok None, w') ->
  w' = w.
Proof.
  unfold AlignedText.render_and_write.
  unfold io_bind at 1, io_lift at 1. destruct (config (Py.lit "templates")); [|done|done].
  unfold io_bind at 1, io_lift at 1. destruct (EditsHtml aligned a) as [ed| |]; [|done|done].
  destruct (decide (Edits.ed_num_edits ed = 0)); [by intros [= <-]|].
  intros Hrun. exfalso. apply (f_equal fst) in Hrun. revert Hrun.
  apply some_or_raise_bind. intros page w1. cbn zeta.
  apply some_or_raise_bind. intros dir w2.
  apply some_or_raise_bind. intros [] w3.
  apply some_or_raise_bind. intros [] w4.
  apply some_or_raise_bind. intros [] w5. done.
Qed.

(** C10 (amended).  Constructing [AlignedText] opens [file1] for
    appending before anything else: when that open fails the
    constructor raises and has done nothing; otherwise the newline is
    appended to the file that [file1] names as the first effect,
    before anything is read or aligned, and no later step of the
    constructor writes, so the file that [file2] names is left as it
    is provided it is another file than [file1]'s.  A run of
    [create_html_file] on two existing files reaches the constructor
    exactly when its configuration gives an entry for [stop_words];
    otherwise it raises and no file is changed.  When it reaches it and
    the open succeeds, the append follows a prefix of reads, the files
    at the end are those with the newline except where a later event
    writes, and they are exactly those with the newline when the run
    ends with zero edits. *)
Theorem init_appends_newline file1 file2 stop_words min_par_sim min_sent_sim sim_slack
    header1 header2 output_prefix config config_json in_app output_dir w :
  match open_error env ModeAppend file1 with
  | Some e =>
      __init__ file1 file2 stop_words min_par_sim min_sent_sim sim_slack w = (Raise e, w)
  | None =>
      let w' := (__init__ file1 file2 stop_words min_par_sim min_sent_sim sim_slack w).2 in
      files w' = with_newline (files w) (realpath env file1) /\
      (realpath env file2 <> realpath env file1 ->
       files w' !! realpath env file2 = files w !! realpath env file2) /\
      exists rest,
        trace w' = trace w ++ EvAppend (realpath env file1) [Py.newline] :: rest /\
        Forall read_only rest
  end /\
  (forall r w',
      is_Some (files w !! realpath env file1) -> is_Some (files w !! realpath env file2) ->
      create_html_file file1 file2 min_par_sim min_sent_sim sim_slack header1 header2
        output_prefix config config_json in_app output_dir w = (r, w') ->
      match stop_words_entry env json_load config config_json w with
      | Some _ =>
          match open_error env ModeAppend file1 with
          | Some e => r = Raise e /\ files w' = files w
          | None =>
              exists pre rest,
                trace w' = trace w ++ pre ++ EvAppend (realpath env file1) [Py.newline] :: rest /\
                Forall read_only pre /\
                (forall file,
                    Forall (fun e => ~ writes file e) rest ->
                    files w' !! file = with_newline (files w) (realpath env file1) !! file) /\
                (realpath env file2 <> realpath env file1 ->
                 Forall (fun e => ~ writes (realpath env file2) e) rest ->
                 files w' !! realpath env file2 = files w !! realpath env file2) /\
                (r = Ok None ->
                 files w' = with_newline (files w) (realpath env file1))
          end
      | None => (forall v, r <> Ok v) /\ files w' = files w
      end).
Proof.
  split.
  { destruct (open_error env ModeAppend file1) as [e|] eqn:Hopen.
    - by apply init_denied.
    - destruct (init_effect file1 file2 stop_words min_par_sim min_sent_sim sim_slack w Hopen)
        as (Hfiles & Htrace).
      cbn zeta. rewrite Hfiles. split; [done|]. split; [|done].
      intros Hne. unfold with_newline. by rewrite lookup_insert_ne. }
  intros r w' H1 H2. rewrite the_config_entry.
  unfold AlignedText.create_html_file, io_bind at 1.
  destruct (the_config_preserves config config_json w) as (Hf0 & pre & Ht0 & Hro0).
  destruct (the_config config config_json w) as [[given|e|] w0]; cbn [fst snd] in *.
  2,3: intros [= <- <-]; by cbn.
  unfold io_bind at 1. unfold path_exists. rewrite Hf0.
  rewrite !bool_decide_eq_true_2 by done. cbn [orb andb negb].
  cbn [mbind result_bind].
  unfold io_bind at 1, io_lift at 1.
  destruct (given (Py.lit "stop_words")) as [sw|e|].
  2,3: intros [= <- <-]; by cbn.
  destruct (open_error env ModeAppend file1) as [e|] eqn:Hopen.
  { unfold io_bind at 1.
    rewrite (init_denied file1 file2 sw min_par_sim min_sent_sim sim_slack w0 e Hopen).
    by intros [= <- <-]. }
  unfold io_bind at 1.
  destruct (init_effect file1 file2 sw min_par_sim min_sent_sim sim_slack w0 Hopen)
    as (Hf1 & rest1 & Ht1 & Hro1).
  rewrite Hf0 in Hf1. rewrite Ht0, <- app_assoc in Ht1.
  destruct (__init__ file1 file2 sw min_par_sim min_sent_sim sim_slack w0)
    as [[aligned|e|] w1]; cbn [fst snd] in *.
  2,3: intros [= <- <-]; exists pre, rest1; split; [done|]; split; [done|];
       split; [by intros; rewrite Hf1|]; split; [|done];
       intros Hne _; rewrite Hf1; unfold with_newline; by rewrite lookup_insert_ne.
  intros Hrun.
  destruct (render_tracks file1 file2 min_par_sim min_sent_sim sim_slack header1 header2
              output_prefix given in_app output_dir aligned w1) as (evs & Ht2 & Hframe).
  rewrite Hrun in Ht2, Hframe. cbn [fst snd] in *.
  exists pre, (rest1 ++ evs). split.
  { rewrite Ht2, Ht1, <- !app_assoc. done. }
  split; [done|]. split; [|split].
  - intros file [_ Hevs]%Forall_app. rewrite Hframe by done. by rewrite Hf1.
  - intros Hne [_ Hevs]%Forall_app. rewrite Hframe by done. rewrite Hf1.
    unfold with_newline. by rewrite lookup_insert_ne.
  - intros ->. by rewrite (render_none _ _ _ _ _ _ _ _ _ _ _ _ _ _ Hrun).
Qed.

End Load.
End LoadFacts.

Module SampleSegmenter.
Import AlignedSpec Examples.

Lemma sample_sentences_exist p : blank p = false -> Sample.sent_tuples p <> [].
Proof. unfold blank, Sample.sent_tuples. by destruct (Py.strip p). Qed.

Lemma sample_sentences_ok p : spans_ok (map snd (Sample.sent_tuples p)).
Proof.
  unfold Sample.sent_tuples. destruct (Py.strip p) as [|c s]; [by split; constructor|].
  split.
  - constructor; [|constructor]. cbn. lia.
  - constructor; constructor.
Qed.

Example document_table :
  AlignedText.sentence_tokenize Sample.sent_tuples document
  = Ok (document,
        [[Py.lit "First paragraph."]; [[]]; [Py.lit "Third one."]],
        {[ 0 := [(0, 16)%Z]; 2 := [(0, 10)%Z] ]}) /\
  AlignedText.sentence_offsets_of document {[ 0 := [(0, 16)%Z]; 2 := [(0, 10)%Z] ]}
  = Ok [(0, 16); (-1, -1); (19, 29)]%Z.
Proof. split; vm_compute; reflexivity. Qed.

End SampleSegmenter.

Lemma sentence_offset_table_witness :
  (forall p, AlignedSpec.blank p = false -> Sample.sent_tuples p <> []) /\
  (forall p, AlignedSpec.spans_ok (map snd (Sample.sent_tuples p))) /\
  exists paragraphs sentence_offsets table,
    AlignedText.sentence_tokenize Sample.sent_tuples Examples.document
    = Ok (Examples.document, paragraphs, sentence_offsets) /\
    AlignedText.get_sentence_offsets Examples.document [] sentence_offsets ∅ 1 = Ok table /\
    AlignedText.get_sentence_offsets [] Examples.document ∅ sentence_offsets 2 = Ok table /\
    length table = length (concat paragraphs) /\
    length (AlignedSpec.sentinel_slots table)
    = length (List.filter AlignedSpec.blank (Py.split Py.newline Examples.document)) /\
    StronglySorted AlignedSpec.begin_le (AlignedSpec.real_spans table) /\
    Forall (fun x => (x.1 < x.2)%Z) (AlignedSpec.real_spans table).
Proof.
  split; [exact SampleSegmenter.sample_sentences_exist|].
  split; [exact SampleSegmenter.sample_sentences_ok|].
  apply (AlignedFacts.sentence_offset_table Sample.sent_tuples
           SampleSegmenter.sample_sentences_exist SampleSegmenter.sample_sentences_ok
           Examples.document [] ∅).
Defined.

(** C10 as the specification states it fails in two ways.  When both
    arguments name the same file, here by the paths [a.txt] and
    [./a.txt], the second input file is the one that receives the
    newline.  And a run on two existing files whose configuration has
    no entry for [stop_words] raises before the constructor, so that
    the first input file is left as it was. *)
Lemma inputs_not_as_claimed :
  (Py.lit "./a.txt" <> Py.lit "a.txt" /\
   files (Sample.init (Py.lit "a.txt") (Py.lit "./a.txt") Sample.world0).2
     !! realpath Sample.env (Py.lit "./a.txt")
   = Some (Py.lit "One line." ++ [Py.newline]) /\
   files (Sample.init (Py.lit "a.txt") (Py.lit "./a.txt") Sample.world0).2
     !! realpath Sample.env (Py.lit "./a.txt")
   <> files Sample.world0 !! realpath Sample.env (Py.lit "./a.txt")) /\
  (files Sample.world0 !! realpath Sample.env (Py.lit "a.txt") = Some (Py.lit "One line.") /\
   files Sample.world0 !! realpath Sample.env (Py.lit "b.txt") = Some (Py.lit "One line!") /\
   let '(r, w') :=
     Sample.command Sample.EditsHtml (Py.lit "a.txt") (Py.lit "b.txt")
       (Py.lit "empty.json") (Py.lit "out") Sample.world0 in
   r = Raise KeyError /\ files w' = files Sample.world0).
Proof.
  split.
  - split; [discriminate|]. split; [vm_compute; reflexivity|]. vm_compute. discriminate.
  - split; [vm_compute; reflexivity|]. split; [vm_compute; reflexivity|].
    vm_compute. split; reflexivity.
Qed.

Lemma init_appends_newline_witness :
  (let w' := (Sample.init (Py.lit "a.txt") (Py.lit "b.txt") Sample.world0).2 in
   files w' = LoadSpec.with_newline (files Sample.world0) (realpath Sample.env (Py.lit "a.txt")) /\
   (realpath Sample.env (Py.lit "b.txt") <> realpath Sample.env (Py.lit "a.txt") ->
    files w' !! realpath Sample.env (Py.lit "b.txt")
    = files Sample.world0 !! realpath Sample.env (Py.lit "b.txt")) /\
   exists rest,
     trace w' = trace Sample.world0
                ++ EvAppend (realpath Sample.env (Py.lit "a.txt")) [Py.newline] :: rest /\
     Forall LoadSpec.read_only rest) /\
  is_Some (files Sample.world0 !! realpath Sample.env (Py.lit "a.txt")) /\
  is_Some (files Sample.world0 !! realpath Sample.env (Py.lit "b.txt")) /\
  exists r w',
    Sample.command Sample.EditsHtml (Py.lit "a.txt") (Py.lit "b.txt")
      (Py.lit "config.json") (Py.lit "out") Sample.world0 = (r, w') /\
    exists pre rest,
      trace w' = trace Sample.world0 ++ pre
                 ++ EvAppend (realpath Sample.env (Py.lit "a.txt")) [Py.newline] :: rest /\
      Forall LoadSpec.read_only pre /\
      (forall file,
          Forall (fun e => ~ LoadSpec.writes file e) rest ->
          files w' !! file
          = LoadSpec.with_newline (files Sample.world0)
              (realpath Sample.env (Py.lit "a.txt")) !! file) /\
      (realpath Sample.env (Py.lit "b.txt") <> realpath Sample.env (Py.lit "a.txt") ->
       Forall (fun e => ~ LoadSpec.writes (realpath Sample.env (Py.lit "b.txt")) e) rest ->
       files w' !! realpath Sample.env (Py.lit "b.txt")
       = files Sample.world0 !! realpath Sample.env (Py.lit "b.txt")) /\
      (r = Ok None ->
       files w' = LoadSpec.with_newline (files Sample.world0)
                    (realpath Sample.env (Py.lit "a.txt"))).
Proof.
  assert (is_Some (files Sample.world0 !! realpath Sample.env (Py.lit "a.txt"))) as H1
    by (eexists; vm_compute; reflexivity).
  assert (is_Some (files Sample.world0 !! realpath Sample.env (Py.lit "b.txt"))) as H2
    by (eexists; vm_compute; reflexivity).
  destruct (LoadFacts.init_appends_newline Sample.env Sample.sent_tuples id id id unit unit
              Sample.TFIDFModel Sample.getParagraphAlignments Sample.getSentenceAlignments
              Sample.json_load Sample.EditsHtml Sample.get_html_text Sample.json_dump
              Sample.LEGEND Sample.float_str
              (Py.lit "a.txt") (Py.lit "b.txt") (Py.lit "stop_words.txt")
              (3, 10)%Z (4, 10)%Z (5, 100)%Z [] [] None None
              (Some (Py.lit "config.json")) false (Some (Py.lit "out")) Sample.world0)
    as [Hinit Hrun].
  split; [exact Hinit|]. split; [exact H1|]. split; [exact H2|].
  eexists _, _. split; [vm_compute; reflexivity|].
  apply (Hrun _ _ H1 H2). vm_compute. reflexivity.
Defined.

(** A run on the two sample files: no edit is found, no output file is
    written, and the first file has grown by a newline. *)
Example zero_edit_run :
  let '(r, w') :=
    Sample.command Sample.EditsHtml (Py.lit "a.txt") (Py.lit "b.txt")
      (Py.lit "config.json") (Py.lit "out") Sample.world0 in
  r = Ok None /\
  files w' !! Py.lit "a.txt" = Some (Py.lit "One line." ++ [Py.newline]) /\
  files w' !! Py.lit "b.txt" = Some (Py.lit "One line!") /\
  files w' !! Py.lit "out/a.txt-b.txt-0.5-0.5-0.5.html" = None /\
  trace w' = [EvRead (Py.lit "config.json");
              EvAppend (Py.lit "a.txt") [Py.newline]; EvRead (Py.lit "a.txt");
              EvRead (Py.lit "b.txt");
              EvTfidf [Py.lit "a.txt"; Py.lit "b.txt"] (Py.lit "cfg/stop_words.txt");
              EvAlignParagraphs; EvAlignSentences].
Proof. vm_compute. repeat split; reflexivity. Qed.

(** ** Further properties of the symbol codec *)

Module CodecFacts.
Import Diff DiffSpec DiffFacts.

Lemma cut_chunk_index s :
  s <> [] ->
  cut_chunk s = match Py.index_of Py.space s with
                | Some j => (take (j + 1) s, drop (j + 1) s)
                | None => (s, [])
                end.
Proof.
  induction s as [|c r IH]; [done|]. intros _. cbn.
  destruct (Ascii.eqb c Py.space); [done|].
  destruct r as [|c' r'].
  - done.
  - rewrite IH by done. by destruct (Py.index_of Py.space (c' :: r')).
Qed.

(** The chunk that one iteration of the loop cuts with [find] and a
    slice is the first chunk of the rest of the text. *)
Lemma cut_chunk_find text lineStart :
  lineStart < length text ->
  let lineEnd := match Py.find Py.space text lineStart with
                 | Some k => k
                 | None => length text - 1
                 end in
  cut_chunk (drop lineStart text)
  = (Py.slice_nat text lineStart (lineEnd + 1), drop (lineEnd + 1) text).
Proof.
  intros Hlt. cbn zeta. rewrite cut_chunk_index.
  2: { intros H. apply (f_equal length) in H. rewrite length_drop in H. cbn in H. lia. }
  unfold Py.find, Py.slice_nat.
  destruct (Py.index_of Py.space (drop lineStart text)) as [j|]; cbn.
  - replace (lineStart + j + 1 - lineStart) with (j + 1) by lia.
    replace (lineStart + j + 1) with (lineStart + (j + 1)) by lia.
    by rewrite drop_drop.
  - replace (length text - 1 + 1) with (length text) by lia.
    rewrite drop_all. f_equal. symmetry. apply take_ge. rewrite length_drop. lia.
Qed.

Lemma cut_chunk_app s : forall h t, cut_chunk s = (h, t) -> s = h ++ t.
Proof.
  induction s as [|c r IH]; intros h t; cbn.
  - by intros [= <- <-].
  - destruct (Ascii.eqb c Py.space); [by intros [= <- <-]|].
    destruct (cut_chunk r) as [h' t']. intros [= <- <-]. cbn. f_equal. by apply IH.
Qed.

Lemma cut_chunk_shorter s h t :
  s <> [] -> cut_chunk s = (h, t) -> length t < length s.
Proof.
  revert h t. induction s as [|c r IH]; [done|]. intros h t _. cbn.
  destruct (Ascii.eqb c Py.space); [intros [= <- <-]; lia|].
  destruct (cut_chunk r) as [h' t'] eqn:E. intros [= <- <-].
  destruct r; [cbn in E; injection E as <- <-; cbn; lia|].
  specialize (IH h' t' ltac:(done) eq_refl). lia.
Qed.

Lemma chunks_upto_enough n : forall s, length s <= n -> chunks_upto n s = chunks s.
Proof.
  induction n as [n IH] using lt_wf_ind. intros s Hn.
  destruct s as [|c r]; [by destruct n|].
  destruct n as [|n']; [cbn in Hn; lia|].
  unfold chunks. cbn [chunks_upto length]. destruct (cut_chunk (c :: r)) as [h t] eqn:E.
  pose proof (cut_chunk_shorter (c :: r) h t ltac:(done) E) as Hs. cbn in Hs, Hn.
  f_equal. rewrite (IH n') by lia. rewrite (IH (length r)) by lia. done.
Qed.

Lemma chunks_cons s h t : s <> [] -> cut_chunk s = (h, t) -> chunks s = h :: chunks t.
Proof.
  intros Hs E. unfold chunks at 1. destruct s as [|c r]; [done|].
  cbn [length chunks_upto]. rewrite E. f_equal.
  apply chunks_upto_enough. pose proof (cut_chunk_shorter _ _ _ Hs E). cbn in *. lia.
Qed.

Lemma chunks_nil : chunks [] = [].
Proof. reflexivity. Qed.

(** Cutting loses nothing. *)
Lemma concat_chunks s : concat (chunks s) = s.
Proof.
  remember (length s) as n eqn:Hn. revert s Hn.
  induction n as [n IH] using lt_wf_ind. intros s ->.
  destruct s as [|c r]; [done|].
  destruct (cut_chunk (c :: r)) as [h t] eqn:E.
  rewrite (chunks_cons (c :: r) h t ltac:(done) E). cbn [concat].
  rewrite (IH (length t)); [by rewrite <- (cut_chunk_app _ _ _ E)| |done].
  by apply (cut_chunk_shorter (c :: r) h t ltac:(done) E).
Qed.

(** A word without a space, followed by a space, is one chunk. *)
Lemma cut_chunk_word w rest :
  no_space w -> cut_chunk (w ++ Py.space :: rest) = (w ++ [Py.space], rest).
Proof.
  unfold no_space. induction w as [|c w IH]; intros Hw; cbn.
  - done.
  - destruct (Ascii.eqb_spec c Py.space) as [->|Hne].
    + exfalso. apply Hw. by left.
    + rewrite IH; [done|]. intros Hin. apply Hw. by right.
Qed.

Lemma chunks_words words :
  Forall no_space words ->
  words <> [] ->
  chunks (Py.join [Py.space] words ++ [Py.space]) = map (fun w => w ++ [Py.space]) words.
Proof.
  induction 1 as [|w ws Hw Hws IH]; [done|]. intros _.
  destruct ws as [|w' ws'].
  - cbn [Py.join map].
    rewrite (chunks_cons (w ++ [Py.space]) (w ++ [Py.space]) []).
    + done.
    + by destruct w.
    + by apply cut_chunk_word.
  - change (Py.join [Py.space] (w :: w' :: ws'))
      with (w ++ [Py.space] ++ Py.join [Py.space] (w' :: ws')).
    rewrite <- !app_assoc. cbn [app].
    rewrite (chunks_cons _ (w ++ [Py.space]) (Py.join [Py.space] (w' :: ws') ++ [Py.space])).
    + cbn [map]. f_equal. by apply IH.
    + by destruct w.
    + by apply cut_chunk_word.
Qed.

Lemma reg0_tight : reg_tight reg0.
Proof.
  split; [cbn; lia|]. split.
  - intros line n H. cbn in H. by rewrite lookup_empty in H.
  - intros [|n] line Hn; [lia|]. cbn. by destruct n.
Qed.

Lemma reg_tight_insert reg line :
  reg_tight reg -> lineHash reg !! line = None ->
  reg_tight {| lineArray := lineArray reg ++ [line];
               lineHash := <[line := length (lineArray reg ++ [line]) - 1]> (lineHash reg) |}.
Proof.
  intros (Hlen & Hfwd & Hbwd) Hmiss. unfold reg_tight. cbn [lineArray lineHash].
  rewrite length_app. cbn [length].
  replace (length (lineArray reg) + 1 - 1) with (length (lineArray reg)) by lia.
  split; [lia|]. split.
  - intros l n. destruct (decide (line = l)) as [->|Hne].
    + rewrite lookup_insert_eq. intros [= <-]. split; [done|].
      by rewrite lookup_app_r, Nat.sub_diag.
    + rewrite lookup_insert_ne by done. intros H. destruct (Hfwd _ _ H) as [Hn Hl].
      split; [done|]. rewrite lookup_app_l; [done|]. by eapply lookup_lt_Some.
  - intros n l Hn Hl. destruct (decide (n < length (lineArray reg))) as [Hlt|Hge].
    + rewrite lookup_app_l in Hl by done. pose proof (Hbwd _ _ Hn Hl) as Hh.
      rewrite lookup_insert_ne; [done|]. intros ->. congruence.
    + rewrite lookup_app_r in Hl by lia.
      destruct (n - length (lineArray reg)) as [|k] eqn:Ek; [|by destruct k].
      cbn in Hl. injection Hl as <-. replace n with (length (lineArray reg)) by lia.
      apply lookup_insert_eq.
Qed.

Lemma reg_tight_ok reg : reg_tight reg -> reg_ok reg.
Proof. intros (_ & Hfwd & _) line n H. by apply Hfwd. Qed.

Section Loop.
Variable maxLines : N.
Hypothesis maxLines_chr : (maxLines <= 1114111)%N.
Variable text : str.

(** Below the bail-out, the loop emits one symbol per chunk, each
    standing for its chunk, and keeps the table and the hash inverse
    to each other. *)
Lemma munge_loop_chunks fuel : forall lineStart reg chars,
  length text - lineStart <= fuel ->
  reg_tight reg ->
  (N.of_nat (length (lineArray reg)) + N.of_nat (length text - lineStart) <= maxLines)%N ->
  exists new reg',
    munge_loop fuel maxLines text lineStart reg chars = Ok (chars ++ new, reg') /\
    reg_tight reg' /\
    lineArray reg `prefix_of` lineArray reg' /\
    length (lineArray reg') <= length (lineArray reg) + (length text - lineStart) /\
    Forall2 (stands_for (lineArray reg')) new (chunks (drop lineStart text)).
Proof.
  induction fuel as [|fuel IH]; intros lineStart reg chars Hfuel Htight Hfit.
  - exists [], reg. cbn. destruct (decide (lineStart < length text)); [lia|].
    rewrite app_nil_r, drop_ge by lia.
    split; [done|]. split; [done|]. split; [done|]. split; [lia|]. constructor.
  - cbn [munge_loop]. destruct (decide (lineStart < length text)) as [Hlt|Hge]; cycle 1.
    { exists [], reg. rewrite app_nil_r, drop_ge by lia.
      split; [done|]. split; [done|]. split; [done|]. split; [lia|]. constructor. }
    pose proof (cut_chunk_find text lineStart Hlt) as Hcut. cbn zeta in Hcut.
    set (lineEnd := match Py.find Py.space text lineStart with
                    | Some k => k | None => length text - 1 end) in *.
    assert (lineStart <= lineEnd < length text) as Hle.
    { subst lineEnd. destruct (Py.find Py.space text lineStart) as [k|] eqn:Hf.
      - by apply find_chunk in Hf as [? _].
      - lia. }
    assert (drop lineStart text <> []) as Hne.
    { intros H. apply (f_equal length) in H. rewrite length_drop in H. cbn in H. lia. }
    rewrite (chunks_cons _ _ _ Hne Hcut).
    set (line := Py.slice_nat text lineStart (lineEnd + 1)) in *.
    pose proof Htight as (Hlen & Hfwd & Hbwd).
    destruct (lineHash reg !! line) as [n|] eqn:Hh.
    + destruct (Hfwd _ _ Hh) as [Hn Hl].
      pose proof (lookup_lt_Some _ _ _ Hl) as Hnlt.
      rewrite chr_ok by lia. cbn [mbind result_bind].
      destruct (IH (lineEnd + 1) reg (chars ++ [n])) as (new & reg' & E & Ht' & Hp & Hb & HF);
        [lia|done|lia|].
      exists (n :: new), reg'. rewrite E, <- app_assoc.
      split; [done|]. split; [done|]. split; [done|]. split; [lia|].
      constructor; [|done]. split; [done|].
      destruct Hp as [k ->]. by rewrite lookup_app_l.
    + destruct (N.eqb_spec (N.of_nat (length (lineArray reg))) maxLines) as [Heq|Hneq]; [lia|].
      rewrite chr_ok by (rewrite length_app; cbn; lia). cbn [mbind result_bind].
      destruct (IH (lineEnd + 1)
                  {| lineArray := lineArray reg ++ [line];
                     lineHash := <[line := length (lineArray reg ++ [line]) - 1]> (lineHash reg) |}
                  (chars ++ [length (lineArray reg ++ [line]) - 1]))
        as (new & reg' & E & Ht' & Hp & Hb & HF).
      { lia. }
      { by apply reg_tight_insert. }
      { cbn [lineArray]. rewrite length_app. cbn. lia. }
      cbn [lineArray] in Hp, Hb. rewrite length_app in Hb. cbn in Hb.
      exists ((length (lineArray reg ++ [line]) - 1) :: new), reg'.
      rewrite E, <- app_assoc.
      split; [done|]. split; [done|].
      split; [etrans; [|exact Hp]; by apply prefix_app_r|]. split; [lia|].
      constructor; [|done]. rewrite length_app. cbn.
      replace (length (lineArray reg) + 1 - 1) with (length (lineArray reg)) by lia.
      split; [done|]. destruct Hp as [k ->].
      rewrite <- app_assoc, lookup_app_r by lia. by rewrite Nat.sub_diag.
Qed.
End Loop.

Lemma stands_for_prefix la la' cs chunks_ :
  la `prefix_of` la' ->
  Forall2 (stands_for la) cs chunks_ -> Forall2 (stands_for la') cs chunks_.
Proof.
  intros [k ->] H. eapply Forall2_impl; [exact H|]. intros c chunk [Hc Hl]. split; [done|].
  rewrite lookup_app_l; [done|]. by eapply lookup_lt_Some.
Qed.

Section Codec.
Variable nlp : str -> list word.

Lemma munge_chunks maxLines text reg :
  (maxLines <= 1114111)%N ->
  reg_tight reg ->
  (N.of_nat (length (lineArray reg)) + N.of_nat (length (munge_text nlp text)) <= maxLines)%N ->
  exists chars reg',
    diff_linesToCharsMunge nlp maxLines text reg
    = Ok (chars, snd (tokenize_lines nlp text), reg') /\
    reg_tight reg' /\
    lineArray reg `prefix_of` lineArray reg' /\
    length (lineArray reg') <= length (lineArray reg) + length (munge_text nlp text) /\
    Forall2 (stands_for (lineArray reg')) chars (chunks (munge_text nlp text)).
Proof.
  intros Hm Ht Hfit.
  destruct (munge_loop_chunks maxLines Hm (munge_text nlp text)
              (length (munge_text nlp text)) 0 reg [])
    as (new & reg' & E & Ht' & Hp & Hb & HF); [lia|done|lia|].
  exists new, reg'. unfold diff_linesToCharsMunge. rewrite E. cbn.
  rewrite Nat.sub_0_r in Hb. by rewrite drop_0 in HF.
Qed.

(** Both symbol strings against the shared table. *)
Lemma diff_wordsToChars_chunks text1 text2 :
  fits (length (munge_text nlp text1)) (length (munge_text nlp text2)) ->
  exists chars1 chars2 la,
    diff_wordsToChars nlp text1 text2
    = Ok (chars1, chars2, la,
          (snd (tokenize_lines nlp text1), snd (tokenize_lines nlp text2))) /\
    Forall2 (stands_for la) chars1 (chunks (munge_text nlp text1)) /\
    Forall2 (stands_for la) chars2 (chunks (munge_text nlp text2)) /\
    (forall a b chunk, stands_for la a chunk -> stands_for la b chunk -> a = b).
Proof.
  intros [Hf1 Hf2]. unfold diff_wordsToChars.
  destruct (munge_chunks 666666 text1 {| lineArray := [[]]; lineHash := ∅ |})
    as (c1 & reg1 & E1 & Ht1 & Hp1 & Hb1 & HF1); [lia|exact reg0_tight|cbn; lia|].
  cbn [lineArray length] in Hb1.
  destruct (munge_chunks 1114111 text2 reg1)
    as (c2 & reg2 & E2 & Ht2 & Hp2 & Hb2 & HF2); [lia|done|lia|].
  exists c1, c2, (lineArray reg2). rewrite E1. cbn. rewrite E2. cbn.
  split; [done|]. split; [by eapply stands_for_prefix|]. split; [done|].
  intros a b chunk [Ha Hla] [Hb Hlb]. destruct Ht2 as (_ & _ & Hbwd).
  pose proof (Hbwd _ _ Ha Hla). pose proof (Hbwd _ _ Hb Hlb). congruence.
Qed.

Lemma stands_for_decode la cs chunks_ :
  Forall2 (stands_for la) cs chunks_ -> decode la cs = concat chunks_.
Proof.
  unfold decode. induction 1 as [|c chunk cs chunks_ [_ Hl] _ IH]; [done|].
  cbn. by rewrite Hl, IH.
Qed.

Lemma stands_for_same la cs1 cs2 chunks_ :
  (forall a b chunk, stands_for la a chunk -> stands_for la b chunk -> a = b) ->
  Forall2 (stands_for la) cs1 chunks_ -> Forall2 (stands_for la) cs2 chunks_ -> cs1 = cs2.
Proof.
  intros Hinj H1. revert cs2. induction H1 as [|c chunk cs chunks_ Hc _ IH]; intros cs2 H2.
  - by inversion H2.
  - inversion H2 as [|c' ? cs' ? Hc' H2']; subst. f_equal; [by eapply Hinj|by apply IH].
Qed.

(** X1.  For texts that fit the symbol space, the symbols of both
    texts stand for their chunks in one shared table, position by
    position, and two positions, in the same text or across the two,
    carry the same symbol exactly when they carry the same chunk. *)
Theorem shared_symbol_table text1 text2 :
  fits (length (munge_text nlp text1)) (length (munge_text nlp text2)) ->
  exists chars1 chars2 la offsets,
    diff_wordsToChars nlp text1 text2 = Ok (chars1, chars2, la, offsets) /\
    Forall2 (stands_for la) chars1 (chunks (munge_text nlp text1)) /\
    Forall2 (stands_for la) chars2 (chunks (munge_text nlp text2)) /\
    (forall i j a b chunk_a chunk_b,
        (chars1 ++ chars2) !! i = Some a ->
        (chunks (munge_text nlp text1) ++ chunks (munge_text nlp text2)) !! i = Some chunk_a ->
        (chars1 ++ chars2) !! j = Some b ->
        (chunks (munge_text nlp text1) ++ chunks (munge_text nlp text2)) !! j = Some chunk_b ->
        (a = b <-> chunk_a = chunk_b)).
Proof.
  intros Hfit.
  destruct (diff_wordsToChars_chunks text1 text2 Hfit) as (c1 & c2 & la & E & H1 & H2 & Hinj).
  exists c1, c2, la, (snd (tokenize_lines nlp text1), snd (tokenize_lines nlp text2)).
  split; [done|]. split; [done|]. split; [done|].
  assert (Forall2 (stands_for la) (c1 ++ c2)
            (chunks (munge_text nlp text1) ++ chunks (munge_text nlp text2))) as H12
    by (by apply Forall2_app).
  intros i j a b ca cb Ha Hca Hb Hcb.
  destruct (Forall2_lookup_lr _ _ _ _ _ _ H12 Ha Hca) as [Ha0 Hla].
  destruct (Forall2_lookup_lr _ _ _ _ _ _ H12 Hb Hcb) as [Hb0 Hlb].
  split.
  - intros ->. congruence.
  - intros ->. by apply (Hinj a b cb).
Qed.

(** X2.  For texts that fit the symbol space, the two symbol strings
    are equal exactly when the two texts have the same normal form; in
    particular a text diffed against itself is encoded twice by the
    same symbols. *)
Theorem same_text_same_symbols text1 text2 :
  fits (length (munge_text nlp text1)) (length (munge_text nlp text2)) ->
  exists chars1 chars2 la offsets,
    diff_wordsToChars nlp text1 text2 = Ok (chars1, chars2, la, offsets) /\
    (chars1 = chars2 <-> munge_text nlp text1 = munge_text nlp text2).
Proof.
  intros Hfit.
  destruct (diff_wordsToChars_chunks text1 text2 Hfit) as (c1 & c2 & la & E & H1 & H2 & Hinj).
  exists c1, c2, la, (snd (tokenize_lines nlp text1), snd (tokenize_lines nlp text2)).
  split; [done|]. split.
  - intros Hc. subst c2.
    rewrite <- (concat_chunks (munge_text nlp text1)).
    rewrite <- (concat_chunks (munge_text nlp text2)).
    by rewrite <- (stands_for_decode _ _ _ H1), <- (stands_for_decode _ _ _ H2).
  - intros Heq. rewrite Heq in H1.
    exact (stands_for_same la c1 c2 (chunks (munge_text nlp text2)) Hinj H1 H2).
Qed.

Lemma Forall2_map_words la cs (words : list str) :
  Forall2 (stands_for la) cs (map (fun w => w ++ [Py.space]) words) ->
  Forall2 (fun c w => stands_for la c (w ++ [Py.space])) cs words.
Proof.
  revert cs. induction words as [|w ws IH]; intros cs H; inversion H; subst.
  - constructor.
  - constructor; [done|]. by apply IH.
Qed.


End Codec.
End CodecFacts.

(** * A text against the empty text *)

Module EmptySide.
Import Diff DiffSpec DiffFacts CodecFacts.

Lemma side_text_elem {A} skip (d : list (op * list A)) o s x :
  (o, s) ∈ d -> o <> skip -> x ∈ s -> x ∈ side_text skip d.
Proof.
  induction d as [|[o' s'] d IH]; intros Hin Ho Hx; [by apply elem_of_nil in Hin|].
  cbn [side_text]. apply elem_of_cons in Hin as [[= <- <-]|Hin].
  - rewrite decide_False by done. apply elem_of_app. by left.
  - destruct (decide (o' = skip)); [by apply IH|]. apply elem_of_app. right. by apply IH.
Qed.

(** An edit script between two symbol strings that share no symbol,
    merged and without empty runs, is one deletion followed by one
    insertion. *)
Lemma two_runs (d : list (op * list nat)) a b :
  Forall (fun r => r.2 <> []) d -> clean_ops (map fst d) = true ->
  text1_of d = a -> text2_of d = b -> a <> [] -> b <> [] ->
  (forall x, x ∈ a -> x ∉ b) ->
  d = [(DIFF_DELETE, a); (DIFF_INSERT, b)].
Proof.
  intros Hne Hclean H1 H2 Ha Hb Hdisj.
  assert (forall s, (DIFF_EQUAL, s) ∈ d -> False) as Hno.
  { intros s Hin. rewrite Forall_forall in Hne. pose proof (Hne _ Hin) as Hs. cbn in Hs.
    destruct s as [|x s]; [done|].
    apply (Hdisj x).
    - rewrite <- H1. apply (side_text_elem _ _ DIFF_EQUAL (x :: s)); [done|done|by left].
    - rewrite <- H2. apply (side_text_elem _ _ DIFF_EQUAL (x :: s)); [done|done|by left]. }
  unfold text1_of, text2_of in *.
  destruct d as [|[o1 s1] [|[o2 s2] [|[o3 s3] d3]]].
  - by cbn in H1.
  - destruct o1; cbn [side_text] in H1, H2; repeat case_decide; try congruence.
    exfalso. apply (Hno s1). by left.
  - destruct o1, o2; cbn in Hclean; try done.
    all: try (exfalso; apply (Hno s1); by left).
    all: try (exfalso; apply (Hno s2); right; by left).
    cbn [side_text] in H1, H2. repeat case_decide; try congruence.
    rewrite ?app_nil_r in H1, H2. by subst.
  - destruct o1, o2, o3; cbn in Hclean; try done.
    all: try (exfalso; apply (Hno s1); by left).
    all: try (exfalso; apply (Hno s2); right; by left).
    all: exfalso; apply (Hno s3); do 2 right; by left.
Qed.

Lemma decode_runs la (d : list (op * list nat)) d' a b :
  diff_charsToLines d la = Ok d' -> d = [(DIFF_DELETE, a); (DIFF_INSERT, b)] ->
  in_range la a -> in_range la b ->
  d' = [(DIFF_DELETE, decode la a); (DIFF_INSERT, decode la b)].
Proof.
  intros E -> Ha Hb. unfold diff_charsToLines in E. cbn in E.
  rewrite !traverse_lookup in E by done. cbn in E. by injection E as <-.
Qed.

Lemma stands_for_in_range la cs chunks_ :
  Forall2 (stands_for la) cs chunks_ -> in_range la cs.
Proof.
  unfold in_range. induction 1 as [|c chunk cs chunks_ [_ Hl] _ IH]; constructor; [|done].
  by eapply lookup_lt_Some.
Qed.

Section EmptySide.
Variable nlp : str -> list word.
Variable diff_main : list nat -> list nat -> list (op * list nat).
Hypothesis diff_main_ok : diff_main_contract diff_main.
Hypothesis diff_main_merged : diff_main_clean diff_main.

(** The symbols of a text with tokens, and the one symbol of the
    empty text, which is none of them. *)
Lemma symbols_apart text la c1 c2 :
  tokens nlp text <> [] ->
  Forall (fun w => w <> [] /\ no_space w) (tokens nlp text) ->
  Forall2 (stands_for la) c1 (chunks (munge_text nlp text)) ->
  Forall2 (stands_for la) c2 (chunks (munge_text nlp [])) ->
  length c1 = length (tokens nlp text) /\ c1 <> [] /\
  (exists k, c2 = [k] /\ la !! k = Some [Py.space]) /\
  (forall x, x ∈ c1 -> x ∉ c2) /\ (forall x, x ∈ c2 -> x ∉ c1).
Proof.
  intros Hne Hall H1 H2.
  rewrite munge_text_normal_form in H1. unfold normal_form in H1.
  rewrite chunks_words in H1; [|eapply Forall_impl; [exact Hall|]; by intros w [_ ?]|done].
  apply Forall2_map_words in H1.
  change (chunks (munge_text nlp [])) with [[Py.space]] in H2.
  inversion H2 as [|k ? c2' ? [Hk Hlk] H2']; subst. inversion H2'; subst.
  pose proof (Forall2_length _ _ _ H1) as Hlen.
  assert (forall x, x ∈ c1 -> x <> k) as Hx.
  { intros x Hin ->.
    apply list_elem_of_lookup_1 in Hin as [i Hi].
    destruct (Forall2_lookup_l _ _ _ _ _ H1 Hi) as (w & Hw & [_ Hlw]).
    rewrite Forall_forall in Hall.
    destruct (Hall w (list_elem_of_lookup_2 _ _ _ Hw)) as [Hwne _].
    rewrite Hlk in Hlw. injection Hlw as Hlw. destruct w; [done|].
    by destruct w; cbn in Hlw. }
  split; [done|]. split.
  { intros ->. cbn in Hlen. by destruct (tokens nlp text). }
  split; [by exists k|]. split.
  - intros x Hin Hin'. apply list_elem_of_singleton in Hin'. by apply (Hx x).
  - intros x Hin' Hin. apply list_elem_of_singleton in Hin'. by apply (Hx x).
Qed.


End EmptySide.
End EmptySide.


(** * The loop of [handle_diff]: edits counted and offsets consumed *)

Module EditsCounts.
Import Edits EditsSpec EditsFacts.

Lemma side_count_cons skip o (s : str) k rest :
  side_count skip ((o, s, k) :: rest)
  = (if decide (o = skip) then 0 else k) + side_count skip rest.
Proof. done. Qed.

Lemma count_edits_cons k l :
  count_edits (k :: l) = (if decide (k = same) then 0 else 1) + count_edits l.
Proof. unfold count_edits. cbn. by case_bool_decide; destruct (decide (k = same)). Qed.

Lemma count_edits_zero ops :
  count_edits (spec_classify ops) = 0 <-> Forall (fun o => o = DIFF_EQUAL) ops.
Proof.
  induction ops as [|o rest IH]; [done|].
  destruct o.
  - split; [|by inversion 1].
    destruct rest as [|[] ?]; cbn [spec_classify]; rewrite count_edits_cons;
      case_decide; done || lia.
  - cbn [spec_classify]. rewrite count_edits_cons. case_decide; [|done].
    rewrite Forall_cons, <- IH. cbn. tauto.
  - split; [|by inversion 1].
    cbn [spec_classify]. rewrite count_edits_cons. case_decide; done || lia.
Qed.

Section Counts.
Variable format_edit : str -> edit_kind -> str.
Variables content1 content2 : str.

Local Abbreviation emit_substitution := (emit_substitution format_edit content1 content2).
Local Abbreviation emit_deletion := (emit_deletion format_edit content1 content2).
Local Abbreviation emit_insertion := (emit_insertion format_edit content1 content2).
Local Abbreviation emit_same := (emit_same content1 content2).
Local Abbreviation classify := (classify format_edit content1 content2).
Local Abbreviation handle_loop := (handle_loop format_edit content1 content2).
Local Abbreviation handle_diff := (handle_diff format_edit content1 content2).

Lemma emit_substitution_advanced st s s' n n' :
  advanced st (emit_substitution st s s' n n') n n' 1.
Proof. done. Qed.

Lemma emit_deletion_advanced st s n : advanced st (emit_deletion st s n) n 0 1.
Proof. done. Qed.

Lemma emit_insertion_advanced st s n : advanced st (emit_insertion st s n) 0 n 1.
Proof. done. Qed.

Lemma emit_same_advanced st s n : advanced st (emit_same st s n) n n 0.
Proof. unfold advanced. cbn. split_and!; [done|done|lia]. Qed.

Lemma advanced_trans st st' st'' d1 d2 e d1' d2' e' :
  advanced st st' d1 d2 e -> advanced st' st'' d1' d2' e' ->
  advanced st st'' (d1 + d1') (d2 + d2') (e + e').
Proof.
  intros (H1 & H2 & H3) (H1' & H2' & H3'). unfold advanced.
  rewrite H1', H2', H3', H1, H2, H3, !drop_drop. split_and!; [done|done|lia].
Qed.

(** The recursion over the runs takes from each offset list the token
    counts of the runs of that side, and counts one edit per record
    that is not [same]. *)
Lemma classify_advanced n : forall runs st,
  length runs <= n ->
  advanced st (classify runs st)
    (side_count DIFF_INSERT runs) (side_count DIFF_DELETE runs)
    (count_edits (spec_classify (ops_of runs))).
Proof.
  induction n as [|n IH]; intros runs st Hn.
  { destruct runs; [|cbn in Hn; lia]. unfold advanced. cbn.
    split_and!; [done|done|lia]. }
  destruct runs as [|[[o s] k] rest].
  { unfold advanced. cbn. split_and!; [done|done|lia]. }
  cbn in Hn.
  destruct o.
  - destruct rest as [|[[o' s'] k'] rest'].
    + exact (advanced_trans _ _ _ _ _ _ _ _ _
               (emit_deletion_advanced st (Py.strip s) k) (IH [] _ ltac:(cbn; lia))).
    + destruct o'.
      * exact (advanced_trans _ _ _ _ _ _ _ _ _
                 (emit_deletion_advanced st (Py.strip s) k)
                 (IH ((DIFF_DELETE, s', k') :: rest') _ ltac:(cbn in *; lia))).
      * exact (advanced_trans _ _ _ _ _ _ _ _ _
                 (emit_deletion_advanced st (Py.strip s) k)
                 (IH ((DIFF_EQUAL, s', k') :: rest') _ ltac:(cbn in *; lia))).
      * exact (advanced_trans _ _ _ _ _ _ _ _ _
                 (emit_substitution_advanced st (Py.strip s) (Py.strip s') k k')
                 (IH rest' _ ltac:(cbn in *; lia))).
  - exact (advanced_trans _ _ _ _ _ _ _ _ _
             (emit_same_advanced st (Py.strip s) k) (IH rest _ ltac:(lia))).
  - exact (advanced_trans _ _ _ _ _ _ _ _ _
             (emit_insertion_advanced st (Py.strip s) k) (IH rest _ ltac:(lia))).
Qed.

(** X4.  On a run sequence and its symbol-level copy, [handle_diff]
    raises [self.num_edits] by the number of records it returns that
    are not [same]; the counter is unchanged exactly when every run is
    an equal run. *)
Theorem handle_diff_counts_edits diff char_diff offsets1 offsets2 n :
  length char_diff = length diff -> diff <> [] ->
  exists html1 html2 eds n',
    handle_diff diff char_diff offsets1 offsets2 n = Ok (html1, html2, eds, n') /\
    n' = n + count_edits (map edit_type eds) /\
    (n' = n <-> Forall (fun r => r.1 = DIFF_EQUAL) diff).
Proof.
  intros Hlen Hne.
  destruct (handle_diff_classify format_edit content1 content2
              diff char_diff offsets1 offsets2 n Hlen Hne) as (st & Hst & E).
  set (ntl := map (fun r : op * list nat => length r.2) char_diff) in *.
  assert (length ntl = length diff) as Hntl by (subst ntl; by rewrite length_map).
  set (st0 := {| html1 := []; html2 := []; edit_dicts := [];
                 offsets1 := offsets1; offsets2 := offsets2; num_edits := n |}) in *.
  destruct (classify_edits format_edit content1 content2 _ (zip diff ntl) st0 (le_n _))
    as (new & Hnew & Hkinds & _).
  destruct (classify_advanced _ (zip diff ntl) st0 (le_n _)) as (_ & _ & Hnum).
  rewrite <- Hst in Hnew, Hnum. cbn in Hnew, Hnum.
  rewrite (ops_of_zip _ _ Hntl) in Hkinds, Hnum.
  exists (Py.join [Py.space] (html1 st)), (Py.join [Py.space] (html2 st)),
         (edit_dicts st), (num_edits st).
  split; [done|]. rewrite Hnew, Hkinds. split; [done|].
  rewrite Hnum, <- (Forall_map fst (fun o => o = DIFF_EQUAL)), <- count_edits_zero. lia.
Qed.

(** X5.  With one token count per run, the loop of [handle_diff]
    ends within its fuel and has then taken from [offsets1] as many
    entries as the delete and equal runs count tokens, and from
    [offsets2] as many as the insert and equal runs count, a
    substitution taking from both. *)
Theorem handle_loop_consumes diff ntl st :
  length ntl = length diff ->
  exists st',
    handle_loop (length diff) diff ntl 0 st = Ok st' /\
    offsets1 st' = drop (side_count DIFF_INSERT (zip diff ntl)) (offsets1 st) /\
    offsets2 st' = drop (side_count DIFF_DELETE (zip diff ntl)) (offsets2 st).
Proof.
  intros Hlen. eexists. split.
  - apply handle_loop_classify; [done|lia].
  - rewrite drop_0.
    destruct (classify_advanced _ (zip diff ntl) st (le_n _)) as (H1 & H2 & _).
    by split.
Qed.

Lemma side_count_zip skip (diff : list (op * str)) : forall cd : list (op * list nat),
  map fst diff = map fst cd ->
  side_count skip (zip diff (map (fun r => length r.2) cd)) = length (DiffSpec.side_text skip cd).
Proof.
  induction diff as [|[o s] diff IH]; intros [|[o' cs] cd]; try done.
  cbn [map fst]. intros [= -> Hm].
  cbn [zip_with map DiffSpec.side_text]. rewrite side_count_cons, (IH cd Hm).
  case_decide; [done|]. by rewrite length_app.
Qed.

End Counts.
End EditsCounts.

(** * From the texts to the records: every offset is used once *)

Module Pipeline.
Import Diff DiffSpec DiffFacts CodecFacts Edits EditsSpec EditsFacts EditsCounts.

Section Pipeline.
Variable nlp : str -> list word.
Variable diff_main : list nat -> list nat -> list (op * list nat).
Hypothesis diff_main_ok : diff_main_contract diff_main.
Variable format_edit : str -> edit_kind -> str.
Variables content1 content2 : str.

(** A text of one line with tokens, not ending in a newline: one
    symbol and one offset per token. *)
Lemma single_line_tokens text :
  length (token_lines nlp text) = 1 ->
  Py.endswith Py.newline text = false ->
  munge_words nlp text = fst (tokenize_lines nlp text) /\
  munge_words nlp text <> [] /\
  length (snd (tokenize_lines nlp text)) = length (munge_words nlp text).
Proof.
  intros Hone Hend. unfold munge_words. rewrite Hend.
  rewrite tokenize_lines_spec. cbn [fst snd].
  destruct (token_lines nlp text) as [|l [|? ?]] eqn:E; try done.
  assert (has_tokens nlp l = true) as Hl.
  { assert (In l (token_lines nlp text)) as Hin by (rewrite E; by left).
    unfold token_lines in Hin. by apply filter_In in Hin as [_ ?]. }
  cbn. rewrite app_nil_r. unfold line_words, line_offsets.
  split; [done|]. split; [|by rewrite !length_map].
  unfold has_tokens in Hl. apply andb_prop in Hl as [_ Hl].
  by destruct (word_tuples nlp l).
Qed.


End Pipeline.
End Pipeline.

(** * Locating sentences: [locate_paragraph], [checkConsecutive],
      [add_unaligned_sentences] *)

Module SentenceFacts.
Import Edits EditsSpec EditsFacts.

Lemma locate_loop_spec paragraphs sentence_index : forall paragraph_list i end_,
  Forall (fun par_index => par_index < length paragraphs) paragraph_list ->
  (i = 0 -> end_ = (-1)%Z) -> (-1 <= end_)%Z -> (end_ + 1 <= Z.of_nat sentence_index)%Z ->
  match listed_sentences paragraph_list paragraphs
          !! Z.to_nat (Z.of_nat sentence_index - (end_ + 1)) with
  | Some sent =>
      exists par_index p k,
        locate_loop paragraph_list i end_ sentence_index paragraphs = Ok (par_index, sent) /\
        par_index ∈ paragraph_list /\
        paragraphs !! par_index = Some p /\ p !! k = Some sent
  | None => locate_loop paragraph_list i end_ sentence_index paragraphs = Raise IndexError
  end.
Proof.
  induction paragraph_list as [|par_index rest IH]; intros i end_ Hall Hi Hend Hle; [done|].
  apply Forall_cons in Hall as [Hpar Hall].
  destruct (lookup_lt_is_Some_2 paragraphs par_index Hpar) as [p Hp].
  unfold listed_sentences. cbn [map concat locate_loop]. rewrite Hp.
  cbn [default of_option mbind result_bind]. change (id p) with p.
  set (begin := match i with 0 => 0%Z | S _ => (end_ + 1)%Z end).
  assert (begin = (end_ + 1)%Z) as Hb by (subst begin; destruct i; [rewrite Hi|]; done).
  set (end' := match i with
               | 0 => (Z.of_nat (length p) - 1)%Z
               | S _ => (begin + Z.of_nat (length p) - 1)%Z
               end).
  assert (end' = (begin + Z.of_nat (length p) - 1)%Z) as He.
  { subst end'. destruct i; [|done]. rewrite Hb, Hi by done. lia. }
  rewrite <- Hb. clearbody begin end'.
  destruct (decide (begin <= Z.of_nat sentence_index /\ Z.of_nat sentence_index <= end')%Z)
    as [[_ Hin]|Hout].
  - destruct (lookup_lt_is_Some_2 p (Z.to_nat (Z.of_nat sentence_index - begin)))
      as [sent Hs]; [lia|].
    rewrite lookup_app_l by lia. rewrite Hs. cbn [of_option mbind result_bind].
    exists par_index, p, (Z.to_nat (Z.of_nat sentence_index - begin)).
    split_and!; [done|by left|done|done].
  - rewrite lookup_app_r by lia.
    replace (Z.to_nat (Z.of_nat sentence_index - begin) - length p)
      with (Z.to_nat (Z.of_nat sentence_index - (end' + 1))) by lia.
    specialize (IH (S i) end' Hall ltac:(done) ltac:(lia) ltac:(lia)).
    fold (listed_sentences rest paragraphs).
    destruct (listed_sentences rest paragraphs !! _) as [sent|]; [|done].
    destruct IH as (par' & p' & k & E & Hin & Hp' & Hk).
    exists par', p', k. split_and!; [done|by right|done|done].
Qed.

(** X7.  [locate_paragraph] reads the listed paragraphs as one
    sequence of sentences: it returns the sentence at the given index
    of that sequence, with a listed paragraph that holds it, and raises
    [IndexError] exactly when the sequence is too short. *)
Theorem locate_paragraph_indexes_listed paragraph_list sentence_index paragraphs :
  Forall (fun par_index => par_index < length paragraphs) paragraph_list ->
  match listed_sentences paragraph_list paragraphs !! sentence_index with
  | Some sent =>
      exists par_index p k,
        locate_paragraph paragraph_list sentence_index paragraphs = Ok (par_index, sent) /\
        par_index ∈ paragraph_list /\
        paragraphs !! par_index = Some p /\ p !! k = Some sent
  | None => locate_paragraph paragraph_list sentence_index paragraphs = Raise IndexError
  end.
Proof.
  intros Hall.
  pose proof (locate_loop_spec paragraphs sentence_index paragraph_list 0 (-1)%Z Hall
                ltac:(done) ltac:(lia) ltac:(lia)) as H.
  by replace (Z.to_nat (Z.of_nat sentence_index - (-1 + 1))) with sentence_index in H by lia.
Qed.

Lemma seq_sorted a k : StronglySorted Nat.le (seq a k).
Proof.
  revert a. induction k as [|k IH]; intros a; cbn; constructor; [apply IH|].
  apply Forall_forall. intros x Hx%list_elem_of_In%in_seq. unfold Nat.le. lia.
Qed.

Lemma foldr_min_spec x r :
  foldr Nat.min x r ∈ x :: r /\ Forall (fun y => foldr Nat.min x r <= y) (x :: r).
Proof.
  induction r as [|y r [Hin Hall]]; cbn [foldr].
  { split; [by left|]. by repeat constructor. }
  apply Forall_cons in Hall as [Hx Hall].
  destruct (Nat.min_spec y (foldr Nat.min x r)) as [[Hlt ->]|[Hge ->]].
  - split; [right; by left|].
    constructor; [lia|]. constructor; [done|].
    eapply Forall_impl; [exact Hall|]. cbn. intros; lia.
  - split.
    + apply elem_of_cons in Hin as [->|Hin]; [by left|by do 2 right].
    + constructor; [done|]. constructor; [lia|done].
Qed.

Lemma foldr_max_spec x r :
  foldr Nat.max x r ∈ x :: r /\ Forall (fun y => y <= foldr Nat.max x r) (x :: r).
Proof.
  induction r as [|y r [Hin Hall]]; cbn [foldr].
  { split; [by left|]. by repeat constructor. }
  apply Forall_cons in Hall as [Hx Hall].
  destruct (Nat.max_spec y (foldr Nat.max x r)) as [[Hlt ->]|[Hge ->]].
  - split.
    + apply elem_of_cons in Hin as [->|Hin]; [by left|by do 2 right].
    + constructor; [done|]. constructor; [lia|done].
  - split; [right; by left|].
    constructor; [lia|]. constructor; [done|].
    eapply Forall_impl; [exact Hall|]. cbn. intros; lia.
Qed.

Lemma checkConsecutive_true x r :
  exists b, checkConsecutive (x :: r) = Ok b /\
            (b = true -> exists a k, x :: r ≡ₚ seq a k).
Proof.
  eexists. split; [done|]. rewrite bool_decide_eq_true. intros E.
  eexists _, _. rewrite <- E. symmetry. apply merge_sort_Permutation.
Qed.

(** X8.  [checkConsecutive] raises on the empty list and is true
    exactly for the rearrangements of a run of consecutive integers
    without repetition. *)
Theorem checkConsecutive_spec :
  checkConsecutive [] = Raise ValueError /\
  forall x r, exists b,
    checkConsecutive (x :: r) = Ok b /\
    (b = true <-> exists a k, x :: r ≡ₚ seq a k).
Proof.
  split; [done|]. intros x r. eexists. split; [done|].
  rewrite bool_decide_eq_true.
  destruct (foldr_min_spec x r) as [Hlo_in Hlo]. destruct (foldr_max_spec x r) as [Hhi_in Hhi].
  generalize dependent (foldr Nat.min x r). intros lo Hlo_in Hlo.
  generalize dependent (foldr Nat.max x r). intros hi Hhi_in Hhi.
  split.
  - intros E. exists lo, (hi + 1 - lo). rewrite <- E. symmetry. apply merge_sort_Permutation.
  - intros (a & k & Hperm).
    assert (forall y, y ∈ x :: r <-> a <= y < a + k) as Hmem.
    { intros y. rewrite Hperm, list_elem_of_In, in_seq. done. }
    assert (0 < k) as Hk.
    { pose proof (proj1 (Hmem x) ltac:(by left)). lia. }
    rewrite Forall_forall in Hlo, Hhi.
    assert (lo = a) as ->.
    { pose proof (proj1 (Hmem lo) Hlo_in). pose proof (Hlo a (proj2 (Hmem a) ltac:(lia))). lia. }
    assert (hi = a + k - 1) as ->.
    { pose proof (proj1 (Hmem hi) Hhi_in).
      pose proof (Hhi (a + k - 1) (proj2 (Hmem (a + k - 1)) ltac:(lia))). lia. }
    replace (a + k - 1 + 1 - a) with k by lia.
    apply (StronglySorted_unique Nat.le).
    + apply StronglySorted_merge_sort; apply _.
    + apply seq_sorted.
    + by rewrite merge_sort_Permutation.
Qed.

Lemma list_assign_length {A} (l : list A) i x l' :
  list_assign l i x = Ok l' -> length l' = length l.
Proof. unfold list_assign. case_decide; [|done]. intros [= <-]. apply length_insert. Qed.

Lemma set_sentence_spec key js i entry js' :
  set_sentence key js i entry = Ok js' ->
  alignments js' = alignments js /\ same_shape js js'.
Proof.
  unfold set_sentence, same_shape.
  destruct key; destruct (list_assign _ _ _) as [l| |] eqn:E; cbn [mbind result_bind];
    try done; intros [= <-]; cbn; by rewrite (list_assign_length _ _ _ _ E).
Qed.

Lemma same_shape_refl js : same_shape js js.
Proof. done. Qed.

Lemma same_shape_trans js1 js2 js3 :
  same_shape js1 js2 -> same_shape js2 js3 -> same_shape js1 js3.
Proof. unfold same_shape. intros [? ?] [? ?]. split; congruence. Qed.

Section Sentences.
Variable format_edit : str -> edit_kind -> str.

Local Abbreviation unaligned_sentence_step := (unaligned_sentence_step format_edit).
Local Abbreviation add_unaligned_sentences := (add_unaligned_sentences format_edit).

(** One sentence of [add_unaligned_sentences]: a sentence that has an
    entry is passed over; any other gets its formatted text and counts
    as one edit. *)
Lemma unaligned_sentence_step_spec kind par_index key global_offsets sent_indices
    paragraph_html js n i sentence paragraph_html' js' n' :
  unaligned_sentence_step kind par_index key global_offsets sent_indices
    (paragraph_html, js, n) i sentence = Ok (paragraph_html', js', n') ->
  paragraph_html' = match paragraph_html !! i with
                    | Some _ => paragraph_html
                    | None => <[i := format_edit sentence kind]> paragraph_html
                    end /\
  n' = n + (if bool_decide (paragraph_html !! i = None) then 1 else 0) /\
  (all_records_ok js -> all_records_ok js') /\
  same_shape js js'.
Proof.
  unfold Edits.unaligned_sentence_step.
  destruct (paragraph_html !! i) as [v|] eqn:Ei.
  { intros [= <- <- <-]. rewrite bool_decide_eq_false_2 by done.
    split_and!; [done|lia|done|done]. }
  destruct (sent_indices !! i) as [g|]; cbn [of_option mbind result_bind]; [|done].
  destruct (global_offsets !! g) as [offset|]; cbn [of_option mbind result_bind]; [|done].
  destruct (set_sentence _ _ _ _) as [js1| |] eqn:E; cbn [mbind result_bind]; [|done|done].
  intros [= <- <- <-]. apply set_sentence_spec in E as [Ha Hs]. cbn in Ha.
  rewrite bool_decide_eq_true_2 by done.
  split_and!; [done|done| |exact Hs].
  unfold all_records_ok. rewrite Ha. intros Hall.
  destruct kind; try done.
  - by apply map_Forall_insert_2.
  - apply map_Forall_insert_2; [|done]. cbn [edits].
    destruct (alignments js !! (-1)%Z) as [entry|] eqn:El; cbn [default]; [|done].
    apply (Hall _ _ El).
Qed.

Lemma unaligned_sentences_loop kind par_index key global_offsets sent_indices paragraph :
  forall i paragraph_html js n paragraph_html' js' n',
  for_enumerate (unaligned_sentence_step kind par_index key global_offsets sent_indices)
    i paragraph (paragraph_html, js, n) = Ok (paragraph_html', js', n') ->
  (forall k, paragraph_html' !! k
             = match paragraph_html !! k with
               | Some v => Some v
               | None => if decide (i <= k)
                         then (fun s => format_edit s kind) <$> paragraph !! (k - i)
                         else None
               end) /\
  n' = n + length (List.filter (fun k => bool_decide (paragraph_html !! k = None))
                     (seq i (length paragraph))) /\
  (all_records_ok js -> all_records_ok js') /\
  same_shape js js'.
Proof.
  induction paragraph as [|sentence paragraph IH]; intros i ph js n ph' js' n'.
  { cbn. intros [= <- <- <-]. split_and!; [|lia|done|done].
    intros k. destruct (ph !! k); [done|]. by case_decide. }
  cbn [for_enumerate].
  destruct (unaligned_sentence_step _ _ _ _ _ _ _ _) as [[[ph1 js1] n1]| |] eqn:E;
    cbn [mbind result_bind]; [|done|done].
  intros Hrun. apply unaligned_sentence_step_spec in E as (Hph1 & Hn1 & Hok1 & Hs1).
  apply IH in Hrun as (Hph & Hn & Hok & Hs).
  split_and!; [| |tauto|by eapply same_shape_trans].
  - intros k. rewrite Hph, Hph1.
    destruct (decide (k = i)) as [->|Hki].
    + destruct (ph !! i) as [v|] eqn:Ei; [by rewrite Ei|].
      rewrite lookup_insert_eq. rewrite decide_True by lia. by rewrite Nat.sub_diag.
    + assert ((match ph !! i with
               | Some _ => ph
               | None => <[i:=format_edit sentence kind]> ph
               end) !! k = ph !! k) as ->.
      { destruct (ph !! i); [done|]. by rewrite lookup_insert_ne. }
      destruct (ph !! k); [done|].
      destruct (decide (S i <= k)), (decide (i <= k)); try lia; [|done].
      by replace (k - i) with (S (k - S i)) by lia.
  - rewrite Hn, Hn1. cbn [length seq List.filter].
    rewrite (filter_ext_in (fun k => bool_decide (ph1 !! k = None))
               (fun k => bool_decide (ph !! k = None))).
    + destruct (bool_decide (ph !! i = None)); cbn [length]; lia.
    + intros k Hk%in_seq. rewrite Hph1.
      destruct (ph !! i); [done|]. by rewrite lookup_insert_ne by lia.
Qed.

(** X9.  [add_unaligned_sentences] always returns the empty list; it
    gives every sentence of the paragraph that has no entry in
    [paragraph_html] its formatted text and leaves the other entries
    as they are, raises [self.num_edits] by the number of entries it
    adds, and keeps the sentinels of the stored records. *)
Theorem add_unaligned_sentences_marks kind paragraph_html paragraphs par_index key
    global_offsets js n sentence_dicts paragraph_html' js' n' :
  add_unaligned_sentences kind paragraph_html paragraphs par_index key global_offsets js n
  = Ok (sentence_dicts, paragraph_html', js', n') ->
  exists paragraph,
    paragraphs !! par_index = Some paragraph /\
    sentence_dicts = [] /\
    (forall k, paragraph_html' !! k
               = match paragraph_html !! k with
                 | Some v => Some v
                 | None => (fun s => format_edit s kind) <$> paragraph !! k
                 end) /\
    n' = n + length (List.filter (fun k => bool_decide (paragraph_html !! k = None))
                       (seq 0 (length paragraph))) /\
    (all_records_ok js -> all_records_ok js').
Proof.
  unfold Edits.add_unaligned_sentences.
  destruct (paragraphs !! par_index) as [paragraph|]; cbn [of_option mbind result_bind];
    [|done].
  destruct (get_sent_indices _ _ _) as [sis| |]; cbn [mbind result_bind]; [|done|done].
  destruct (for_enumerate _ _ _ _) as [[[ph1 js1] n1]| |] eqn:E;
    cbn [mbind result_bind]; [|done|done].
  intros [= <- <- <- <-].
  apply unaligned_sentences_loop in E as (Hph & Hn & Hok & _).
  exists paragraph. split_and!; [done|done| |done|done].
  intros k. rewrite Hph. destruct (paragraph_html !! k); [done|].
  rewrite decide_True by lia. by rewrite Nat.sub_0_r.
Qed.

End Sentences.

Lemma get_sentence_step_spec paragraph_list paragraphs global_offsets key content
    sent_indices par_index js par_indices sentence_dicts sentence_parts i sent_index
    par_index' js' par_indices' sentence_dicts' sentence_parts' :
  get_sentence_step paragraph_list paragraphs global_offsets key content sent_indices
    (par_index, js, par_indices, sentence_dicts, sentence_parts) i sent_index
  = Ok (par_index', js', par_indices', sentence_dicts', sentence_parts') ->
  exists d g,
    sent_indices !! i = Some g /\
    sentence_record global_offsets content d g /\
    sentence_dicts' = sentence_dicts ++ [d] /\
    sentence_parts' = sentence_parts ++ [dict_text d] /\
    alignments js' = alignments js /\ same_shape js js'.
Proof.
  unfold get_sentence_step.
  destruct (match paragraphs !! par_index ≫= _ with
            | Some sent => Ok (par_index, sent)
            | None => locate_paragraph paragraph_list sent_index paragraphs
            end) as [[par1 sent]| |]; cbn [mbind result_bind]; [|done|done].
  destruct (sent_indices !! i) as [g|]; cbn [of_option mbind result_bind]; [|done].
  destruct (global_offsets !! g) as [offset|] eqn:Eo; cbn [of_option mbind result_bind];
    [|done].
  destruct (set_sentence _ _ _ _) as [js1| |] eqn:E; cbn [mbind result_bind]; [|done|done].
  intros [= <- <- <- <- <-]. apply set_sentence_spec in E as [Ha Hs].
  eexists _, g. split_and!; [done| |done|done|done|done].
  by exists par1, offset.
Qed.

Lemma get_sentence_loop paragraph_list paragraphs global_offsets key content sent_indices
    sentence_list :
  forall i par_index js par_indices sentence_dicts sentence_parts
         par_index' js' par_indices' sentence_dicts' sentence_parts',
  for_enumerate (get_sentence_step paragraph_list paragraphs global_offsets key content
                   sent_indices)
    i sentence_list (par_index, js, par_indices, sentence_dicts, sentence_parts)
  = Ok (par_index', js', par_indices', sentence_dicts', sentence_parts') ->
  exists new,
    sentence_dicts' = sentence_dicts ++ new /\
    sentence_parts' = sentence_parts ++ map dict_text new /\
    Forall2 (sentence_record global_offsets content) new
      (take (length sentence_list) (drop i sent_indices)) /\
    alignments js' = alignments js /\ same_shape js js'.
Proof.
  induction sentence_list as [|j sentence_list IH];
    intros i par js pis sds parts par' js' pis' sds' parts'.
  { cbn. intros [= <- <- <- <- <-]. exists []. rewrite !app_nil_r.
    split_and!; done || constructor. }
  cbn [for_enumerate].
  destruct (get_sentence_step _ _ _ _ _ _ _ _ _) as [[[[[par1 js1] pis1] sds1] parts1]| |]
    eqn:E; cbn [mbind result_bind]; [|done|done].
  intros Hrun.
  apply get_sentence_step_spec in E as (d & g & Hg & Hd & -> & -> & Ha1 & Hs1).
  apply IH in Hrun as (new & -> & -> & Hnew & Ha & Hs).
  exists (d :: new). rewrite <- !app_assoc. cbn [app map length].
  split_and!; [done|done| |congruence|by eapply same_shape_trans].
  rewrite (drop_S _ _ _ Hg). cbn [take]. by constructor.
Qed.

(** X10.  [get_sentence] returns [None] exactly when every listed
    sentence has an entry in [paragraph_html], and then changes
    nothing.  Otherwise the sentence list it returns is a
    rearrangement of a gap-free range that holds every listed sentence
    without an entry; the global indices are those of
    [get_sent_indices]; there is one sentence record per index, its
    text the slice of [content] at the table's span; the sentence is
    these texts joined on single spaces; and only entries of the
    sentence lists are replaced. *)
Theorem get_sentence_range par_index paragraph_list sentence_list paragraphs
    paragraph_html global_offsets key content js r js' :
  get_sentence par_index paragraph_list sentence_list paragraphs paragraph_html
    global_offsets key content js = Ok (r, js') ->
  match r with
  | None => (forall j, j ∈ sentence_list -> is_Some (paragraph_html !! j)) /\ js' = js
  | Some (sentence, sentence_list', par_indices, sent_indices, sentence_dicts) =>
      (exists j, j ∈ sentence_list /\ paragraph_html !! j = None) /\
      (exists a k, sentence_list' ≡ₚ seq a k) /\
      (forall j, j ∈ sentence_list -> paragraph_html !! j = None -> j ∈ sentence_list') /\
      get_sent_indices par_index paragraphs sentence_list' = Ok sent_indices /\
      Forall2 (sentence_record global_offsets content) sentence_dicts sent_indices /\
      sentence = Py.join [Py.space] (map dict_text sentence_dicts) /\
      alignments js' = alignments js /\ same_shape js js'
  end.
Proof.
  unfold get_sentence.
  set (todo := List.filter (fun j => bool_decide (paragraph_html !! j = None)) sentence_list).
  assert (forall j, j ∈ todo <-> j ∈ sentence_list /\ paragraph_html !! j = None) as Htodo.
  { intros j. subst todo. rewrite !list_elem_of_In, filter_In, bool_decide_eq_true. done. }
  destruct todo as [|x rest] eqn:Et.
  { intros [= <- <-]. split; [|done]. intros j Hj.
    destruct (paragraph_html !! j) eqn:Ej; [done|].
    pose proof (proj2 (Htodo j) (conj Hj Ej)) as Hin. by apply elem_of_nil in Hin. }
  destruct (checkConsecutive_true x rest) as (b & Eb & Hb).
  rewrite Eb. cbn [mbind result_bind].
  set (sl := if b then x :: rest else seq (foldr Nat.min x rest)
                                          (foldr Nat.max x rest + 1 - foldr Nat.min x rest)).
  destruct (get_sent_indices par_index paragraphs sl) as [sis| |] eqn:Es;
    cbn [mbind result_bind]; [|done|done].
  destruct (for_enumerate _ _ _ _) as [[[[[par1 js1] pis1] sds1] parts1]| |] eqn:E;
    cbn [mbind result_bind]; [|done|done].
  intros [= <- <-].
  apply get_sentence_loop in E as (new & -> & -> & Hnew & Ha & Hs).
  assert (length sis = length sl) as Hlen.
  { unfold get_sent_indices in Es.
    destruct (sentence_offset_before _ _); cbn [mbind result_bind] in Es; try done.
    injection Es as <-. by rewrite length_map. }
  rewrite drop_0, <- Hlen, firstn_all in Hnew.
  split_and!; try done.
  - exists x. apply Htodo. by left.
  - subst sl. destruct b; [by apply Hb|by eexists _, _].
  - intros j Hj Ej. pose proof (proj2 (Htodo j) (conj Hj Ej)) as Hin.
    subst sl. destruct b; [done|].
    destruct (foldr_min_spec x rest) as [_ Hlo]. destruct (foldr_max_spec x rest) as [_ Hhi].
    rewrite Forall_forall in Hlo, Hhi. specialize (Hlo j Hin). specialize (Hhi j Hin).
    apply list_elem_of_In, in_seq. lia.
Qed.

End SentenceFacts.

(** * The driver [get_diff_html] and [EditsHtml.__init__] *)

Module DriverFacts.
Import Edits EditsSpec EditsFacts SentenceFacts.

Lemma get_sentence_frame par_index paragraph_list sentence_list paragraphs paragraph_html
    global_offsets key content js r js' :
  get_sentence par_index paragraph_list sentence_list paragraphs paragraph_html
    global_offsets key content js = Ok (r, js') ->
  alignments js' = alignments js /\ same_shape js js'.
Proof.
  unfold get_sentence.
  destruct (List.filter _ sentence_list) as [|x rest]; [by intros [= <- <-]|].
  destruct (checkConsecutive _) as [b| |]; cbn [mbind result_bind]; [|done|done].
  destruct (get_sent_indices _ _ _) as [sis| |]; cbn [mbind result_bind]; [|done|done].
  destruct (for_enumerate _ _ _ _) as [[[[[par1 js1] pis1] sds1] parts1]| |] eqn:E;
    cbn [mbind result_bind]; [|done|done].
  intros [= <- <-]. by apply get_sentence_loop in E as (new & _ & _ & _ & Ha & Hs).
Qed.

Lemma fold_insert_ok (keys : list nat) (a : alignment) :
  Forall sentinel_ok (edits a) ->
  forall m : gmap Z alignment,
    map_Forall (fun _ a => Forall sentinel_ok (edits a)) m ->
    map_Forall (fun _ a => Forall sentinel_ok (edits a))
      (fold_left (fun m k => <[Z.of_nat k := a]> m) keys m).
Proof.
  intros Ha. induction keys as [|k keys IH]; intros m Hm; [done|].
  cbn. apply IH. by apply map_Forall_insert_2.
Qed.

Lemma add_aligned_paragraph_length paragraph_dict found_indices full_html full_html' :
  add_aligned_paragraph paragraph_dict found_indices full_html = Ok full_html' ->
  length full_html' = length full_html.
Proof.
  unfold add_aligned_paragraph. destruct found_indices as [found|]; [|by intros [= <-]].
  destruct (elements found); cbn [mbind result_bind]; [done|].
  apply list_assign_length.
Qed.

Section Driver.
Variable format_edit : str -> edit_kind -> str.
Variables content1 content2 : str.
Variables sentence_offsets1 sentence_offsets2 : list (Z * Z).
Variables p1s p2s : list (list str).
Variable nlp : str -> list word.
Variable diff_main : list nat -> list nat -> list (op * list nat).
Variable format_hover : str -> nat * nat -> str.
Variable uuid4 : nat -> nat -> nat.

Local Abbreviation aligned_sentence_step :=
  (aligned_sentence_step format_edit content1 content2 sentence_offsets1 sentence_offsets2
     p1s p2s nlp diff_main format_hover).
Local Abbreviation aligned_pair_step :=
  (aligned_pair_step format_edit content1 content2 sentence_offsets1 sentence_offsets2
     p1s p2s nlp diff_main format_hover uuid4).
Local Abbreviation get_diff_html :=
  (get_diff_html format_edit content1 content2 sentence_offsets1 sentence_offsets2
     p1s p2s nlp diff_main format_hover uuid4).
Local Abbreviation add_unaligned_paragraphs :=
  (add_unaligned_paragraphs format_edit sentence_offsets1 sentence_offsets2).

(** The unaligned-paragraph path keeps the lengths of the page and of
    the sentence lists. *)
Lemma unaligned_sentence_shape kind paragraph_index sentences global_sent_indices js i js' :
  unaligned_sentence sentence_offsets1 sentence_offsets2 kind paragraph_index
    sentences global_sent_indices js i = Ok js' ->
  same_shape js js'.
Proof.
  unfold unaligned_sentence, same_shape.
  destruct (global_sent_indices !! i) as [g|]; cbn [of_option mbind result_bind]; [|done].
  destruct (sentences !! i) as [text|]; [|by destruct kind].
  destruct kind; cbn [of_option mbind result_bind].
  all: match goal with
       | |- context [of_option IndexError (?l !! ?j)] => destruct (l !! j) as [offset|]
       end; cbn [of_option mbind result_bind]; [|done].
  all: match goal with
       | |- context [list_assign ?l ?j ?e] =>
           destruct (list_assign l j e) as [l'| |] eqn:E
       end; cbn [mbind result_bind]; [|done|done].
  all: intros [= <-]; cbn; by rewrite (list_assign_length _ _ _ _ E).
Qed.

Lemma unaligned_paragraph_shape kind seen_pars paragraphs acc i sentences acc' :
  unaligned_paragraph format_edit sentence_offsets1 sentence_offsets2 kind seen_pars
    paragraphs acc i sentences = Ok acc' ->
  forall len m1 m2,
    length acc.1.1 = len /\ length (file1_sentences acc.1.2) = m1 /\
      length (file2_sentences acc.1.2) = m2 ->
    length acc'.1.1 = len /\ length (file1_sentences acc'.1.2) = m1 /\
      length (file2_sentences acc'.1.2) = m2.
Proof.
  destruct acc as [[text_html js] n0]. unfold unaligned_paragraph.
  destruct (decide (i ∈ seen_pars)); cbn [mbind result_bind].
  { by intros [= <-]. }
  destruct (text_html !! i) as [html|]; cbn [of_option mbind result_bind]; [|done].
  destruct html; [|by intros [= <-]].
  destruct (get_sent_indices _ _ _) as [gs| |]; cbn [mbind result_bind]; [|done|done].
  destruct kind; cbn [mbind result_bind]; try done.
  all: destruct (for_each _ _ _) as [js1| |] eqn:E; cbn [mbind result_bind]; [|done|done].
  all: destruct (list_assign _ _ _) as [t| |] eqn:Et; cbn [mbind result_bind]; [|done|done].
  all: intros [= <-] len m1 m2; cbn [fst snd]; intros (Hn & H1 & H2);
    rewrite (list_assign_length _ _ _ _ Et); split; [done|];
    (eapply (for_each_invariant
               (fun js => length (file1_sentences js) = m1 /\
                          length (file2_sentences js) = m2)); [|exact E|done]);
    intros b a b' Hb [Hb1 Hb2]; apply unaligned_sentence_shape in Hb as [? ?];
    split; congruence.
Qed.

Lemma add_unaligned_paragraphs_shape kind seen_pars text_html paragraphs js n
    text_html' js' n' :
  add_unaligned_paragraphs kind seen_pars text_html paragraphs js n
  = Ok (text_html', js', n') ->
  length text_html' = length text_html /\ same_shape js js'.
Proof.
  unfold Edits.add_unaligned_paragraphs. intros Hrun.
  eapply (for_enumerate_invariant
            (fun acc => length acc.1.1 = length text_html /\
                        length (file1_sentences acc.1.2) = length (file1_sentences js) /\
                        length (file2_sentences acc.1.2) = length (file2_sentences js)))
    in Hrun; [exact Hrun| |done].
  intros b i a b' Hb. by apply (unaligned_paragraph_shape _ _ _ _ _ _ _ Hb).
Qed.

Lemma add_unaligned_if_found_spec kind paragraph_html paragraphs orig_index found key
    global_offsets js n paragraph_html' js' n' :
  add_unaligned_if_found format_edit kind paragraph_html paragraphs orig_index found key
    global_offsets js n = Ok (paragraph_html', js', n') ->
  (all_records_ok js -> all_records_ok js') /\ same_shape js js'.
Proof.
  unfold add_unaligned_if_found.
  destruct found as [found|]; [|by intros [= <- <- <-]].
  case_decide; [|by intros [= <- <- <-]].
  unfold add_unaligned_sentences.
  destruct (paragraphs !! orig_index) as [paragraph|]; cbn [of_option mbind result_bind];
    [|done].
  destruct (get_sent_indices _ _ _) as [sis| |]; cbn [mbind result_bind]; [|done|done].
  destruct (for_enumerate _ _ _ _) as [[[ph1 js1] n1]| |] eqn:E;
    cbn [mbind result_bind]; [|done|done].
  intros [= <- <- <-]. by apply unaligned_sentences_loop in E as (_ & _ & Hok & Hs).
Qed.

Section Invariant.
Variables n1 n2 m1 m2 : nat.

Lemma aligned_sentence_step_inv aligned_par_id orig_p1_index orig_p2_index p1_list p2_list
    acc aligned_sent_id el acc' :
  aligned_sentence_step aligned_par_id orig_p1_index orig_p2_index p1_list p2_list
    acc aligned_sent_id el = Ok acc' ->
  well_formed n1 n2 m1 m2 acc.2 -> well_formed n1 n2 m1 m2 acc'.2.
Proof.
  destruct acc as [[[[par1 par2] f1] f2] ed]. unfold Edits.aligned_sentence_step.
  destruct el as [[s1_list s2_list]|]; [|by intros [= <-]].
  destruct (get_sentence _ _ _ _ _ _ _ _ _) as [[r1 js1]| |] eqn:E1;
    cbn [mbind result_bind]; [|done|done].
  destruct (get_sentence _ _ _ _ _ _ _ _ js1) as [[r2 js2]| |] eqn:E2;
    cbn [mbind result_bind]; [|done|done].
  apply get_sentence_frame in E1 as [Ha1 [Hs1 Hs1']].
  apply get_sentence_frame in E2 as [Ha2 [Hs2 Hs2']].
  assert (well_formed n1 n2 m1 m2 ed ->
          well_formed n1 n2 m1 m2
            {| ed_html1 := ed_html1 ed; ed_html2 := ed_html2 ed;
               ed_json := js2; ed_num_edits := ed_num_edits ed |}) as Hskip.
  { unfold well_formed, all_records_ok. cbn. rewrite Ha2, Ha1, Hs2, Hs2', Hs1, Hs1'. done. }
  destruct r1 as [[[[[s1 sl1] pis1] sis1] sds1]|]; [|by intros [= <-]].
  destruct r2 as [[[[[s2 sl2] pis2] sis2] sds2]|]; [|by intros [= <-]].
  destruct (Diff.diff_wordMode _ _ _ _) as [[[diff char_diff] [offs1 offs2]]| |];
    cbn [mbind result_bind]; [|done|done].
  destruct (sds1 !! 0) as [d1|]; cbn [of_option mbind result_bind]; [|done].
  destruct (sds2 !! 0) as [d2|]; cbn [of_option mbind result_bind]; [|done].
  destruct (handle_diff _ _ _ _ _ _ _ _) as [[[[h1 h2] eds] n]| |] eqn:Eh;
    cbn [mbind result_bind]; [|done|done].
  destruct (sl1 !! 0) as [first1|]; cbn [of_option mbind result_bind]; [|done].
  destruct (sl2 !! 0) as [first2|]; cbn [of_option mbind result_bind]; [|done].
  intros [= <-]. cbn [snd]. apply handle_diff_sentinel in Eh.
  unfold well_formed, all_records_ok. cbn.
  rewrite Ha2, Ha1, Hs2, Hs2', Hs1, Hs1'. intros (Hok & Hrest).
  split; [|done]. by apply fold_insert_ok.
Qed.

Lemma aligned_pair_step_inv sent_alignments i p1_list p2_list acc k pair acc' :
  aligned_pair_step sent_alignments i p1_list p2_list acc k pair = Ok acc' ->
  well_formed n1 n2 m1 m2 acc.2 -> well_formed n1 n2 m1 m2 acc'.2.
Proof.
  destruct acc as [[seen1 seen2] ed]. unfold Edits.aligned_pair_step.
  destruct pair as [[p1|] [p2|]]; try by intros [= <-].
  destruct (sent_alignments !! i) as [sents|]; cbn [of_option mbind result_bind]; [|done].
  destruct (for_enumerate _ _ _ _) as [[[[[par1 par2] f1] f2] ed1]| |] eqn:E;
    cbn [mbind result_bind]; [|done|done].
  destruct (add_unaligned_if_found _ _ _ _ _ _ _ _ _ _) as [[[par1' js1] k1]| |] eqn:E1;
    cbn [mbind result_bind]; [|done|done].
  destruct (add_unaligned_if_found _ _ _ _ _ _ _ _ js1 _) as [[[par2' js2] k2]| |] eqn:E2;
    cbn [mbind result_bind]; [|done|done].
  destruct (add_aligned_paragraph par1' _ _) as [h1| |] eqn:Eh1;
    cbn [mbind result_bind]; [|done|done].
  destruct (add_aligned_paragraph par2' _ _) as [h2| |] eqn:Eh2;
    cbn [mbind result_bind]; [|done|done].
  intros [= <-]. cbn [snd]. intros Hwf.
  eapply (for_enumerate_invariant (fun acc => well_formed n1 n2 m1 m2 acc.2)) in E;
    [| |exact Hwf].
  2:{ intros b j a b'. apply aligned_sentence_step_inv. }
  cbn [snd] in E. destruct E as (Hok & Hh1 & Hh2 & Hm1 & Hm2).
  apply add_unaligned_if_found_spec in E1 as [Hok1 [Hs1 Hs1']].
  apply add_unaligned_if_found_spec in E2 as [Hok2 [Hs2 Hs2']].
  apply add_aligned_paragraph_length in Eh1, Eh2.
  unfold well_formed. cbn. split_and!; [tauto|congruence..].
Qed.

Lemma get_diff_html_inv par_alignment sent_alignments ed ed' :
  get_diff_html par_alignment sent_alignments ed = Ok ed' ->
  well_formed n1 n2 m1 m2 ed -> well_formed n1 n2 m1 m2 ed'.
Proof.
  unfold Edits.get_diff_html.
  destruct (for_enumerate _ _ _ _) as [[[seen1 seen2] ed1]| |] eqn:E;
    cbn [mbind result_bind]; [|done|done].
  destruct (add_unaligned_paragraphs _ _ _ _ _ _) as [[[h1 js1] k1]| |] eqn:E1;
    cbn [mbind result_bind]; [|done|done].
  destruct (add_unaligned_paragraphs _ _ _ _ js1 _) as [[[h2 js2] k2]| |] eqn:E2;
    cbn [mbind result_bind]; [|done|done].
  intros [= <-] Hwf.
  eapply (for_enumerate_invariant (fun acc => well_formed n1 n2 m1 m2 acc.2)) in E;
    [| |exact Hwf].
  2:{ intros b i [p1_list p2_list] b' Hb Hinv.
      eapply (for_enumerate_invariant (fun acc => well_formed n1 n2 m1 m2 acc.2)) in Hb;
        [exact Hb| |exact Hinv].
      intros c k pair c'. apply aligned_pair_step_inv. }
  cbn [snd] in E. destruct E as (Hok & Hh1 & Hh2 & Hm1 & Hm2).
  pose proof (add_unaligned_paragraphs_ok _ _ _ _ _ _ _ _ _ _ _ _ E1 Hok) as Hok1.
  pose proof (add_unaligned_paragraphs_ok _ _ _ _ _ _ _ _ _ _ _ _ E2 Hok1) as Hok2.
  apply add_unaligned_paragraphs_shape in E1 as [Hl1 [Hs1 Hs1']].
  apply add_unaligned_paragraphs_shape in E2 as [Hl2 [Hs2 Hs2']].
  unfold well_formed. cbn. split_and!; [done|congruence..].
Qed.

End Invariant.
End Driver.

(** X11.  Whatever the tokenizer, the diff, the templates and the
    alignments are, an [EditsHtml] object that is built without an
    exception has a page with one slot per paragraph of each document
    and a JSON with one entry per sentence of each document, and every
    edit record stored under [alignments] keeps the sentinels. *)
Theorem editor_well_formed format_edit format_hover uuid4 nlp diff_main a ed :
  EditsObject.__init__ format_edit format_hover uuid4 nlp diff_main a = Ok ed ->
  well_formed (length (p1s a)) (length (p2s a))
              (length (concat (p1s a))) (length (concat (p2s a))) ed.
Proof.
  unfold EditsObject.__init__. intros Hrun.
  eapply get_diff_html_inv; [exact Hrun|].
  unfold well_formed, all_records_ok. cbn. rewrite !length_replicate.
  split_and!; done || apply map_Forall_empty.
Qed.

End DriverFacts.

(** * The Sentence Offset Table addresses the text *)

Module TableFacts.
Import AlignedText AlignedSpec AlignedFacts.

Lemma join_split c s : Py.join [c] (Py.split c s) = s.
Proof.
  induction s as [|x s IH]; [done|]. cbn [Py.split].
  destruct (Ascii.eqb_spec x c) as [->|Hne].
  - destruct (Py.split c s) as [|h t] eqn:E; [by destruct s; cbn in *; [|destruct (Ascii.eqb _ _), (Py.split _ _)]|].
    cbn [Py.join] in *. by rewrite IH.
  - destruct (Py.split c s) as [|h t] eqn:E.
    + cbn in IH. by subst s.
    + destruct t; cbn [Py.join] in *; by rewrite <- IH.
Qed.

Lemma split_nonempty c s : Py.split c s <> [].
Proof.
  destruct s as [|x s]; [done|]. cbn.
  destruct (Ascii.eqb x c); [done|]. by destruct (Py.split c s).
Qed.

(** A paragraph sits in the joined text at its start position. *)
Lemma join_lookup c : forall ps i p,
  ps !! i = Some p ->
  exists pre post,
    Py.join [c] ps = pre ++ p ++ post /\ length pre = start_of ps i.
Proof.
  induction ps as [|w ps IH]; intros i p Hp; [done|].
  destruct i as [|i].
  - injection Hp as ->. exists []. destruct ps as [|q r].
    + exists []. by rewrite app_nil_r.
    + by exists ([c] ++ Py.join [c] (q :: r)).
  - cbn in Hp. destruct (IH i p Hp) as (pre & post & E & Hlen).
    destruct ps as [|q r]; [done|].
    exists (w ++ [c] ++ pre), post.
    change (Py.join [c] (w :: q :: r)) with (w ++ [c] ++ Py.join [c] (q :: r)). rewrite E.
    split; [by rewrite <- !app_assoc|].
    unfold start_of in *. cbn [take map sum_list]. rewrite !length_app, Hlen. cbn. lia.
Qed.

Lemma slice_inside {A} (pre p post : list A) (b e : Z) :
  (0 <= b <= e)%Z -> (e <= Z.of_nat (length p))%Z ->
  Py.slice (pre ++ p ++ post) (b + Z.of_nat (length pre)) (e + Z.of_nat (length pre))
  = Py.slice p b e.
Proof.
  intros Hb He. unfold Py.slice, Py.clamp. rewrite !length_app.
  repeat match goal with
         | |- context [(?x <? 0)%Z] => destruct (Z.ltb_spec x 0); try lia
         end.
  rewrite !Z.min_l by lia.
  replace (Z.to_nat (e + Z.of_nat (length pre) - (b + Z.of_nat (length pre))))
    with (Z.to_nat (e - b)) by lia.
  replace (Z.to_nat (b + Z.of_nat (length pre))) with (length pre + Z.to_nat b) by lia.
  rewrite drop_app_add, drop_app_le by lia.
  apply take_app_le. rewrite length_drop. lia.
Qed.

(** The slice of the text at a span moved to the start of its
    paragraph is the slice of the paragraph at the span. *)
Lemma slice_paragraph content i p (b e : Z) :
  Py.split Py.newline content !! i = Some p ->
  (0 <= b <= e)%Z -> (e <= Z.of_nat (length p))%Z ->
  Py.slice content (b + Z.of_nat (start_of (Py.split Py.newline content) i))
                   (e + Z.of_nat (start_of (Py.split Py.newline content) i))
  = Py.slice p b e.
Proof.
  intros Hp Hb He.
  destruct (join_lookup Py.newline _ _ _ Hp) as (pre & post & E & <-).
  rewrite join_split in E. rewrite E at 1. by apply slice_inside.
Qed.

Section Exact.
Variable sent_tuples : str -> list (str * (Z * Z)).

Local Abbreviation entry := (entry sent_tuples).
Local Abbreviation sentences_of := (sentences_of sent_tuples).
Local Abbreviation exact_width := (exact_width sent_tuples).
Local Abbreviation block := (block sent_tuples).
Local Abbreviation table_from := (table_from sent_tuples).

Lemma block_length curr p : length (block curr p) = length (sentences_of p).
Proof.
  unfold AlignedSpec.block, AlignedSpec.entry, AlignedSpec.sentences_of.
  destruct (blank p); [done|]. unfold shift. by rewrite !length_map.
Qed.

Lemma table_from_length ps : forall curr,
  length (table_from curr ps) = length (concat (map sentences_of ps)).
Proof.
  induction ps as [|p ps IH]; intros curr; [done|].
  cbn. by rewrite !length_app, block_length, IH.
Qed.

(** The block of paragraph [i] sits in the table behind the entries
    of the earlier paragraphs. *)
Lemma table_from_lookup ps : forall curr i p,
  ps !! i = Some p ->
  exists before after,
    table_from curr ps
    = before ++ block (curr + Z.of_nat (start_of ps i)) p ++ after /\
    length before = length (concat (take i (map sentences_of ps))).
Proof.
  induction ps as [|q ps IH]; intros curr i p Hp; [done|].
  destruct i as [|i].
  - injection Hp as ->. exists [], (table_from (curr + Z.of_nat (length p) + 1) ps).
    unfold start_of. cbn. by rewrite Z.add_0_r.
  - cbn in Hp.
    destruct (IH (curr + Z.of_nat (length q) + 1)%Z i p Hp) as (before & after & E & Hlen).
    exists (block curr q ++ before), after. cbn [AlignedSpec.table_from]. rewrite E.
    assert ((curr + Z.of_nat (length q) + 1 + Z.of_nat (start_of ps i))%Z
            = (curr + Z.of_nat (start_of (q :: ps) (S i)))%Z) as ->.
    { unfold start_of. cbn [take map sum_list]. unfold id. lia. }
    split.
    + by rewrite <- app_assoc.
    + cbn [map take concat]. by rewrite !length_app, block_length, Hlen.
Qed.

(** With the segmenter's dictionary, and paragraphs of exact width,
    the loop of [get_sentence_offsets] builds the table of the text. *)
Lemma offsets_exact (so : gmap nat (list (Z * Z))) ps : forall i table curr,
  (forall k p, ps !! k = Some p -> so !! (i + k) = entry p) ->
  Forall exact_width ps ->
  exists curr',
    for_enumerate (offsets_step so) i ps (table, curr)
    = Ok (table ++ table_from curr ps, curr').
Proof.
  induction ps as [|p ps IH]; intros i table curr Hso Hall.
  { exists curr. cbn. by rewrite app_nil_r. }
  apply Forall_cons in Hall as [Hp Hall].
  cbn [for_enumerate AlignedSpec.table_from].
  pose proof (Hso 0 p eq_refl) as H0. rewrite Nat.add_0_r in H0.
  assert (forall k q, ps !! k = Some q -> so !! (S i + k) = entry q) as Hso'.
  { intros k q Hq. replace (S i + k) with (i + S k) by lia. by apply Hso. }
  unfold AlignedSpec.exact_width in Hp. unfold AlignedSpec.block.
  unfold AlignedSpec.entry in *. destruct (blank p) eqn:Eb.
  - subst p. rewrite offsets_step_blank by done. cbn [mbind result_bind].
    destruct (IH (S i) (table ++ [Edits.sentinel]) (curr + 1)%Z Hso' Hall) as (c' & E).
    exists c'. rewrite E, <- app_assoc. cbn [length].
    by replace (curr + Z.of_nat 0 + 1)%Z with (curr + 1)%Z by lia.
  - destruct Hp as (y & Hlast & Hw).
    unfold offsets_step. rewrite H0, Hlast. cbn [of_option mbind result_bind].
    fold (shift curr (map snd (sent_tuples p))).
    set (curr1 := (curr + Z.of_nat (length p) + 1)%Z).
    destruct (IH (S i) (table ++ shift curr (map snd (sent_tuples p))) curr1 Hso' Hall)
      as (c' & E).
    assert (for_enumerate (offsets_step so) (S i) ps
              (table ++ shift curr (map snd (sent_tuples p)), curr1)
            = Ok (table ++ shift curr (map snd (sent_tuples p)) ++ table_from curr1 ps, c'))
      as E' by (by rewrite E, <- app_assoc).
    exists c'. rewrite <- E'. subst curr1.
    destruct p as [|c p]; [done|].
    destruct (Py.endswith Py.space (c :: p)); cbn [mbind result_bind];
      do 2 f_equal; lia.
Qed.

Lemma tokenize_step_nonblank pars (m : gmap nat (list (Z * Z))) i p :
  blank p = false ->
  tokenize_step sent_tuples (pars, m) i p
  = match sent_tuples p with
    | [] => Raise ValueError
    | _ :: _ => Ok (pars ++ [map fst (sent_tuples p)], <[i := map snd (sent_tuples p)]> m)
    end.
Proof.
  unfold blank, tokenize_step. destruct (Py.strip p); [done|]. by destruct (sent_tuples p).
Qed.

(** The loop of [sentence_tokenize], whatever the segmenter returns:
    it stops with [ValueError] at a paragraph that is not blank and
    has no sentence, and otherwise fills the list and the dictionary. *)
Lemma tokenize_run ps : forall i pars (m : gmap nat (list (Z * Z))),
  (forall j, i <= j -> m !! j = None) ->
  match for_enumerate (tokenize_step sent_tuples) i ps (pars, m) with
  | Ok (pars', m') =>
      pars' = pars ++ map sentences_of ps /\
      (forall k p, ps !! k = Some p -> m' !! (i + k) = entry p) /\
      (forall j, j < i -> m' !! j = m !! j) /\
      (forall j, i + length ps <= j -> m' !! j = None) /\
      Forall (has_sentences sent_tuples) ps
  | Raise e => e = ValueError /\ Exists (no_sentence sent_tuples) ps
  | OutOfFuel => False
  end.
Proof.
  induction ps as [|p ps IH]; intros i pars m Hm.
  { cbn. rewrite app_nil_r. split_and!; try done. intros j Hj. apply Hm. lia. }
  cbn [for_enumerate map]. unfold AlignedSpec.entry, AlignedSpec.sentences_of in *.
  destruct (blank p) eqn:Eb.
  - rewrite tokenize_step_blank by done. cbn [mbind result_bind].
    specialize (IH (S i) (pars ++ [[p]]) m ltac:(intros; apply Hm; lia)).
    destruct (for_enumerate _ _ _ _) as [[pars' m']| |]; [| |done].
    + destruct IH as (-> & Hk & Hj & Hout & Hall). rewrite <- app_assoc.
      split_and!; [done| | | |].
      * intros [|k] q; cbn.
        -- intros [= <-]. rewrite Eb, Nat.add_0_r, Hj by lia. apply Hm. lia.
        -- intros Hq. replace (i + S k) with (S i + k) by lia. by apply Hk.
      * intros j Hlt. apply Hj. lia.
      * intros j Hge. apply Hout. cbn in Hge. lia.
      * constructor; [|done]. unfold has_sentences. by rewrite Eb.
    + destruct IH as [-> Hex]. split; [done|]. by right.
  - rewrite tokenize_step_nonblank by done.
    destruct (sent_tuples p) as [|t ts] eqn:Et.
    { cbn. split; [done|]. left. by split. }
    cbn [mbind result_bind]. rewrite <- Et.
    specialize (IH (S i) (pars ++ [map fst (sent_tuples p)])
                  (<[i := map snd (sent_tuples p)]> m)).
    destruct (for_enumerate _ _ _ _) as [[pars' m']| |].
    + destruct IH as (-> & Hk & Hj & Hout & Hall).
      { intros j Hle. rewrite lookup_insert_ne by lia. apply Hm. lia. }
      rewrite <- app_assoc. split_and!; [done| | | |].
      * intros [|k] q; cbn [lookup list_lookup].
        -- intros [= <-]. rewrite Eb, Nat.add_0_r, Hj by lia. by rewrite lookup_insert_eq.
        -- intros Hq. replace (i + S k) with (S i + k) by lia. by apply Hk.
      * intros j Hlt. rewrite Hj by lia. apply lookup_insert_ne. lia.
      * intros j Hge. apply Hout. cbn in Hge. lia.
      * constructor; [|done]. unfold has_sentences. intros _. by rewrite Et.
    + destruct IH as [-> Hex].
      { intros j Hle. rewrite lookup_insert_ne by lia. apply Hm. lia. }
      split; [done|]. by right.
    + destruct IH. intros j Hle. rewrite lookup_insert_ne by lia. apply Hm. lia.
Qed.

(** X13.  [sentence_tokenize] raises [ValueError] exactly when some
    paragraph that is not blank has no sentence, and raises nothing
    else.  Otherwise it returns the text as it was, one sentence list
    per paragraph (a blank paragraph becoming a list of itself), and a
    dictionary that holds the spans of exactly the paragraphs that are
    not blank. *)
Theorem sentence_tokenize_outcome content :
  match sentence_tokenize sent_tuples content with
  | Ok (c, paragraphs, so) =>
      c = content /\
      paragraphs = map sentences_of (Py.split Py.newline content) /\
      (forall i, so !! i = Py.split Py.newline content !! i ≫= entry) /\
      Forall (has_sentences sent_tuples) (Py.split Py.newline content)
  | Raise e => e = ValueError /\ Exists (no_sentence sent_tuples) (Py.split Py.newline content)
  | OutOfFuel => False
  end.
Proof.
  unfold sentence_tokenize.
  pose proof (tokenize_run (Py.split Py.newline content) 0 [] ∅
                ltac:(intros; apply lookup_empty)) as H.
  destruct (for_enumerate _ _ _ _) as [[pars m]| |]; cbn [mbind result_bind]; [|done|done].
  destruct H as (-> & Hk & _ & Hout & Hall). split_and!; try done.
  intros i. destruct (Py.split Py.newline content !! i) as [p|] eqn:Ep; cbn.
  - by apply (Hk i p).
  - apply Hout. apply lookup_ge_None in Ep. lia.
Qed.

Lemma lookup_map {A B} (f : A -> B) (l : list A) k : map f l !! k = f <$> l !! k.
Proof. revert k. induction l as [|a l IH]; intros [|k]; cbn; auto. Qed.

Lemma exact_has_sentences p : exact_width p -> has_sentences sent_tuples p.
Proof.
  unfold AlignedSpec.exact_width, has_sentences. intros H Hb. rewrite Hb in H.
  destruct H as (y & Hy & _). by destruct (sent_tuples p).
Qed.

(** X12.  When every paragraph moves the running offset by its own
    length and the newline, and the local spans lie inside their
    paragraphs, the Sentence Offset Table addresses the text: the
    entry of sentence [k] of paragraph [i] stands behind the entries
    of the earlier paragraphs, it is the local span moved to where the
    paragraph starts in the text, and slicing the text at it gives
    what slicing the paragraph at the local span gives. *)
Theorem table_addresses_text content other other_offsets :
  Forall exact_width (Py.split Py.newline content) ->
  Forall (spans_inside sent_tuples) (Py.split Py.newline content) ->
  exists paragraphs sentence_offsets table,
    sentence_tokenize sent_tuples content = Ok (content, paragraphs, sentence_offsets) /\
    get_sentence_offsets content other sentence_offsets other_offsets 1 = Ok table /\
    forall i p k text b e,
      Py.split Py.newline content !! i = Some p -> blank p = false ->
      sent_tuples p !! k = Some (text, (b, e)) ->
      let start := Z.of_nat (start_of (Py.split Py.newline content) i) in
      table !! (k + length (concat (take i paragraphs))) = Some ((b + start)%Z, (e + start)%Z) /\
      Py.slice content (b + start) (e + start) = Py.slice p b e.
Proof.
  intros Hexact Hinside. set (ps := Py.split Py.newline content) in *.
  pose proof (tokenize_run ps 0 [] ∅ ltac:(intros; apply lookup_empty)) as Ht.
  destruct (for_enumerate _ _ _ _) as [[pars m]| |] eqn:Et; [| |done].
  2:{ destruct Ht as [_ Hex]. apply Exists_exists in Hex as (p & Hp & Hb & Hno).
      rewrite Forall_forall in Hexact. pose proof (exact_has_sentences p (Hexact p Hp)) as Hs.
      by destruct (Hs Hb). }
  destruct Ht as (-> & Hk & _ & _ & _). cbn [app] in *.
  destruct (offsets_exact m ps 0 [] 0%Z Hk Hexact) as (curr' & Eo).
  exists (map sentences_of ps), m, (table_from 0 ps).
  unfold sentence_tokenize, get_sentence_offsets, sentence_offsets_of.
  fold ps. rewrite Et, Eo. cbn [mbind result_bind app].
  split; [done|]. split; [done|].
  intros i p k text b e Hp Hb Hk'. set (start := Z.of_nat (start_of ps i)).
  destruct (table_from_lookup ps 0%Z i p Hp) as (before & after & -> & Hlen).
  rewrite Z.add_0_l. fold start. split.
  - rewrite lookup_app_r by lia. rewrite <- Hlen.
    replace (k + length before - length before) with k by lia.
    unfold AlignedSpec.block, AlignedSpec.entry. rewrite Hb.
    assert (shift start (map snd (sent_tuples p)) !! k = Some ((b + start)%Z, (e + start)%Z))
      as Hs by (unfold shift; by rewrite !lookup_map, Hk').
    apply lookup_app_l_Some. exact Hs.
  - rewrite Forall_forall in Hinside.
    pose proof (Hinside p (list_elem_of_lookup_2 _ _ _ Hp)) as Hin.
    unfold spans_inside in Hin. rewrite Forall_forall in Hin.
    assert ((b, e) ∈ map snd (sent_tuples p)) as Hbe.
    { apply (list_elem_of_lookup_2 _ k). by rewrite lookup_map, Hk'. }
    destruct (Hin _ Hbe) as [Hb1 Hb2]. cbn in Hb1, Hb2.
    by apply slice_paragraph.
Qed.

End Exact.

Lemma sentence_offset_before_counts paragraphs : forall par_index,
  par_index <= length paragraphs ->
  Forall counted_right (take par_index paragraphs) ->
  Edits.sentence_offset_before paragraphs par_index
  = Ok (length (concat (take par_index paragraphs))).
Proof.
  induction par_index as [|i IH]; intros Hle Hall; [done|].
  destruct (lookup_lt_is_Some_2 paragraphs i) as [p Hp]; [lia|].
  rewrite (take_S_r _ _ _ Hp) in Hall |- *. apply Forall_app in Hall as [Hall Hp'].
  rewrite Forall_singleton in Hp'.
  cbn [Edits.sentence_offset_before]. rewrite IH by (done || lia).
  cbn [mbind result_bind]. rewrite Hp. cbn [of_option mbind result_bind].
  rewrite concat_app, length_app. cbn [concat]. rewrite app_nil_r.
  destruct p as [|first rest]; [done|]. cbn [lookup list_lookup of_option mbind result_bind].
  destruct first; [|done]. cbn in Hp'. by subst rest.
Qed.

(** X14.  When every earlier paragraph has a first sentence, and is
    that sentence alone when it is the empty string, [get_sent_indices]
    moves each local index by the number of sentences of the earlier
    paragraphs: the global index is the position of the sentence in
    the list of all sentences, which is its position in the Sentence
    Offset Table. *)
Theorem sent_indices_count_sentences par_index paragraphs sentence_list :
  par_index <= length paragraphs ->
  Forall counted_right (take par_index paragraphs) ->
  Edits.get_sent_indices par_index paragraphs sentence_list
  = Ok (map (fun j => j + length (concat (take par_index paragraphs))) sentence_list).
Proof.
  intros Hle Hall. unfold Edits.get_sent_indices.
  by rewrite sentence_offset_before_counts.
Qed.

End TableFacts.

(** * What a run leaves on disk *)

Module DiskFacts.
Import AlignedText AlignedSpec AlignedFacts LoadSpec LoadFacts.

Lemma path_exists_files env w w0 path :
  files w0 = files w -> path_exists env w0 path = path_exists env w path.
Proof. unfold path_exists. by intros ->. Qed.

Lemma path_exists_at env w path :
  path_exists env w path = true <-> exists_at env w path.
Proof.
  unfold path_exists, exists_at. by rewrite orb_true_iff, bool_decide_eq_true.
Qed.

Section Disk.
Variable env : os_env.
Variable sent_tuples : str -> list (str * (Z * Z)).
Variables unicode_normalize preproc np_resegment : str -> str.
Variable tfidf_model : Type.
Variable aligned_pars : Type.
Variable TFIDFModel : gmap str str -> list str -> str -> result tfidf_model.
Variable getParagraphAlignments :
  tfidf_model -> list (list str) -> list (list str) -> Z * Z ->
  result (list (list nat * list nat) * list aligned_pars).
Variable getSentenceAlignments :
  tfidf_model -> aligned_pars -> Z * Z -> Z * Z -> result (list (list nat * list nat)).
Variable json_load : str -> result json_value.
Variable EditsHtml : aligned_text -> str -> result Edits.editor.
Variable get_html_text : Edits.editor -> str -> str -> result str.
Variable json_dump : edits_json -> str.
Variable LEGEND : str.
Variable float_str : Z * Z -> str.

Local Abbreviation __init__ :=
  (__init__ env sent_tuples unicode_normalize preproc np_resegment tfidf_model aligned_pars
     TFIDFModel getParagraphAlignments getSentenceAlignments).
Local Abbreviation the_config := (the_config env json_load).
Local Abbreviation render_and_write :=
  (render_and_write env EditsHtml get_html_text json_dump LEGEND float_str).
Local Abbreviation create_html_file :=
  (create_html_file env sent_tuples unicode_normalize preproc np_resegment tfidf_model
     aligned_pars TFIDFModel getParagraphAlignments getSentenceAlignments json_load
     EditsHtml get_html_text json_dump LEGEND float_str).
Local Abbreviation output_path := (output_path env float_str).

(** The files after the part of a run that follows the constructor. *)
Lemma render_files file1 file2 min_par_sim min_sent_sim sim_slack header1 header2
    output_prefix config in_app output_dir aligned w r w' :
  render_and_write file1 file2 min_par_sim min_sent_sim sim_slack header1 header2
    output_prefix config in_app output_dir aligned w = (r, w') ->
  let html_path :=
    realpath env (output_path file1 file2 min_par_sim min_sent_sim sim_slack
                    output_dir output_prefix (Py.lit ".html")) in
  let json_path :=
    realpath env (output_path file1 file2 min_par_sim min_sent_sim sim_slack
                    output_dir output_prefix (Py.lit ".json")) in
  match r with
  | Ok None => files w' = files w
  | Ok (Some html) =>
      exists ed page,
        get_html_text ed header1 header2 = Ok page /\ html = page ++ LEGEND /\
        files w' = with_outputs in_app html_path json_path html
                     (json_dump (Edits.ed_json ed)) (files w)
  | _ =>
      files w' = files w \/
      (in_app = false /\ exists html, files w' = <[html_path := html]> (files w))
  end.
Proof.
  unfold AlignedText.render_and_write, LoadSpec.output_path, output_dir_of, with_outputs.
  unfold io_bind at 1, io_lift at 1.
  destruct (config (Py.lit "templates")) as [templates| |];
    [|intros [= <- <-]; by left..].
  unfold io_bind at 1, io_lift at 1.
  destruct (EditsHtml aligned templates) as [ed| |]; [|intros [= <- <-]; by left..].
  destruct (decide (Edits.ed_num_edits ed = 0)); [by intros [= <- <-]|].
  unfold io_bind at 1, io_lift at 1.
  destruct (get_html_text ed header1 header2) as [page| |] eqn:Epage;
    [|intros [= <- <-]; by left..].
  cbn zeta. unfold io_bind at 1.
  assert (forall (dir prefix : str) (r0 : result (option str)) (w0 : world),
    (let* _ := match dir with
               | [] => io_ret tt
               | _ :: _ => fun w1 => if path_exists env w1 dir then (Ok tt, w1)
                                     else makedirs env dir w1
               end in
     let* _ := write_file env (path_join env dir (prefix ++ Py.lit ".html"))
                 (page ++ LEGEND) in
     let* _ := (if in_app then io_ret tt
                else write_file env (path_join env dir (prefix ++ Py.lit ".json"))
                       (json_dump (Edits.ed_json ed))) in
     io_ret (Some (page ++ LEGEND))) w = (r0, w0) ->
    match r0 with
    | Ok None => files w0 = files w
    | Ok (Some html) =>
        exists ed0 page0,
          get_html_text ed0 header1 header2 = Ok page0 /\ html = page0 ++ LEGEND /\
          files w0 =
          (if in_app
           then <[realpath env (path_join env dir (prefix ++ Py.lit ".html")) := html]> (files w)
           else <[realpath env (path_join env dir (prefix ++ Py.lit ".json"))
                  := json_dump (Edits.ed_json ed0)]>
                  (<[realpath env (path_join env dir (prefix ++ Py.lit ".html")) := html]>
                     (files w)))
    | _ =>
        files w0 = files w \/
        (in_app = false /\
         exists html,
           files w0
           = <[realpath env (path_join env dir (prefix ++ Py.lit ".html")) := html]> (files w))
    end) as Hwrite.
  { intros dir prefix r0 w0.
    unfold io_bind at 1.
    assert (exists w1 ru,
              match dir with
              | [] => io_ret tt
              | _ :: _ => fun w1 => if path_exists env w1 dir then (Ok tt, w1)
                                    else makedirs env dir w1
              end w = (ru, w1) /\ files w1 = files w) as (w1 & ru & -> & Hw1).
    { destruct dir as [|c dir]; [by eexists _, _|].
      destruct (path_exists env w (c :: dir)); [by eexists _, _|].
      unfold makedirs. destruct (makedirs_error env (c :: dir)); by eexists _, _. }
    destruct ru as [[]| |]; [|intros [= <- <-]; by left..].
    unfold io_bind at 1, write_file at 1, io_bind at 1, open_ at 1, io_lift at 1.
    destruct (open_error env ModeWrite (path_join env dir (prefix ++ Py.lit ".html")));
      [intros [= <- <-]; by left|].
    cbn [files trace]. rewrite Hw1.
    destruct in_app.
    - unfold io_bind, io_ret. intros [= <- <-]. by exists ed, page.
    - unfold io_bind at 1, write_file at 1, io_bind at 1, open_ at 1, io_lift at 1.
      destruct (open_error env ModeWrite (path_join env dir (prefix ++ Py.lit ".json"))).
      + intros [= <- <-]. right. split; [done|]. by eexists.
      + unfold io_ret. intros [= <- <-]. by exists ed, page. }
  destruct output_dir as [dir|], output_prefix as [prefix|]; cbn [default].
  - unfold io_ret at 1. apply Hwrite.
  - unfold io_ret at 1. apply Hwrite.
  - unfold io_ret at 1. apply Hwrite.
  - unfold io_lift at 1. intros [= <- <-]. by left.
Qed.


(** X16.  A second file that does not exist is found out only after
    the first file has been changed: when [file1] opens for appending
    and for reading and the segmenter finds a sentence in every
    paragraph that is not blank, the constructor appends the newline
    to [file1], reads it, and raises [FileNotFoundError] at [file2];
    nothing is aligned. *)
Theorem missing_second_file file1 file2 stop_words min_par_sim min_sent_sim sim_slack w :
  files w !! realpath env file2 = None -> realpath env file2 <> realpath env file1 ->
  (forall p, blank p = false -> sent_tuples p <> []) ->
  open_error env ModeAppend file1 = None -> open_error env ModeRead file1 = None ->
  open_error env ModeRead file2 = None ->
  __init__ file1 file2 stop_words min_par_sim min_sent_sim sim_slack w
  = (Raise FileNotFoundError,
     {| files := with_newline (files w) (realpath env file1);
        trace := trace w ++ [EvAppend (realpath env file1) [Py.newline];
                             EvRead (realpath env file1); EvRead (realpath env file2)] |}).
Proof.
  intros Hnone Hne Hex Happend Hread1 Hread2.
  unfold AlignedText.__init__, io_bind at 1, append_file, io_bind at 1, open_ at 1, io_lift at 1.
  rewrite Happend.
  unfold io_bind at 1, read_paragraphs at 1, io_bind at 1, read_file at 1,
    io_bind at 1, open_ at 1, io_lift at 1.
  rewrite Hread1.
  cbn [files trace]. rewrite lookup_insert_eq. cbn [of_option].
  unfold io_lift at 1, sentence_tokenize at 1.
  match goal with
  | |- context [for_enumerate (tokenize_step sent_tuples) 0 ?ps ([], ∅)] =>
      destruct (tokenize_loop sent_tuples Hex ps 0 [] ∅ ltac:(intros; apply lookup_empty))
        as (m & -> & _)
  end.
  cbn [mbind result_bind].
  unfold io_bind at 1, read_paragraphs at 1, io_bind at 1, read_file at 1,
    io_bind at 1, open_ at 1, io_lift at 1.
  rewrite Hread2.
  cbn [files trace]. rewrite lookup_insert_ne by done. rewrite Hnone. cbn [of_option].
  unfold with_newline. by rewrite <- !app_assoc.
Qed.

End Disk.
End DiskFacts.

(** * Documents without aligned paragraphs *)

Module UnalignedFacts.
Import Edits EditsSpec EditsFacts SentenceFacts AlignedSpec TableFacts DriverFacts.

Lemma for_each_runs {A B} (I : B -> Prop) (f : B -> A -> result B) (l : list A) :
  (forall b a, a ∈ l -> I b -> exists b', f b a = Ok b' /\ I b') ->
  forall b, I b -> exists b', for_each f l b = Ok b' /\ I b'.
Proof.
  induction l as [|a l IH]; intros Hf b Hb; [by exists b|].
  destruct (Hf b a ltac:(by left) Hb) as (b1 & E & Hb1). cbn. rewrite E. cbn.
  apply IH; [|done]. intros b0 a0 Ha0. apply Hf. by right.
Qed.

Lemma concat_take_bound {A} (ps : list (list A)) i p :
  ps !! i = Some p -> length (concat (take i ps)) + length p <= length (concat ps).
Proof.
  intros Hp. pose proof (take_drop_middle _ _ _ Hp) as E.
  apply (f_equal (fun l => length (concat l))) in E.
  rewrite concat_app, length_app in E. cbn in E. rewrite length_app in E. lia.
Qed.

Section Unaligned.
Variable format_edit : str -> edit_kind -> str.
Variables sentence_offsets1 sentence_offsets2 : list (Z * Z).

Local Abbreviation unaligned_sentence := (unaligned_sentence sentence_offsets1 sentence_offsets2).
Local Abbreviation unaligned_paragraph :=
  (unaligned_paragraph format_edit sentence_offsets1 sentence_offsets2).
Local Abbreviation add_unaligned_paragraphs :=
  (add_unaligned_paragraphs format_edit sentence_offsets1 sentence_offsets2).

Local Abbreviation side_offsets := (side_offsets sentence_offsets1 sentence_offsets2).

Lemma unaligned_sentence_runs kind paragraph_index sentences global_sent_indices js k g :
  global_sent_indices !! k = Some g -> is_Some (sentences !! k) ->
  g < length (side_offsets kind) -> g < length (side_sentences kind js) ->
  exists js',
    unaligned_sentence kind paragraph_index sentences global_sent_indices js k = Ok js' /\
    length (side_sentences kind js') = length (side_sentences kind js).
Proof.
  intros Hg [text Ht] Ho Hs. unfold Edits.unaligned_sentence. rewrite Hg, Ht.
  unfold EditsSpec.side_offsets, side_sentences in *.
  destruct kind; cbn [of_option mbind result_bind].
  all: match goal with
       | |- context [of_option IndexError (?l !! ?j)] =>
           destruct (lookup_lt_is_Some_2 l j Ho) as [offset ->]
       end; cbn [of_option mbind result_bind].
  all: unfold list_assign; rewrite decide_True by done; cbn [mbind result_bind].
  all: eexists; split; [done|]; cbn; by rewrite length_insert.
Qed.

(** One paragraph that no alignment has seen and whose slot is still
    empty: its slot gets the formatted paragraph text and it counts as
    one edit. *)
Lemma unaligned_paragraph_runs kind paragraphs text_html js n i p :
  kind = deletion \/ kind = insertion ->
  paragraphs !! i = Some p -> Forall counted_right (take i paragraphs) ->
  text_html !! i = Some [] ->
  length (concat paragraphs) <= length (side_offsets kind) ->
  length (concat paragraphs) <= length (side_sentences kind js) ->
  exists js',
    unaligned_paragraph kind ∅ paragraphs (text_html, js, n) i p
    = Ok (<[i := format_edit (Py.join [Py.space] p) kind]> text_html, js', n + 1) /\
    length (side_sentences kind js') = length (side_sentences kind js).
Proof.
  intros Hkind Hp Hall Hslot Ho Hs. unfold Edits.unaligned_paragraph.
  rewrite decide_False by set_solver. cbn [mbind result_bind].
  rewrite Hslot. cbn [of_option mbind result_bind].
  pose proof (lookup_lt_Some _ _ _ Hp) as Hi.
  unfold get_sent_indices.
  rewrite sentence_offset_before_counts by (done || lia). cbn [mbind result_bind].
  pose proof (concat_take_bound _ _ _ Hp) as Hbound.
  set (off := length (concat (take i paragraphs))) in *.
  destruct (for_each_runs
              (fun js' => length (side_sentences kind js') = length (side_sentences kind js))
              (unaligned_sentence kind i p (map (fun j => j + off) (seq 0 (length p))))
              (seq 0 (length p))) with (b := js) as (js' & E & Hlen); [|done|].
  { intros b k Hk%list_elem_of_In%in_seq Hb.
    destruct (unaligned_sentence_runs kind i p (map (fun j => j + off) (seq 0 (length p)))
                b k (k + off)) as (b' & Eb & Hb').
    - rewrite lookup_map, lookup_seq_lt by lia. done.
    - apply lookup_lt_is_Some_2. lia.
    - lia.
    - lia.
    - exists b'. split; [done|]. congruence. }
  exists js'. split; [|done].
  assert (match kind with
          | deletion | insertion => Ok ()
          | _ => Raise AssertionError
          end = Ok ()) as -> by (by destruct Hkind as [-> | ->]).
  cbn [mbind result_bind]. rewrite E. cbn [mbind result_bind].
  unfold list_assign. rewrite decide_True; [done|]. by eapply lookup_lt_Some.
Qed.

(** A pass of [add_unaligned_paragraphs] over slots that are all
    empty, with nothing seen. *)
Lemma add_unaligned_paragraphs_loop kind paragraphs rest : forall done_ text_html js n,
  kind = deletion \/ kind = insertion ->
  paragraphs = done_ ++ rest -> Forall counted_right paragraphs ->
  length text_html = length done_ ->
  length (concat paragraphs) <= length (side_offsets kind) ->
  length (concat paragraphs) <= length (side_sentences kind js) ->
  exists js',
    for_enumerate (unaligned_paragraph kind ∅ paragraphs) (length done_) rest
      (text_html ++ replicate (length rest) [], js, n)
    = Ok (text_html ++ map (fun p => format_edit (Py.join [Py.space] p) kind) rest,
          js', n + length rest) /\
    length (side_sentences kind js') = length (side_sentences kind js).
Proof.
  induction rest as [|p rest IH]; intros done_ text_html js n Hkind Hps Hall Hlen Ho Hs.
  { exists js. cbn. by rewrite Nat.add_0_r. }
  cbn [for_enumerate].
  destruct (unaligned_paragraph_runs kind paragraphs
              (text_html ++ replicate (length (p :: rest)) []) js n (length done_) p)
    as (js1 & E & Hlen1); try done.
  { rewrite Hps. by apply list_lookup_middle. }
  { by apply Forall_take. }
  { rewrite lookup_app_r by lia. by rewrite Hlen, Nat.sub_diag. }
  rewrite E. cbn [mbind result_bind].
  destruct (IH (done_ ++ [p])
              (text_html ++ [format_edit (Py.join [Py.space] p) kind]) js1 (n + 1))
    as (js' & E' & Hlen'); try done.
  { by rewrite <- app_assoc. }
  { rewrite !length_app. cbn. lia. }
  { lia. }
  exists js'. split; [|congruence].
  rewrite length_app in E'. cbn [length] in E'.
  replace (length done_ + 1) with (S (length done_)) in E' by lia.
  assert (<[length done_ := format_edit (Py.join [Py.space] p) kind]>
            (text_html ++ replicate (length (p :: rest)) [])
          = (text_html ++ [format_edit (Py.join [Py.space] p) kind])
              ++ replicate (length rest) []) as ->.
  { rewrite <- Hlen. rewrite insert_app_r_alt by lia. rewrite Nat.sub_diag.
    cbn. by rewrite <- app_assoc. }
  rewrite E', <- app_assoc. cbn [length map app].
  by replace (n + 1 + length rest) with (n + S (length rest)) by lia.
Qed.

End Unaligned.

(** X17.  When no paragraphs are aligned, building the [EditsHtml]
    object makes every paragraph of the first document one deletion and
    every paragraph of the second one insertion: the page slots hold
    the formatted paragraph texts, and [num_edits] is the number of
    paragraphs of both documents, not of sentences. *)
Theorem nothing_aligned format_edit format_hover uuid4 nlp diff_main a :
  par_alignment a = [] ->
  Forall counted_right (p1s a) -> Forall counted_right (p2s a) ->
  length (concat (p1s a)) <= length (global_offsets1 a) ->
  length (concat (p2s a)) <= length (global_offsets2 a) ->
  exists ed,
    EditsObject.__init__ format_edit format_hover uuid4 nlp diff_main a = Ok ed /\
    ed_num_edits ed = length (p1s a) + length (p2s a) /\
    ed_html1 ed = map (fun p => format_edit (Py.join [Py.space] p) deletion) (p1s a) /\
    ed_html2 ed = map (fun p => format_edit (Py.join [Py.space] p) insertion) (p2s a).
Proof.
  intros Hpa H1 H2 Ho1 Ho2. unfold EditsObject.__init__, get_diff_html. rewrite Hpa.
  cbn [for_enumerate mbind result_bind ed_html1 ed_html2 ed_json ed_num_edits].
  destruct (add_unaligned_paragraphs_loop format_edit (global_offsets1 a) (global_offsets2 a)
              deletion (p1s a) (p1s a) [] []
              {| file1_sentences := replicate (length (concat (p1s a))) dummy_dict;
                 file2_sentences := replicate (length (concat (p2s a))) dummy_dict;
                 alignments := ∅ |} 0)
    as (js1 & E1 & Hlen1); try done.
  { by left. }
  { cbn. by rewrite length_replicate. }
  cbn [app length] in E1. unfold add_unaligned_paragraphs at 2. rewrite E1.
  cbn [mbind result_bind].
  assert (same_shape {| file1_sentences := replicate (length (concat (p1s a))) dummy_dict;
                        file2_sentences := replicate (length (concat (p2s a))) dummy_dict;
                        alignments := ∅ |} js1) as [_ Hshape].
  { eapply add_unaligned_paragraphs_shape. exact E1. }
  cbn in Hshape. rewrite length_replicate in Hshape.
  destruct (add_unaligned_paragraphs_loop format_edit (global_offsets1 a) (global_offsets2 a)
              insertion (p2s a) (p2s a) [] [] js1 (0 + length (p1s a)))
    as (js2 & E2 & Hlen2); try done.
  { by right. }
  { cbn. lia. }
  cbn [app length] in E2. unfold add_unaligned_paragraphs. rewrite E2.
  cbn [mbind result_bind]. eexists. split; [done|]. cbn. split_and!; [lia|done|done].
Qed.

End UnalignedFacts.

(** * The properties on concrete inputs *)

Lemma shared_symbol_table_witness :
  DiffSpec.fits (length (Diff.munge_text Sample.nlp Examples.r1))
                (length (Diff.munge_text Sample.nlp Examples.r2)) /\
  exists chars1 chars2 la offsets,
    Diff.diff_wordsToChars Sample.nlp Examples.r1 Examples.r2
    = Ok (chars1, chars2, la, offsets) /\
    Forall2 (DiffSpec.stands_for la) chars1
      (DiffSpec.chunks (Diff.munge_text Sample.nlp Examples.r1)) /\
    Forall2 (DiffSpec.stands_for la) chars2
      (DiffSpec.chunks (Diff.munge_text Sample.nlp Examples.r2)) /\
    (forall i j a b chunk_a chunk_b,
        (chars1 ++ chars2) !! i = Some a ->
        (DiffSpec.chunks (Diff.munge_text Sample.nlp Examples.r1)
           ++ DiffSpec.chunks (Diff.munge_text Sample.nlp Examples.r2)) !! i = Some chunk_a ->
        (chars1 ++ chars2) !! j = Some b ->
        (DiffSpec.chunks (Diff.munge_text Sample.nlp Examples.r1)
           ++ DiffSpec.chunks (Diff.munge_text Sample.nlp Examples.r2)) !! j = Some chunk_b ->
        (a = b <-> chunk_a = chunk_b)).
Proof.
  assert (DiffSpec.fits (length (Diff.munge_text Sample.nlp Examples.r1))
                        (length (Diff.munge_text Sample.nlp Examples.r2))) as Hfit.
  { split; vm_compute; discriminate. }
  split; [exact Hfit|].
  apply (CodecFacts.shared_symbol_table Sample.nlp Examples.r1 Examples.r2 Hfit).
Defined.

Lemma same_text_same_symbols_witness :
  DiffSpec.fits (length (Diff.munge_text Sample.nlp Examples.r1))
                (length (Diff.munge_text Sample.nlp Examples.r2)) /\
  exists chars1 chars2 la offsets,
    Diff.diff_wordsToChars Sample.nlp Examples.r1 Examples.r2
    = Ok (chars1, chars2, la, offsets) /\
    (chars1 = chars2
     <-> Diff.munge_text Sample.nlp Examples.r1 = Diff.munge_text Sample.nlp Examples.r2).
Proof.
  assert (DiffSpec.fits (length (Diff.munge_text Sample.nlp Examples.r1))
                        (length (Diff.munge_text Sample.nlp Examples.r2))) as Hfit.
  { split; vm_compute; discriminate. }
  split; [exact Hfit|].
  apply (CodecFacts.same_text_same_symbols Sample.nlp Examples.r1 Examples.r2 Hfit).
Defined.


Lemma handle_diff_counts_edits_witness :
  exists html1 html2 eds n',
    Edits.handle_diff Sample.format_edit Examples.s1 Examples.s2
      Examples.diff Examples.char_diff
      Examples.token_offsets1 Examples.token_offsets2 0
    = Ok (html1, html2, eds, n') /\
    n' = 0 + EditsSpec.count_edits (map edit_type eds) /\
    (n' = 0 <-> Forall (fun r => r.1 = DIFF_EQUAL) Examples.diff).
Proof.
  apply (EditsCounts.handle_diff_counts_edits Sample.format_edit Examples.s1 Examples.s2
           Examples.diff Examples.char_diff);
    [reflexivity|discriminate].
Defined.

Lemma handle_loop_consumes_witness :
  exists st',
    Edits.handle_loop Sample.format_edit Examples.s1 Examples.s2
      (length Examples.diff) Examples.diff Examples.num_tokens_list 0 Examples.state0
    = Ok st' /\
    offsets1 st'
    = drop (EditsSpec.side_count DIFF_INSERT (zip Examples.diff Examples.num_tokens_list))
           (offsets1 Examples.state0) /\
    offsets2 st'
    = drop (EditsSpec.side_count DIFF_DELETE (zip Examples.diff Examples.num_tokens_list))
           (offsets2 Examples.state0).
Proof.
  apply (EditsCounts.handle_loop_consumes Sample.format_edit Examples.s1 Examples.s2
           Examples.diff Examples.num_tokens_list Examples.state0).
  reflexivity.
Defined.


Lemma locate_paragraph_indexes_listed_witness :
  Forall (fun par_index => par_index < length Examples.paragraphs) [0; 1] /\
  match EditsSpec.listed_sentences [0; 1] Examples.paragraphs !! 2 with
  | Some sent =>
      exists par_index p k,
        Edits.locate_paragraph [0; 1] 2 Examples.paragraphs = Ok (par_index, sent) /\
        par_index ∈ [0; 1] /\
        Examples.paragraphs !! par_index = Some p /\ p !! k = Some sent
  | None => Edits.locate_paragraph [0; 1] 2 Examples.paragraphs = Raise IndexError
  end.
Proof.
  assert (Forall (fun par_index => par_index < length Examples.paragraphs) [0; 1]) as H.
  { repeat constructor. }
  split; [exact H|].
  apply (SentenceFacts.locate_paragraph_indexes_listed [0; 1] 2 Examples.paragraphs H).
Defined.

Lemma add_unaligned_sentences_marks_witness :
  exists sentence_dicts paragraph_html' js' n',
    Edits.add_unaligned_sentences Sample.format_edit deletion Examples.first_done
      Examples.paragraphs 0 Edits.file1_sentences_key Examples.sentence_offsets
      Examples.empty_json 0
    = Ok (sentence_dicts, paragraph_html', js', n') /\
    exists paragraph,
      Examples.paragraphs !! 0 = Some paragraph /\
      sentence_dicts = [] /\
      (forall k, paragraph_html' !! k
                 = match Examples.first_done !! k with
                   | Some v => Some v
                   | None => (fun s => Sample.format_edit s deletion) <$> paragraph !! k
                   end) /\
      n' = 0 + length (List.filter (fun k => bool_decide (Examples.first_done !! k = None))
                         (seq 0 (length paragraph))) /\
      (EditsSpec.all_records_ok Examples.empty_json -> EditsSpec.all_records_ok js').
Proof.
  eexists _, _, _, _. split; [vm_compute; reflexivity|].
  apply (SentenceFacts.add_unaligned_sentences_marks Sample.format_edit deletion
           Examples.first_done Examples.paragraphs 0 Edits.file1_sentences_key
           Examples.sentence_offsets Examples.empty_json 0).
  vm_compute. reflexivity.
Defined.

Lemma get_sentence_range_witness :
  exists r js',
    Edits.get_sentence 0 [0] [0; 1] Examples.paragraphs Examples.first_done
      Examples.sentence_offsets Edits.file1_sentences_key Examples.content
      Examples.empty_json = Ok (r, js') /\
    match r with
    | None => (forall j, j ∈ [0; 1] -> is_Some (Examples.first_done !! j)) /\
              js' = Examples.empty_json
    | Some (sentence, sentence_list', par_indices, sent_indices, sentence_dicts) =>
        (exists j, j ∈ [0; 1] /\ Examples.first_done !! j = None) /\
        (exists a k, sentence_list' ≡ₚ seq a k) /\
        (forall j, j ∈ [0; 1] -> Examples.first_done !! j = None -> j ∈ sentence_list') /\
        Edits.get_sent_indices 0 Examples.paragraphs sentence_list' = Ok sent_indices /\
        Forall2 (EditsSpec.sentence_record Examples.sentence_offsets Examples.content)
          sentence_dicts sent_indices /\
        sentence = Py.join [Py.space] (map EditsSpec.dict_text sentence_dicts) /\
        alignments js' = alignments Examples.empty_json /\
        EditsSpec.same_shape Examples.empty_json js'
    end.
Proof.
  eexists _, _. split; [vm_compute; reflexivity|].
  apply (SentenceFacts.get_sentence_range 0 [0] [0; 1] Examples.paragraphs
           Examples.first_done Examples.sentence_offsets Edits.file1_sentences_key
           Examples.content Examples.empty_json).
  vm_compute. reflexivity.
Defined.

Lemma editor_well_formed_witness :
  exists ed,
    EditsObject.__init__ Sample.format_edit Examples.format_hover (fun _ _ => 0)
      Sample.nlp Sample.diff_main Examples.revision = Ok ed /\
    EditsSpec.well_formed
      (length (p1s Examples.revision)) (length (p2s Examples.revision))
      (length (concat (p1s Examples.revision))) (length (concat (p2s Examples.revision)))
      ed.
Proof.
  eexists. split; [vm_compute; reflexivity|].
  apply (DriverFacts.editor_well_formed Sample.format_edit Examples.format_hover
           (fun _ _ => 0) Sample.nlp Sample.diff_main Examples.revision).
  vm_compute. reflexivity.
Defined.

Lemma table_addresses_text_witness :
  Forall (AlignedSpec.exact_width Sample.sent_tuples)
         (Py.split Py.newline Examples.document) /\
  Forall (AlignedSpec.spans_inside Sample.sent_tuples)
         (Py.split Py.newline Examples.document) /\
  exists paragraphs sentence_offsets table,
    AlignedText.sentence_tokenize Sample.sent_tuples Examples.document
    = Ok (Examples.document, paragraphs, sentence_offsets) /\
    AlignedText.get_sentence_offsets Examples.document [] sentence_offsets ∅ 1 = Ok table /\
    forall i p k text b e,
      Py.split Py.newline Examples.document !! i = Some p ->
      AlignedSpec.blank p = false ->
      Sample.sent_tuples p !! k = Some (text, (b, e)) ->
      let start := Z.of_nat (AlignedSpec.start_of (Py.split Py.newline Examples.document) i) in
      table !! (k + length (concat (take i paragraphs))) = Some ((b + start)%Z, (e + start)%Z) /\
      Py.slice Examples.document (b + start) (e + start) = Py.slice p b e.
Proof.
  assert (Forall (AlignedSpec.exact_width Sample.sent_tuples)
                 (Py.split Py.newline Examples.document)) as Hexact.
  { vm_compute. repeat constructor; eexists; split; reflexivity. }
  assert (Forall (AlignedSpec.spans_inside Sample.sent_tuples)
                 (Py.split Py.newline Examples.document)) as Hinside.
  { vm_compute. repeat constructor; discriminate. }
  split; [exact Hexact|]. split; [exact Hinside|].
  apply (TableFacts.table_addresses_text Sample.sent_tuples Examples.document [] ∅
           Hexact Hinside).
Defined.

Lemma sent_indices_count_sentences_witness :
  1 <= length Examples.paragraphs /\
  Forall AlignedSpec.counted_right (take 1 Examples.paragraphs) /\
  Edits.get_sent_indices 1 Examples.paragraphs [0]
  = Ok (map (fun j => j + length (concat (take 1 Examples.paragraphs))) [0]).
Proof.
  assert (1 <= length Examples.paragraphs) as Hle by (vm_compute; lia).
  assert (Forall AlignedSpec.counted_right (take 1 Examples.paragraphs)) as Hall.
  { vm_compute. repeat constructor. }
  split; [exact Hle|]. split; [exact Hall|].
  apply (TableFacts.sent_indices_count_sentences 1 Examples.paragraphs [0] Hle Hall).
Defined.


Lemma missing_second_file_witness :
  files Examples.lonely_world !! realpath Sample.env (Py.lit "b.txt") = None /\
  realpath Sample.env (Py.lit "b.txt") <> realpath Sample.env (Py.lit "a.txt") /\
  open_error Sample.env ModeAppend (Py.lit "a.txt") = None /\
  open_error Sample.env ModeRead (Py.lit "a.txt") = None /\
  open_error Sample.env ModeRead (Py.lit "b.txt") = None /\
  AlignedText.__init__ Sample.env Sample.sent_tuples id id id unit unit Sample.TFIDFModel
    Sample.getParagraphAlignments Sample.getSentenceAlignments
    (Py.lit "a.txt") (Py.lit "b.txt") (Py.lit "stop_words.txt")
    (3, 10)%Z (4, 10)%Z (5, 100)%Z Examples.lonely_world
  = (Raise FileNotFoundError,
     {| files := LoadSpec.with_newline (files Examples.lonely_world)
                   (realpath Sample.env (Py.lit "a.txt"));
        trace := trace Examples.lonely_world
                 ++ [EvAppend (realpath Sample.env (Py.lit "a.txt")) [Py.newline];
                     EvRead (realpath Sample.env (Py.lit "a.txt"));
                     EvRead (realpath Sample.env (Py.lit "b.txt"))] |}).
Proof.
  assert (files Examples.lonely_world !! realpath Sample.env (Py.lit "b.txt") = None) as Hnone
    by (vm_compute; reflexivity).
  assert (realpath Sample.env (Py.lit "b.txt") <> realpath Sample.env (Py.lit "a.txt")) as Hne
    by (vm_compute; discriminate).
  split; [exact Hnone|]. split; [exact Hne|]. do 3 (split; [reflexivity|]).
  apply (DiskFacts.missing_second_file Sample.env Sample.sent_tuples id id id unit unit
           Sample.TFIDFModel Sample.getParagraphAlignments Sample.getSentenceAlignments
           (Py.lit "a.txt") (Py.lit "b.txt") (Py.lit "stop_words.txt")
           (3, 10)%Z (4, 10)%Z (5, 100)%Z Examples.lonely_world Hnone Hne
           SampleSegmenter.sample_sentences_exist eq_refl eq_refl eq_refl).
Defined.

Lemma nothing_aligned_witness :
  par_alignment Examples.unrelated = [] /\
  Forall AlignedSpec.counted_right (p1s Examples.unrelated) /\
  Forall AlignedSpec.counted_right (p2s Examples.unrelated) /\
  exists ed,
    EditsObject.__init__ Sample.format_edit Examples.format_hover (fun _ _ => 0)
      Sample.nlp Sample.diff_main Examples.unrelated = Ok ed /\
    Edits.ed_num_edits ed
    = length (p1s Examples.unrelated) + length (p2s Examples.unrelated) /\
    Edits.ed_html1 ed
    = map (fun p => Sample.format_edit (Py.join [Py.space] p) deletion)
          (p1s Examples.unrelated) /\
    Edits.ed_html2 ed
    = map (fun p => Sample.format_edit (Py.join [Py.space] p) insertion)
          (p2s Examples.unrelated).
Proof.
  assert (Forall AlignedSpec.counted_right (p1s Examples.unrelated)) as H1.
  { vm_compute. repeat constructor. }
  assert (Forall AlignedSpec.counted_right (p2s Examples.unrelated)) as H2.
  { vm_compute. repeat constructor. }
  split; [reflexivity|]. split; [exact H1|]. split; [exact H2|].
  apply (UnalignedFacts.nothing_aligned Sample.format_edit Examples.format_hover
           (fun _ _ => 0) Sample.nlp Sample.diff_main Examples.unrelated
           eq_refl H1 H2).
  - vm_compute. lia.
  - vm_compute. lia.
Defined.
